(* ===== verification/_CoqProject ===== *)
-Q . S2P
Prelude.v
JsString.v
NumFormat.v
Double.v
Rounding.v
Environment.v
WordSource.v
Render.v
Scorer.v
Session.v
SessionInv.v
Refinement.v
Timing.v
Liveness.v
Browser.v
Page.v
