(* ===== verification/Prelude.v ===== *)
(** * MiniType: a verification development of [src/script.js]

    ** The program

    [src/script.js] is a ten-word typing test: one closure (lines 2-146)
    that keeps four variables ([targetWords], [targetText], [startTime],
    [ended], lines 19-22) and writes a few DOM nodes.  Its parts interact
    through those shared variables and through the DOM:
    - the word source ([WORD_BANK], lines 12-17; [pickWords], 24-32)
      draws [WORD_COUNT] words with [Math.random()] and [splice];
    - [startNewTest] (57-69) joins them into [targetText], renders one
      [span.char] per code unit with [renderWords] (34-55) and resets the
      input, the variables and the stats;
    - the [input] listener (116-127) stamps [startTime] with
      [performance.now()] on the first non-empty value, recolours the
      spans with [updateVisuals] (80-95) and calls [finishTest] (97-111)
      when the value, with or without trailing white space, equals the
      target; [finishTest] computes time, words per minute and accuracy
      ([countCorrectChars], 71-78) and shows them;
    - the [keydown] listener (130-140) calls [finishTest] on [Enter] when
      the trimmed value equals the target; the [paste] listener (114)
      calls [preventDefault], so the browser does not insert the
      clipboard text; the restart button (142) and the initial call
      (145) run [startNewTest].
    The browser sits between the user and the listeners: a key press, a
    paste or a drop becomes a [keydown], [paste] or [input] event, and
    the [input] event carries the edited value.

    ** The files

    - [Prelude] (this file): the effect monad [M] (state plus a
      JavaScript exception that keeps the writes made before it), the
      loops [for_upto] and [forEach_from], the notation scope [ft_scope],
      the hint databases [ft] and [ft_rw], the tactics [mrun] and
      [qdecide], and the monad and loop lemmas every handler proof uses.
    - [JsString]: strings as lists of UTF-16 code units; the white-space
      set of ECMAScript; [trim], [trimEnd], [split(/\s+/)], [split(" ")]
      and [Array.prototype.join], with [undefined] joined as the empty
      string.
    - [NumFormat]: [Number.prototype.toFixed], [Math.round] and the
      printing of an integral Number, on the exact value of a double,
      with readers for the round trips.
    - [Double]: Numbers as IEEE 754 binary64 doubles with the Standard
      Library's [SpecFloat] (round to nearest even): the operations the
      script uses, the exact value of a double, [ToBoolean], the texts of
      [toFixed] and [Math.round] on a double, sign lemmas, and the exact
      results: an integer below [2^53] converts without rounding and
      [x / x] is [1] for every positive finite [x].
    - [Rounding]: what [binary_round_aux] computes, the truncation of
      the shifted mantissa or one more, at most half a unit above the
      exact value; its consequence for [Math.random() * len], a double
      in [[0, len)] whose floor is the exact one or one more.
    - [Environment]: the interface of the two sources the script reads,
      [performance.now()] and [Math.random()], as the class
      [Environment] (the [k]-th reading of each) with its laws
      [EnvironmentLaws] (positive, monotone clock; draws in [[0, 1)]),
      and the instance of two recorded streams.
    - [WordSource]: [WORD_COUNT], the bank literal and [WORD_BANK],
      [splice1], the index [Math.floor(Math.random() * len)] on doubles
      ([random_index], with [floor_start] for [Math.floor] and the start
      of [splice]) and read exactly ([random_index_exact]), and
      [pick_loop]/[pickWords] over any random source given as a section
      variable.
    - [Render]: the [.char] spans of [#words] as a list in document order,
      [renderWords] (which throws on an [undefined] word) and
      [updateVisuals] with its per-position [classify].
    - [Scorer]: [countCorrectChars] as its loop; [score64], the
      arithmetic of [finishTest] on doubles, with its three displayed
      texts.
    - [Session]: the world ([Session] variables, [Dom] fields, and the
      positions reached in the clock and random streams), the handlers
      [startNewTest], [finishTest], [onInput], [onKeydown] composed as
      in the source, the [paste] listener [onPaste] on its event object
      ([DomEvent], [preventDefault]), [dispatch] and [step] per browser
      [event], [load],
      and [reachable], the worlds reachable by any finite sequence of
      events; then one equation per handler ([fresh], [finished],
      [stamped], [input_running]).
    - [SessionInv]: the invariant [inv] of reachable worlds, proved by
      rule induction on [reachable], and its consequences.
    - [Refinement]: the contract of section 4.3 of the specification
      as a relation [astep] on NOT_STARTED/RUNNING/FINISHED states, the
      simulation [abs_step] (every concrete step is a contract step), its
      runs [asteps], and
      the tagged variant [session_state] of section 7 with the reading
      [tag_session] of the flags.
    - [Timing]: [startTime] is null or an earlier clock reading
      ([start_read]), what a finish shows ([finish_shows_score]), and
      the well-typedness of the flags ([reachable_well_tagged]).
    - [Liveness]: runs of events ([run]), typing one code unit at a
      time ([keystrokes]), [eventually], and the completion of every
      listener, proved against the [Environment] interface.
    - [Page]: the lookups of lines 4-10 as found or [null] ([Page],
      declared in [Session] with [need], the [TypeError] of a use of a
      missing element, and [startNewTest_on], [startNewTest] on a page),
      and the load sequence [boot]: the four registrations of lines
      114-142 in source order, then [startNewTest()].
    - [Browser]: the user's actions on the field ([action]: a key press,
      a paste or a drop at a [Selection], a click on restart) and what
      the browser does with each ([act]): the events it fires in order,
      the edit of the value ([apply_edit], [key_edit]) and the paste
      inserted only when [onPaste] left it uncancelled.  This is the
      browser's behaviour after the UI Events and Input Events
      specifications, not code of the repository.

    ** What is proved

    - The session: [reachable_inv]; [abs_step] and [abs_load];
      [input_ends_iff] (the test ends exactly when the trimmed input
      equals the target); [finish_shows_score] (the finish shows the
      texts of [score64] on the start reading and the next reading,
      neither negative nor NaN, with a monotone clock);
      [running_correct_count] (while a test runs, the spans shown
      [correct] are as many as [countCorrectChars] counts);
      [keydown_never_changes] (the [Enter] path is dead code);
      [finished_shows_100] (a finished test always shows [100.0%]);
      [ended_latches]; [restart_resets]; [reachable_well_tagged] (the
      flags always encode the tagged variant: never ended without a
      start).
    - Runs: [typing_finishes] (typing the target unit by unit finishes
      the test exactly at the last unit, with [100.0%]);
      [restart_recovers] (from any world, even one a thrown exception left
      half updated, some events finish a test); [dispatch_completes]
      (every listener returns normally, with at most two clock readings
      and [WORD_COUNT] draws on a restart, none otherwise).
    - The word source: [pickWords_draws_from_bank] (ten words, a
      sub-multiset of the bank); [pick_loop_distinct] (the selection
      contract on a vocabulary of distinct words); [pick_loop_overdraw]
      (too few words gives [undefined], not a failure);
      [random_index_uniform] (a draw of [[k/len, (k+1)/len)] picks [k],
      or [k + 1] when the product rounds up, never past the end;
      [random_index_rounds_up] gives such a draw for [len = 51]).
    - Rendering: [renderWords_shows_text], [renderWords_undefined]
      (the [TypeError] path), [updateVisuals_colours] (each span is
      pending, correct or incorrect by the typed and target units at
      its position, word and text kept).
    - Scoring and display: [countCorrectChars_equal_pairs],
      [toFixed_nearest]; the round trips [int_to_string_roundtrip] and
      [split_on_join]; [fixed_point_canonical] (the digits of [toFixed]:
      an integer part without leading zeros, a point, [f] digits); on
      doubles, [score64_exact] (a perfect score is exactly [100], shown
      [100.0%], for every target length below [2^53]),
      [score64_degenerate], and [wpm_text64_nearest] (the rate is shown
      as the natural number nearest the double [wpm]).  The examples
      [time_text64_1005] (1005 ms is shown as [1.00]: [toFixed] rounds
      the double nearest [1.005], which lies below it),
      [score64_scenario] and [pickWords_can_repeat] (the bank holds
      [work] twice) are evaluations that record findings.
    - The page: [boot_missing] (on a page lacking an element,
      the load throws a [TypeError], with the listeners of the lines
      before the failure registered, and no test drawn when [#input] or
      [#restart] is missing).
    - User actions: [pastes_ignored] (a paste anywhere in a sequence of
      actions changes nothing); [drop_finishes] (a drop of the target
      finishes a running test in one action: only pastes are blocked).

    ** Bounds, fuel and assumptions

    No definition needs fuel: [pick_loop] recurses on the number of draws
    left, [count_loop] on the positions left, [for_upto] on the
    iterations left, and string functions on the string.  Event sequences
    are unbounded: [reachable] is the inductive closure of [step] from
    [load], and [eventually] the existence of a finite run.  The session
    theorems assume that [performance.now()] returns positive doubles
    ([clock_pos]: the script's [!startTime] treats [0] as unset, and a
    reading of [0] would let one [input] event read the clock three
    times) and that [Math.random()] returns numbers in [[0, 1)] (a draw
    of [1] would splice past the end and render [undefined]); both are
    section hypotheses or the laws of [Environment], discharged by a
    concrete clock and random source in the witnesses.
    [finish_shows_score] also assumes that the clock is monotone, as
    [performance.now()] is.  That a perfect score shows [100.0%] on
    doubles is proved for every length below [2^53], where the length
    converts to a double exactly; a target has at most 110 code units
    (ten words of at most ten units and nine spaces).  A
    JavaScript array has fewer than [2^32] elements, which the theorems
    on [pick_loop] assume of the vocabulary: lengths are then integers
    a double holds, and [Math.random() * len] stays below [len].  The
    concrete clock of the witnesses reads the doubles [1000 + 500 k] up
    to its twentieth reading, checked by evaluation, and stays there.

    ** What is not modelled

    - [Number::toString] of a non-integral or very large double (its
      shortest round-trip digits): the script prints only integers
      ([Math.round]) and [toFixed] texts; [toFixed] of a value of at
      least [10^21], which prints that string, is modelled as the exact
      integer digits.  No reachable value comes near it.
    - The page itself: [index.html] and the styles are not in the
      repository.  [Page] records which lookups of lines 4-10 succeed
      and [boot] runs the load sequence on any page; the listeners after
      load are modelled on the page the script is written for
      ([full_page]).  On another page every listener would have to be
      re-read with a [null] check at each element use, which the
      script does not make; what such a page does is what [boot_missing]
      states.  [input.focus()] is a flag.
    - The browser's editing beyond a single-line field: IME composition,
      undo, autofill and the deletion of a character made of two code
      units; a key press is a [keydown] followed by its edit, with no
      [keypress] or [beforeinput] listener in the script to observe.
    - [WORD_COUNT] is the constant of line 3; the loop [pick_loop] is
      proved for any count and any vocabulary, [pickWords] for the
      constant. *)

From stdpp Require Export base list strings.
From Stdlib Require Export QArith Qround Lqa ZArith.
Close Scope Q_scope.

(** ** The effect monad shared by every handler

    The script is one closure whose handlers read and write shared
    variables, touch the DOM, read [performance.now()] and
    [Math.random()], and may throw a JavaScript exception (a
    [TypeError] when a property of [undefined] is read).  A thrown
    exception aborts the handler but keeps every write it made before
    the throw, so the monad is a state monad whose result is either a
    value or an exception, with the state kept in both cases. *)

Inductive exn : Type :=
  | TypeError.

Inductive outcome (A : Type) : Type :=
  | Normal (a : A)
  | Thrown (e : exn).
Arguments Normal {A} a.
Arguments Thrown {A} e.

Definition M (St A : Type) : Type := St -> outcome A * St.

Section StateExc.
Context {St : Type}.

Definition st_ret {A} (a : A) : M St A := fun s => (Normal a, s).

Definition st_bind {A B} (m : M St A) (k : A -> M St B) : M St B :=
  fun s =>
    match m s with
    | (Normal a, s') => k a s'
    | (Thrown e, s') => (Thrown e, s')
    end.

Definition st_get : M St St := fun s => (Normal s, s).
Definition st_modify (f : St -> St) : M St unit := fun s => (Normal tt, f s).
Definition st_throw {A} (e : exn) : M St A := fun s => (Thrown e, s).

(** Run a computation and keep its final state. *)
Definition exec {A} (m : M St A) (s : St) : St := snd (m s).
End StateExc.

Declare Scope ft_scope.
Delimit Scope ft_scope with ft.
Notation "'let*' x ':=' m 'in' k" := (st_bind m (fun x => k))
  (at level 10, x name, m at level 100, k at level 200)
  : ft_scope.
Notation "m >> k" := (st_bind m (fun _ => k))
  (at level 190, right associativity) : ft_scope.
Local Open Scope ft_scope.

(** Run a computation on one part of the state (a field of a record):
    how a handler that works on [wordsEl] alone is run on the world. *)
Definition focus {St T A} (get : St -> T) (set : T -> St -> St) (m : M T A) : M St A :=
  fun s => let '(o, t') := m (get s) in (o, set t' s).

Section Loops.
Context {St : Type}.

(** [for (let i = i0; i < i0 + n; i++) body(i)] *)
Fixpoint for_upto (n i : nat) (body : nat -> M St unit) : M St unit :=
  match n with
  | 0 => st_ret tt
  | S n' => body i >> for_upto n' (S i) body
  end.

(** [xs.forEach((x, i) => body(x, i))], indices counted from [i]. *)
Fixpoint forEach_from {A} (i : nat) (xs : list A) (body : A -> nat -> M St unit)
    : M St unit :=
  match xs with
  | [] => st_ret tt
  | x :: xs' => body x i >> forEach_from (S i) xs' body
  end.
End Loops.

(** ** Monad laws and loop lemmas *)

Section Laws.
Context {St : Type}.

Lemma st_bind_ret_l {A B} (a : A) (k : A -> M St B) : st_bind (st_ret a) k = k a.
Proof. reflexivity. Qed.

Lemma st_bind_normal {A B} (m : M St A) (k : A -> M St B) s a s' :
  m s = (Normal a, s') -> st_bind m k s = k a s'.
Proof. intros H. unfold st_bind. by rewrite H. Qed.

Lemma st_bind_modify {B} (f : St -> St) (k : unit -> M St B) s :
  st_bind (st_modify f) k s = k tt (f s).
Proof. reflexivity. Qed.

Lemma st_bind_throw {A B} (e : exn) (k : A -> M St B) s :
  st_bind (st_throw e) k s = (Thrown e, s).
Proof. reflexivity. Qed.

Lemma st_bind_thrown {A B} (m : M St A) (k : A -> M St B) s e s' :
  m s = (Thrown e, s') -> st_bind m k s = (Thrown e, s').
Proof. intros H. unfold st_bind. by rewrite H. Qed.

(** A computation that never throws and keeps [P]. *)
Definition preserves {A} (P : St -> Prop) (m : M St A) : Prop :=
  forall s, P s -> exists a s', m s = (Normal a, s') /\ P s'.

Lemma preserves_bind {A B} (P : St -> Prop) (m : M St A) (k : A -> M St B) :
  preserves P m -> (forall a, preserves P (k a)) -> preserves P (st_bind m k).
Proof.
  intros Hm Hk s Hs. destruct (Hm s Hs) as (a & s' & Heq & Hs').
  rewrite (st_bind_normal _ _ _ _ _ Heq). by apply Hk.
Qed.

Lemma for_upto_preserves (P : St -> Prop) n i body :
  (forall j, preserves P (body j)) -> preserves P (for_upto n i body).
Proof.
  intros Hb. revert i. induction n as [|n IH]; intros i s Hs; simpl.
  - by exists tt, s.
  - by apply preserves_bind.
Qed.

Lemma forEach_preserves {A} (P : St -> Prop) i (xs : list A) body :
  (forall x j, preserves P (body x j)) -> preserves P (forEach_from i xs body).
Proof.
  intros Hb. revert i. induction xs as [|x xs IH]; intros i s Hs; simpl.
  - by exists tt, s.
  - by apply preserves_bind.
Qed.
End Laws.

Create HintDb ft discriminated.
Create Rewrite HintDb ft_rw.
#[export] Hint Rewrite @st_bind_ret_l : ft_rw.
#[export] Hint Resolve preserves_bind for_upto_preserves forEach_preserves : ft.

(** Unfold the monad plumbing of a handler and compute. *)
Ltac mrun :=
  cbn [st_bind st_ret st_get st_modify st_throw exec focus for_upto forEach_from fst snd] in *.

(** Decide a comparison of two closed rationals by computation. *)
Ltac qdecide :=
  lazymatch goal with
  | |- (_ <= _)%Q => apply Qle_bool_iff; vm_compute; reflexivity
  | |- (_ < _)%Q => apply Qnot_le_lt; rewrite <- Qle_bool_iff; vm_compute; discriminate
  | |- (_ <= _ < _)%Q => split; qdecide
  end.

(** [a < b] on rationals as a boolean. *)
Definition Qlt_bool (a b : Q) : bool := negb (Qle_bool b a).

Lemma Qlt_bool_iff a b : Qlt_bool a b = true <-> (a < b)%Q.
Proof.
  unfold Qlt_bool. rewrite negb_true_iff. split.
  - intros H. apply Qnot_le_lt. intros Hle. apply Qle_bool_iff in Hle. congruence.
  - intros H. destruct (Qle_bool b a) eqn:E; [|done]. apply Qle_bool_iff in E. lra.
Qed.
