(* ===== verification/JsString.v ===== *)
(** * JavaScript strings and the string built-ins the script calls

    A JavaScript string is a sequence of UTF-16 code units: [s.length]
    counts code units and [s[i]] reads one (or [undefined] past the
    end).  This file models the built-ins [src/script.js] uses:
    [String.prototype.trim] and [trimEnd] (lines 17, 123, 125, 132),
    [split(/\s+/)] (line 17), [Array.prototype.join] (line 59), and
    [split(" ")], the inverse the specification states for [join]. *)

From S2P Require Import Prelude.

Abbreviation jsstr := (list N).

(** Convert a Rocq literal (ASCII) into code units. *)
Definition of_string (s : string) : jsstr :=
  map Ascii.N_of_ascii (String.list_ascii_of_string s).

(** ** White space

    [trim], [trimEnd] and the regular-expression class [\s] all use
    the same set: WhiteSpace (TAB, VT, FF, SP, NBSP, ZWNBSP and the
    Unicode category Zs) and LineTerminator (LF, CR, LS, PS). *)
Definition js_space_units : list N :=
  [9; 10; 11; 12; 13; 32; 160; 5760; 8232; 8233; 8239; 8287; 12288; 65279]%N.

Definition is_js_space (c : N) : bool :=
  bool_decide (c ∈ js_space_units) || ((8192 <=? c) && (c <=? 8202))%N.

(** Leading white space removed ([trimStart]). *)
Fixpoint drop_spaces (s : jsstr) : jsstr :=
  match s with
  | [] => []
  | c :: s' => if is_js_space c then drop_spaces s' else s
  end.

Definition trimStart (s : jsstr) : jsstr := drop_spaces s.
Definition trimEnd (s : jsstr) : jsstr := reverse (drop_spaces (reverse s)).
Definition trim (s : jsstr) : jsstr := trimStart (trimEnd s).

(** ** [s.split(/\s+/)]

    The splitter tries the pattern at every position [q]; a match ends
    the current piece and resumes after the maximal run of white space.
    A string that starts with white space gives a leading empty piece,
    one that ends with white space a trailing empty piece, and the empty
    string gives a list holding the empty string.  [skipping] is true
    inside a run. *)
Fixpoint split_spaces_go (s cur : jsstr) (skipping : bool) : list jsstr :=
  match s with
  | [] => [reverse cur]
  | c :: s' =>
      if is_js_space c then
        if skipping then split_spaces_go s' [] true
        else reverse cur :: split_spaces_go s' [] true
      else split_spaces_go s' (c :: cur) false
  end.

Definition split_spaces (s : jsstr) : list jsstr := split_spaces_go s [] false.

(** ** [s.split(sep)] for a one-unit separator *)
Fixpoint split_on_go (sep : N) (s cur : jsstr) : list jsstr :=
  match s with
  | [] => [reverse cur]
  | c :: s' =>
      if (c =? sep)%N then reverse cur :: split_on_go sep s' []
      else split_on_go sep s' (c :: cur)
  end.

Definition split_on (sep : N) (s : jsstr) : list jsstr := split_on_go sep s [].

(** ** [arr.join(sep)]

    [join] on strings; an element that is [undefined] (modelled as
    [None]) is joined as the empty string. *)
Fixpoint join (sep : jsstr) (l : list jsstr) : jsstr :=
  match l with
  | [] => []
  | [x] => x
  | x :: l' => x ++ sep ++ join sep l'
  end.

Definition join_elems (sep : jsstr) (l : list (option jsstr)) : jsstr :=
  join sep (map (default []) l).

Lemma join_elems_some sep ws : join_elems sep (map Some ws) = join sep ws.
Proof. unfold join_elems. rewrite map_map. by rewrite map_id. Qed.

(** The space character, [' ']. *)
Definition SPACE : N := 32%N.

(** ** Lemmas *)

Lemma is_js_space_SPACE : is_js_space SPACE = true.
Proof. reflexivity. Qed.

Lemma drop_spaces_suffix s : exists p, s = p ++ drop_spaces s /\ Forall (fun c => is_js_space c = true) p.
Proof.
  induction s as [|c s IH]; simpl.
  - by exists [].
  - destruct (is_js_space c) eqn:Hc.
    + destruct IH as (p & Hp & Hf). exists (c :: p). simpl. rewrite <- Hp. auto.
    + by exists [].
Qed.

Lemma drop_spaces_head s c s' : drop_spaces s = c :: s' -> is_js_space c = false.
Proof.
  induction s as [|d s IH]; simpl; [done|].
  destruct (is_js_space d) eqn:Hd; [done|]. by intros [= -> _].
Qed.

Lemma drop_spaces_idem s : drop_spaces (drop_spaces s) = drop_spaces s.
Proof.
  destruct (drop_spaces s) as [|c s'] eqn:E; [done|].
  simpl. by rewrite (drop_spaces_head _ _ _ E).
Qed.

(** [trimEnd] removes exactly a suffix of white space, and what remains
    is empty or ends with a non-space. *)
Lemma trimEnd_spec s :
  exists p, s = trimEnd s ++ p /\ Forall (fun c => is_js_space c = true) p.
Proof.
  unfold trimEnd. destruct (drop_spaces_suffix (reverse s)) as (p & Hp & Hf).
  exists (reverse p). split.
  - rewrite <- reverse_app, <- Hp. by rewrite reverse_involutive.
  - by apply Forall_reverse.
Qed.

Lemma trimEnd_idem s : trimEnd (trimEnd s) = trimEnd s.
Proof. unfold trimEnd. by rewrite reverse_involutive, drop_spaces_idem. Qed.

Lemma trimEnd_length s : length (trimEnd s) <= length s.
Proof.
  destruct (trimEnd_spec s) as (p & Hp & _).
  rewrite Hp at 2. rewrite length_app. lia.
Qed.

(** A string whose last unit is not white space is its own [trimEnd]. *)
Lemma trimEnd_app_nonspace s c :
  is_js_space c = false -> trimEnd (s ++ [c]) = s ++ [c].
Proof.
  intros Hc. unfold trimEnd. rewrite reverse_snoc. simpl. rewrite Hc.
  by rewrite reverse_cons, reverse_involutive.
Qed.

Lemma split_on_go_word sep w s cur :
  sep ∉ w -> split_on_go sep (w ++ s) cur = split_on_go sep s (reverse w ++ cur).
Proof.
  revert cur. induction w as [|c w IH]; intros cur Hw; simpl; [done|].
  rewrite not_elem_of_cons in Hw. destruct Hw as [Hc Hw].
  destruct (N.eqb_spec c sep); [congruence|].
  rewrite IH by done. by rewrite reverse_cons, <- app_assoc.
Qed.

Lemma split_join sep (ws : list jsstr) :
  ws <> [] -> Forall (fun w => sep ∉ w) ws -> split_on sep (join [sep] ws) = ws.
Proof.
  unfold split_on. intros Hne Hws.
  induction Hws as [|w ws Hw Hws IH]; [done|].
  destruct ws as [|w' ws].
  - simpl. rewrite <- (app_nil_r w) at 1. rewrite split_on_go_word by done.
    simpl. by rewrite app_nil_r, reverse_involutive.
  - change (join [sep] (w :: w' :: ws)) with (w ++ [sep] ++ join [sep] (w' :: ws)).
    rewrite split_on_go_word by done. simpl. rewrite N.eqb_refl, app_nil_r.
    rewrite reverse_involutive. f_equal. by apply IH.
Qed.

(** C17.  Joining words that contain no separator and splitting the result on
    the separator gives the words back.  The list must be non-empty:
    joining no words gives the empty string, which splits into a list
    holding the empty string. *)
Theorem split_on_join sep (ws : list jsstr) :
  ws <> [] -> Forall (fun w => sep ∉ w) ws -> split_on sep (join [sep] ws) = ws.
Proof. exact (split_join sep ws). Qed.

(** A word the script can show: non-empty and free of white space. *)
Definition word_ok (w : jsstr) : Prop := w <> [] /\ Forall (fun c => is_js_space c = false) w.

Lemma join_ends_nonspace sep (ws : list jsstr) :
  ws <> [] -> Forall word_ok ws ->
  exists p c, join sep ws = p ++ [c] /\ is_js_space c = false.
Proof.
  intros Hne Hws. induction Hws as [|w ws [Hw Hsp] Hws IH]; [done|].
  destruct ws as [|w' ws].
  - destruct (exists_last Hw) as (p & c & ->). exists p, c. split; [done|].
    apply Forall_app in Hsp as [_ Hc]. by inversion Hc.
  - destruct IH as (p & c & Hj & Hc); [done|].
    exists (w ++ sep ++ p), c. split; [|done].
    change (join sep (w :: w' :: ws)) with (w ++ sep ++ join sep (w' :: ws)).
    rewrite Hj. by rewrite !app_assoc.
Qed.

(** The text of good words joined by spaces is non-empty and has no
    trailing white space: [trimEnd] leaves it as it is. *)
Lemma trimEnd_join (ws : list jsstr) :
  ws <> [] -> Forall word_ok ws ->
  join [SPACE] ws <> [] /\ trimEnd (join [SPACE] ws) = join [SPACE] ws.
Proof.
  intros Hne Hws. destruct (join_ends_nonspace [SPACE] ws Hne Hws) as (p & c & -> & Hc).
  split; [by destruct p|]. by apply trimEnd_app_nonspace.
Qed.

Lemma join_length_le (ws : list jsstr) k :
  Forall (fun w => length w <= k) ws ->
  length (join [SPACE] ws) <= length ws * (k + 1).
Proof.
  induction 1 as [|w ws Hw Hws IH]; [simpl; lia|].
  destruct ws as [|w' ws]; [simpl; lia|].
  change (join [SPACE] (w :: w' :: ws)) with (w ++ [SPACE] ++ join [SPACE] (w' :: ws)).
  rewrite !length_app. simpl in *. lia.
Qed.

Lemma Forall_join (P : N -> Prop) sep (ws : list jsstr) :
  Forall P sep -> Forall (Forall P) ws -> Forall P (join sep ws).
Proof.
  intros Hs. induction 1 as [|w ws Hw Hws IH]; [constructor|].
  destruct ws as [|w' ws]; [done|].
  change (join sep (w :: w' :: ws)) with (w ++ sep ++ join sep (w' :: ws)).
  rewrite !Forall_app. auto.
Qed.

#[export] Hint Resolve is_js_space_SPACE trimEnd_length : ft.

Lemma split_on_join_witness :
  [of_string "cat"; of_string "dog"] <> [] /\ Forall (fun w => SPACE ∉ w) [of_string "cat"; of_string "dog"]
  /\ split_on SPACE (join [SPACE] [of_string "cat"; of_string "dog"]) = [of_string "cat"; of_string "dog"].
Proof.
  assert (H1 : [of_string "cat"; of_string "dog"] <> []) by discriminate.
  assert (H2 : Forall (fun w => SPACE ∉ w) [of_string "cat"; of_string "dog"])
    by (refine (bool_decide_unpack _ _); vm_compute; reflexivity).
  split_and!; [exact H1 | exact H2 | exact (split_on_join SPACE _ H1 H2)].
Defined.
