(* ===== verification/NumFormat.v ===== *)
(** * Numbers shown to the user

    [finishTest] (lines 108-110) writes [elapsedSec.toFixed(2)],
    [Math.round(wpm)] (a Number, turned into a string by the
    [textContent] setter) and [accuracy.toFixed(1) + '%'].  This file
    models [Number.prototype.toFixed], [Math.round] and [ToString] of
    an integral Number on the exact rational a double denotes; [Double]
    applies them to the doubles the script computes.  [toFixed] rounds
    half up (of two nearest candidates it takes the larger), as the
    ECMAScript algorithm says. *)

From S2P Require Import Prelude JsString.
From Stdlib Require Import DecimalN.
Local Open Scope ft_scope.

(** ** Decimal digits *)

Fixpoint uint_units (d : Decimal.uint) : jsstr :=
  match d with
  | Decimal.Nil => []
  | Decimal.D0 d => 48%N :: uint_units d
  | Decimal.D1 d => 49%N :: uint_units d
  | Decimal.D2 d => 50%N :: uint_units d
  | Decimal.D3 d => 51%N :: uint_units d
  | Decimal.D4 d => 52%N :: uint_units d
  | Decimal.D5 d => 53%N :: uint_units d
  | Decimal.D6 d => 54%N :: uint_units d
  | Decimal.D7 d => 55%N :: uint_units d
  | Decimal.D8 d => 56%N :: uint_units d
  | Decimal.D9 d => 57%N :: uint_units d
  end.

(** The decimal digits of [n], without leading zeros ("0" for 0). *)
Definition digits (n : N) : jsstr := uint_units (N.to_uint n).

(** Reading decimal digits back (the inverse used by the round trip). *)
Fixpoint units_uint (s : jsstr) : option Decimal.uint :=
  match s with
  | [] => Some Decimal.Nil
  | c :: s' =>
      d ← units_uint s';
      match c with
      | 48 => Some (Decimal.D0 d) | 49 => Some (Decimal.D1 d)
      | 50 => Some (Decimal.D2 d) | 51 => Some (Decimal.D3 d)
      | 52 => Some (Decimal.D4 d) | 53 => Some (Decimal.D5 d)
      | 54 => Some (Decimal.D6 d) | 55 => Some (Decimal.D7 d)
      | 56 => Some (Decimal.D8 d) | 57 => Some (Decimal.D9 d)
      | _ => None
      end%N
  end.

Definition parse_digits (s : jsstr) : option N := N.of_uint <$> units_uint s.

(** ** [ToString] of an integral Number

    Below [10^21] the digits, with a minus sign for negative numbers;
    from [10^21] on the exponent form [d.ddde+n]. *)
Fixpoint strip_trailing_zeros_rev (s : jsstr) : jsstr :=
  match s with
  | 48%N :: s' => strip_trailing_zeros_rev s'
  | _ => s
  end.

Definition exponent_form (a : N) : jsstr :=
  let ds := digits a in
  let sig := reverse (strip_trailing_zeros_rev (reverse ds)) in
  let e := digits (N.of_nat (length ds - 1)) in
  match sig with
  | [d] => [d] ++ of_string "e+" ++ e
  | d :: rest => [d] ++ of_string "." ++ rest ++ of_string "e+" ++ e
  | [] => of_string "0"
  end.

Definition int_to_string (z : Z) : jsstr :=
  let sign := if (z <? 0)%Z then of_string "-" else [] in
  let a := Z.to_N (Z.abs z) in
  if (a <? 10 ^ 21)%N then sign ++ digits a else sign ++ exponent_form a.

(** ** [Math.round(x)]: the nearest integer, halves rounded up *)
Definition Math_round (x : Q) : Z := Qfloor (x + (1 # 2))%Q.

(** ** [x.toFixed(f)] *)

(** The digits of [n] with a point [f] places from the right, padded
    with leading zeros to at least [f + 1] digits. *)
Definition fixed_point (f : nat) (n : N) : jsstr :=
  let m := digits n in
  if decide (f = 0) then m
  else
    let m := replicate (S f - length m) 48%N ++ m in
    let k := length m in
    take (k - f) m ++ of_string "." ++ drop (k - f) m.

(** The digits of a non-negative [x]: [ToString(x)] from [10^21] on
    (where every double is an integer), else the integer [n] nearest to
    [x * 10^f], halves up, printed with [fixed_point]. *)
Definition toFixed_abs (f : nat) (x : Q) : jsstr :=
  if Qle_bool (inject_Z (10 ^ 21)) x then int_to_string (Qfloor x)
  else fixed_point f (Z.to_N (Qfloor (x * inject_Z (10 ^ Z.of_nat f) + (1 # 2))%Q)).

Definition toFixed (f : nat) (x : Q) : jsstr :=
  if Qle_bool 0 x then toFixed_abs f x
  else of_string "-" ++ toFixed_abs f (- x)%Q.

(** ** Reading printed numbers back

    Not part of the script: these readers say what a printed text means,
    for the round-trip theorems below.  [parse_int] reads an optional
    minus sign and decimal digits; [parse_fixed f] reads digits with a
    point followed by exactly [f] digits (no point when [f = 0]). *)
Definition parse_int (s : jsstr) : option Z :=
  match s with
  | 45%N :: s' => (fun n => Z.opp (Z.of_N n)) <$> parse_digits s'
  | _ => Z.of_N <$> parse_digits s
  end.

Definition parse_fixed (f : nat) (s : jsstr) : option N :=
  if decide (f = 0) then parse_digits s
  else match split_on 46%N s with
       | [a; b] => if decide (length b = f) then parse_digits (a ++ b) else None
       | _ => None
       end.

(** ** Lemmas *)

Lemma units_uint_uint_units d : units_uint (uint_units d) = Some d.
Proof. induction d; simpl; by rewrite ?IHd. Qed.

Lemma digits_read_back n : parse_digits (digits n) = Some n.
Proof.
  unfold parse_digits, digits. rewrite units_uint_uint_units. simpl.
  by rewrite DecimalN.Unsigned.of_to.
Qed.

(** Printing a natural number and reading the digits back gives it. *)
Theorem parse_digits_digits n : parse_digits (digits n) = Some n.
Proof. exact (digits_read_back n). Qed.

(** [toFixed] and [Math.round] depend on the value of a rational only,
    not on its representation: they can be rewritten with [==]. *)
#[export] Instance toFixed_proper f : Proper (Qeq ==> eq) (toFixed f).
Proof.
  assert (Habs : Proper (Qeq ==> eq) (toFixed_abs f)).
  { intros x y Hxy. unfold toFixed_abs.
    rewrite (Qleb_comp _ _ (Qeq_refl _) _ _ Hxy).
    destruct (Qle_bool _ y); f_equal; [by apply Qfloor_comp|].
    f_equal. apply Qfloor_comp. by rewrite Hxy. }
  intros x y Hxy. unfold toFixed.
  rewrite (Qleb_comp _ _ (Qeq_refl _) _ _ Hxy).
  destruct (Qle_bool 0 y); [by apply Habs|]. f_equal. apply Habs. by rewrite Hxy.
Qed.

#[export] Instance Math_round_proper : Proper (Qeq ==> eq) Math_round.
Proof. intros x y Hxy. unfold Math_round. by rewrite Hxy. Qed.

(** [Qfloor (y + 1/2)] is the integer nearest to [y], halves up. *)
Lemma floor_half_nearest (y : Q) :
  (inject_Z (Qfloor (y + (1 # 2))) - (1 # 2) <= y < inject_Z (Qfloor (y + (1 # 2))) + (1 # 2))%Q.
Proof.
  pose proof (Qfloor_le (y + (1 # 2))) as H1. pose proof (Qlt_floor (y + (1 # 2))) as H2.
  rewrite inject_Z_plus in H2. change (inject_Z 1) with 1%Q in H2.
  set (t := inject_Z (Qfloor (y + (1 # 2)))) in *. split; lra.
Qed.

Lemma Qfloor_nonneg (y : Q) : (0 <= y)%Q -> (0 <= Qfloor y)%Z.
Proof. intros H. change 0%Z with (Qfloor 0). by apply Qfloor_resp_le. Qed.

Lemma inject_Z_pow10_pos (k : Z) : (0 <= k)%Z -> (0 < inject_Z (10 ^ k))%Q.
Proof. intros Hk. unfold Qlt. simpl. pose proof (Z.pow_pos_nonneg 10 k ltac:(lia) Hk). lia. Qed.

(** C16.  For [0 <= x < 10^21], [x.toFixed(f)] prints the integer [n]
    nearest to [x * 10^f] (halves up) with a point [f] places from the
    right: the displayed value is within half a unit of the last place
    of [x]. *)
Theorem toFixed_nearest f x :
  (0 <= x < inject_Z (10 ^ 21))%Q ->
  exists n : N, toFixed f x = fixed_point f n /\
    (inject_Z (Z.of_N n) - (1 # 2) <= x * inject_Z (10 ^ Z.of_nat f)
       < inject_Z (Z.of_N n) + (1 # 2))%Q.
Proof.
  intros [Hx0 Hx1]. unfold toFixed. rewrite (proj2 (Qle_bool_iff 0 x) Hx0).
  unfold toFixed_abs. destruct (Qle_bool (inject_Z (10 ^ 21)) x) eqn:E.
  { apply Qle_bool_iff in E. lra. }
  set (y := (x * inject_Z (10 ^ Z.of_nat f))%Q).
  assert (Hy : (0 <= y + (1 # 2))%Q).
  { pose proof (inject_Z_pow10_pos (Z.of_nat f) ltac:(lia)).
    assert (0 <= y)%Q by (apply Qmult_le_0_compat; lra). lra. }
  exists (Z.to_N (Qfloor (y + (1 # 2)))). split; [done|].
  rewrite Z2N.id by (by apply Qfloor_nonneg). apply floor_half_nearest.
Qed.

Lemma toFixed_nearest_witness :
  (0 <= 1000 # 11 < inject_Z (10 ^ 21))%Q /\
  exists n : N, toFixed 1 (1000 # 11) = fixed_point 1 n /\
    (inject_Z (Z.of_N n) - (1 # 2) <= (1000 # 11) * inject_Z (10 ^ Z.of_nat 1)
       < inject_Z (Z.of_N n) + (1 # 2))%Q.
Proof.
  assert (H : (0 <= 1000 # 11 < inject_Z (10 ^ 21))%Q) by qdecide.
  split; [exact H | apply (toFixed_nearest 1 _ H)].
Defined.

(** Every unit [digits] prints is a decimal digit, and there is one at least. *)
Lemma uint_units_digit d : Forall (fun c => (48 <= c <= 57)%N) (uint_units d).
Proof. induction d; simpl; constructor; done || lia. Qed.

Lemma digits_cons n : exists c s, digits n = c :: s /\ (48 <= c <= 57)%N.
Proof.
  pose proof (uint_units_digit (N.to_uint n)) as Hd. fold (digits n) in Hd.
  destruct (digits n) as [|c s] eqn:E.
  - pose proof (digits_read_back n) as Hp. rewrite E in Hp. injection Hp as <-.
    discriminate E.
  - inversion Hd. by exists c, s.
Qed.

(** Leading zeros do not change the value read. *)
Lemma parse_digits_zeros k s : parse_digits (replicate k 48%N ++ s) = parse_digits s.
Proof.
  induction k as [|k IH]; [done|]. unfold parse_digits in *. simpl.
  destruct (units_uint (replicate k 48%N ++ s)) eqn:E; by rewrite <- IH.
Qed.

Lemma digits_no_point n : 46%N ∉ digits n.
Proof.
  intros Hin. pose proof (uint_units_digit (N.to_uint n)) as Hd.
  rewrite Forall_forall in Hd. specialize (Hd _ Hin). lia.
Qed.

Lemma parse_int_nosign c s : c <> 45%N -> parse_int (c :: s) = Z.of_N <$> parse_digits (c :: s).
Proof.
  intros Hc. unfold parse_int. destruct c as [|p]; [done|].
  repeat (destruct p as [p|p|]; try done).
Qed.

(** C26.  [ToString] of an integral Number below [10^21] in magnitude
    reads back as that integer: a minus sign for negative numbers, then
    the decimal digits of the magnitude. *)
Theorem int_to_string_roundtrip z :
  (Z.abs z < 10 ^ 21)%Z -> parse_int (int_to_string z) = Some z.
Proof.
  intros Hz. unfold int_to_string.
  rewrite (proj2 (N.ltb_lt _ _)) by (change (10 ^ 21)%N with (Z.to_N (10 ^ 21)); lia).
  destruct (Z.ltb_spec z 0) as [Hn|Hn].
  - change (of_string "-" ++ digits (Z.to_N (Z.abs z))) with (45%N :: digits (Z.to_N (Z.abs z))).
    unfold parse_int. rewrite digits_read_back. simpl. f_equal. lia.
  - simpl. destruct (digits_cons (Z.to_N (Z.abs z))) as (c & s & Hcs & Hc).
    rewrite Hcs.
    assert (Hpd : parse_digits (c :: s) = Some (Z.to_N (Z.abs z)))
      by (rewrite <- Hcs; apply digits_read_back).
    rewrite parse_int_nosign by lia. rewrite Hpd. simpl. f_equal. lia.
Qed.

(** [fixed_point f n] reads back as [n]. *)
Lemma fixed_point_roundtrip f n : parse_fixed f (fixed_point f n) = Some n.
Proof.
  unfold parse_fixed, fixed_point. case_decide as Hf; [apply digits_read_back|].
  set (m := replicate (S f - length (digits n)) 48%N ++ digits n).
  assert (Hm : f < length m) by (subst m; rewrite length_app, length_replicate; lia).
  assert (Hno : 46%N ∉ m).
  { subst m. rewrite elem_of_app. intros [Hr|Hr]; [|by apply (digits_no_point n)].
    apply elem_of_replicate in Hr. lia. }
  change (of_string ".") with [46%N].
  change (take (length m - f) m ++ [46%N] ++ drop (length m - f) m)
    with (join [46%N] [take (length m - f) m; drop (length m - f) m]).
  rewrite (split_join 46%N [take (length m - f) m; drop (length m - f) m]).
  2: discriminate.
  2: { constructor; [|constructor; [|constructor]]; intros Hin; apply Hno;
       rewrite <- (take_drop (length m - f) m), elem_of_app; auto. }
  rewrite decide_True by (rewrite length_drop; lia).
  rewrite take_drop. subst m. rewrite parse_digits_zeros. apply digits_read_back.
Qed.

(** [nzhead] leaves no leading zero. *)
Lemma nzhead_head d : match Decimal.nzhead d with Decimal.D0 _ => False | _ => True end.
Proof. induction d; simpl; auto. Qed.

(** The digits of [n] are ["0"] or start with a non-zero digit. *)
Lemma digits_canonical n : digits n = [48%N] \/ exists c s, digits n = c :: s /\ c <> 48%N.
Proof.
  unfold digits. pose proof (DecimalN.Unsigned.to_of (N.to_uint n)) as Hu.
  rewrite DecimalN.Unsigned.of_to in Hu. unfold Decimal.unorm in Hu.
  pose proof (nzhead_head (N.to_uint n)) as Hh.
  destruct (Decimal.nzhead (N.to_uint n)); rewrite Hu; try contradiction; [by left|..];
    right; eexists _, _; (split; [reflexivity | discriminate]).
Qed.

(** C27.  [x.toFixed(f)] with [f > 0] prints, for the integer [n] it
    has rounded [x * 10^f] to, an integer part, a point and exactly [f]
    fraction digits that read back as [n]; the integer part is ["0"] or
    has no leading zero, as step 10 of the ECMAScript algorithm gives
    (pad [n]'s digits with zeros to [f + 1] digits, then put the point
    [f] digits from the right). *)
Theorem fixed_point_canonical f n :
  0 < f ->
  exists a b, fixed_point f n = a ++ of_string "." ++ b /\ length b = f
    /\ parse_digits (a ++ b) = Some n
    /\ (a = [48%N] \/ exists c s, a = c :: s /\ c <> 48%N).
Proof.
  intros Hf. pose proof (fixed_point_roundtrip f n) as Hrt.
  unfold parse_fixed, fixed_point in *. rewrite !decide_False by lia. cbv zeta.
  set (m := replicate (S f - length (digits n)) 48%N ++ digits n) in *.
  assert (Hm : f < length m) by (subst m; rewrite length_app, length_replicate; lia).
  exists (take (length m - f) m), (drop (length m - f) m). split_and!; [done | rewrite length_drop; lia | |].
  - rewrite take_drop. subst m. rewrite parse_digits_zeros. apply digits_read_back.
  - subst m. destruct (S f - length (digits n)) as [|k] eqn:Ek.
    + cbn [replicate app]. destruct (digits_canonical n) as [Hd | (c & s & Hd & Hc)];
        rewrite Hd in *; [simpl in Ek; lia|].
      right. exists c, (take (length s - f) s). split; [|done].
      replace (length (c :: s) - f) with (S (length s - f)) by (simpl in *; lia). done.
    + left. rewrite length_app, length_replicate.
      replace (S k + length (digits n) - f) with 1 by lia. done.
Qed.

Lemma int_to_string_roundtrip_witness :
  (Z.abs (-42) < 10 ^ 21)%Z /\ parse_int (int_to_string (-42)) = Some (-42)%Z.
Proof. assert (H : (Z.abs (-42) < 10 ^ 21)%Z) by lia. exact (conj H (int_to_string_roundtrip _ H)). Defined.

Lemma fixed_point_canonical_witness :
  0 < 2 /\ exists a b, fixed_point 2 5 = a ++ of_string "." ++ b /\ length b = 2
    /\ parse_digits (a ++ b) = Some 5%N
    /\ (a = [48%N] \/ exists c s, a = c :: s /\ c <> 48%N).
Proof. split; [lia | apply (fixed_point_canonical 2 5); lia]. Defined.
