(* ===== verification/Double.v ===== *)
(** * JavaScript Numbers as binary64 doubles

    A JavaScript Number is an IEEE 754 binary64 double and every
    arithmetic operation rounds its exact result to the nearest double,
    ties to even.  The Standard Library's [SpecFloat] specifies this
    arithmetic ([SFsub], [SFmul], [SFdiv], [SFltb] with precision 53 and
    maximal exponent 1024); this file names the operations the script
    uses, the exact value of a double ([f64_value]), JavaScript's
    truthiness of a Number, and the texts [toFixed] and [Math.round]
    print for a double.  The lemmas are about signs (the results the
    script computes from non-negative inputs are never negative and
    never NaN) and about the exact results (an integer below [2^53]
    converts exactly, [x / x] is [1] for every positive finite [x]). *)

From Stdlib Require Import Floats.SpecFloat Qpower.
From S2P Require Import Prelude JsString NumFormat.
Local Open Scope ft_scope.

Abbreviation f64 := spec_float.

Definition prec : Z := 53.
Definition emax : Z := 1024.

(** [ToNumber] of an integer: the double nearest to it. *)
Definition f64_of_Z (z : Z) : f64 := binary_normalize prec emax z 0 false.

Definition f64_zero : f64 := S754_zero false.
Definition f64_sub (x y : f64) : f64 := SFsub prec emax x y.
Definition f64_mul (x y : f64) : f64 := SFmul prec emax x y.
Definition f64_div (x y : f64) : f64 := SFdiv prec emax x y.

(** [x < y]: false when either is NaN. *)
Definition f64_lt (x y : f64) : bool := SFltb x y.

(** The mathematical value of a finite double; [None] for the
    infinities and NaN. *)
Definition f64_value (x : f64) : option Q :=
  match x with
  | S754_zero _ => Some 0%Q
  | S754_finite s m e => Some ((if s then -1 else 1) * inject_Z (Zpos m) * Qpower 2 e)%Q
  | _ => None
  end.

(** [ToBoolean] of a Number: [+0], [-0] and NaN are falsy. *)
Definition f64_truthy (x : f64) : bool :=
  match x with
  | S754_zero _ | S754_nan => false
  | _ => true
  end.

(** A positive finite Number. *)
Definition f64_pos (x : f64) : Prop := exists m e, x = S754_finite false m e.

(** Not negative: a zero, a positive finite number or [+Infinity]. *)
Definition f64_nonneg (x : f64) : Prop :=
  match x with
  | S754_zero _ => True
  | S754_finite s _ _ | S754_infinity s => s = false
  | S754_nan => False
  end.

(** [x <= y] on finite doubles, by value. *)
Definition f64_le (x y : f64) : Prop :=
  match f64_value x, f64_value y with
  | Some a, Some b => (a <= b)%Q
  | _, _ => False
  end.

(** A double of the format: a finite one has a canonical mantissa of at
    most 53 bits and an exponent in range ([SpecFloat.valid_binary]). *)
Definition f64_valid (x : f64) : bool := valid_binary prec emax x.

(** What [Math.random()] returns: a double of the format in [[0, 1)]. *)
Definition f64_in_unit (x : f64) : Prop :=
  f64_valid x = true /\ exists q, f64_value x = Some q /\ (0 <= q < 1)%Q.

(** The same, decided. *)
Definition f64_in_unit_b (x : f64) : bool :=
  f64_valid x && match f64_value x with
                 | Some q => Qle_bool 0 q && negb (Qle_bool 1 q)
                 | None => false
                 end.

(** Whether [x] is a positive finite double of value [q] (decidable). *)
Definition f64_is_pos_value (x : f64) (q : Q) : bool :=
  match x with
  | S754_finite false m e => Qeq_bool (inject_Z (Zpos m) * Qpower 2 e) q
  | _ => false
  end.

(** [Number::toString] of a Number that is not finite. *)
Definition nonfinite_text (x : f64) : jsstr :=
  match x with
  | S754_infinity true => of_string "-Infinity"
  | S754_infinity false => of_string "Infinity"
  | _ => of_string "NaN"
  end.

(** [x.toFixed(f)] of a double: the digits of its exact value, or the
    [toString] of a non-finite value. *)
Definition toFixed64 (f : nat) (x : f64) : jsstr :=
  match f64_value x with
  | Some q => toFixed f q
  | None => nonfinite_text x
  end.

(** [String(Math.round(x))] of a double.  [Math.round] gives [-0] on
    [[-0.5, 0)], which [toString] prints as [0]. *)
Definition round_text64 (x : f64) : jsstr :=
  match f64_value x with
  | Some q => int_to_string (Math_round q)
  | None => nonfinite_text x
  end.

(** ** Signs *)

Lemma f64_pos_truthy x : f64_pos x -> f64_truthy x = true.
Proof. by intros (m & e & ->). Qed.

Lemma iter_pos_ind {A} (P : A -> Prop) (f : A -> A) p x :
  P x -> (forall y, P y -> P (f y)) -> P (SpecFloat.iter_pos f p x).
Proof. intros Hx Hf. revert x Hx. induction p; intros x Hx; simpl; auto. Qed.

Lemma shr_1_nonneg mrs : (0 <= shr_m mrs)%Z -> (0 <= shr_m (shr_1 mrs))%Z.
Proof. destruct mrs as [[|[p|p|]|p] r s]; simpl; lia. Qed.

Lemma shr_fexp_nonneg m e l : (0 <= m)%Z -> (0 <= shr_m (fst (shr_fexp prec emax m e l)))%Z.
Proof.
  intros Hm. unfold shr_fexp, shr.
  assert (H0 : (0 <= shr_m (shr_record_of_loc m l))%Z) by (destruct l as [|[]]; simpl; lia).
  destruct (_ - e)%Z; [done | | done]. apply iter_pos_ind; [done | apply shr_1_nonneg].
Qed.

Lemma round_nearest_even_nonneg m l : (0 <= m)%Z -> (0 <= round_nearest_even m l)%Z.
Proof. intros Hm. destruct l as [|[]]; simpl; try destruct (Z.even m); lia. Qed.

(** Rounding a non-negative mantissa with a positive sign gives a
    non-negative double. *)
Lemma binary_round_aux_nonneg m e l :
  (0 <= m)%Z -> f64_nonneg (binary_round_aux prec emax false m e l).
Proof.
  intros Hm. unfold binary_round_aux.
  pose proof (shr_fexp_nonneg m e l Hm) as H1.
  destruct (shr_fexp prec emax m e l) as [mrs' e'] eqn:E1. cbn [fst] in H1.
  pose proof (shr_fexp_nonneg (round_nearest_even (shr_m mrs') (loc_of_shr_record mrs')) e' loc_Exact
                (round_nearest_even_nonneg _ _ H1)) as H2.
  destruct (shr_fexp prec emax _ e' loc_Exact) as [mrs'' e''] eqn:E2. cbn [fst] in H2.
  destruct (shr_m mrs'') as [|p|p]; [done | | lia]. by destruct (_ <=? _)%Z.
Qed.

Lemma binary_normalize_nonneg m e : (0 <= m)%Z -> f64_nonneg (binary_normalize prec emax m e false).
Proof.
  intros Hm. destruct m as [|p|p]; [done | | lia]. unfold binary_normalize, binary_round.
  destruct (shl_align p e _). by apply binary_round_aux_nonneg.
Qed.

Lemma Pos_iter_xO (m d : positive) : Zpos (Pos.iter xO m d) = (Zpos m * 2 ^ Zpos d)%Z.
Proof.
  induction d as [|d IH] using Pos.peano_ind; [simpl; lia|].
  rewrite Pos.iter_succ, Pos2Z.inj_succ, Z.pow_succ_r by lia.
  change (Zpos (Pos.iter xO m d)~0) with (2 * Zpos (Pos.iter xO m d))%Z. rewrite IH. lia.
Qed.

(** Aligning a mantissa to a smaller exponent multiplies it by the power
    of two of the difference. *)
Lemma shl_align_value mx ex ez :
  (ez <= ex)%Z -> Zpos (fst (shl_align mx ex ez)) = (Zpos mx * 2 ^ (ex - ez))%Z.
Proof.
  intros H. unfold shl_align. destruct (ez - ex)%Z as [|d|d] eqn:E; cbn [fst].
  - replace (ex - ez)%Z with 0%Z by lia. lia.
  - lia.
  - rewrite Pos_iter_xO. f_equal. f_equal. lia.
Qed.

Lemma value_aligned (mx : positive) ex ez :
  (ez <= ex)%Z ->
  (inject_Z (Zpos mx) * Qpower 2 ex == inject_Z (Zpos mx * 2 ^ (ex - ez)) * Qpower 2 ez)%Q.
Proof.
  intros H. rewrite inject_Z_mult, Zpower_Qpower by lia.
  replace ex with ((ex - ez) + ez)%Z at 1 by lia.
  rewrite Qpower_plus by discriminate. change (inject_Z 2) with 2%Q. ring.
Qed.

(** The difference of two positive finite doubles, the first not
    smaller, is not negative. *)
Lemma f64_sub_nonneg x y : f64_pos x -> f64_pos y -> f64_le y x -> f64_nonneg (f64_sub x y).
Proof.
  intros (mx & ex & ->) (my & ey & ->). unfold f64_le, f64_value. intros Hle.
  unfold f64_sub, SFsub. cbn [cond_Zopp]. apply binary_normalize_nonneg.
  rewrite shl_align_value, shl_align_value by lia.
  set (ez := Z.min ex ey) in *.
  rewrite !Qmult_1_l, (value_aligned mx ex ez), (value_aligned my ey ez) in Hle by lia.
  apply Qmult_le_r in Hle; [| apply Qpower_0_lt; lra].
  rewrite <- Zle_Qle in Hle. lia.
Qed.

Lemma SFdiv_core_nonneg m1 e1 m2 e2 :
  (0 <= m1)%Z -> (0 < m2)%Z -> (0 <= fst (fst (SFdiv_core_binary prec emax m1 e1 m2 e2)))%Z.
Proof.
  intros H1 H2. unfold SFdiv_core_binary. cbv zeta.
  set (m' := match _ with Zpos _ => _ | Z0 => m1 | Zneg _ => 0%Z end).
  assert (Hm' : (0 <= m')%Z) by (subst m'; destruct (_ - _ - _)%Z; [lia | apply Z.shiftl_nonneg; lia | lia]).
  pose proof (Z_div_mod m' m2 ltac:(lia)) as Hd. destruct (Z.div_eucl m' m2) as [q r].
  cbn [fst]. destruct Hd as [-> Hr]. nia.
Qed.

(** A non-negative double divided by a positive finite one is not negative. *)
Lemma f64_div_nonneg_pos x y : f64_nonneg x -> f64_pos y -> f64_nonneg (f64_div x y).
Proof.
  intros Hx (my & ey & ->). destruct x as [sx|sx| |sx mx ex]; simpl in Hx; try done.
  - by subst sx.
  - subst sx. unfold f64_div, SFdiv.
    pose proof (SFdiv_core_nonneg (Zpos mx) ex (Zpos my) ey ltac:(lia) ltac:(lia)) as H.
    destruct (SFdiv_core_binary _ _ _ _ _ _) as [[mz ez] lz]. by apply binary_round_aux_nonneg.
Qed.

(** A positive finite double divided by a double greater than zero is not
    negative. *)
Lemma f64_div_pos_nonneg x y : f64_pos x -> f64_lt f64_zero y = true -> f64_nonneg (f64_div x y).
Proof.
  intros (mx & ex & ->) Hy. destruct y as [sy|sy| |sy my ey]; try done; destruct sy; try done.
  unfold f64_div, SFdiv.
  pose proof (SFdiv_core_nonneg (Zpos mx) ex (Zpos my) ey ltac:(lia) ltac:(lia)) as H.
  destruct (SFdiv_core_binary _ _ _ _ _ _) as [[mz ez] lz]. by apply binary_round_aux_nonneg.
Qed.

Lemma f64_is_pos_value_spec x q :
  f64_is_pos_value x q = true -> f64_pos x /\ exists a, f64_value x = Some a /\ (a == q)%Q.
Proof.
  destruct x as [sx|sx| |[] m e]; try discriminate. intros H. apply Qeq_bool_iff in H.
  split; [by exists m, e|]. eexists. split; [reflexivity|]. by rewrite Qmult_1_l.
Qed.

(** A positive finite double minus itself is [+0]. *)
Lemma f64_sub_self t : f64_pos t -> f64_sub t t = f64_zero.
Proof.
  intros (m & e & ->). unfold f64_sub, SFsub. cbn [cond_Zopp]. rewrite Z.sub_diag. reflexivity.
Qed.

(** ** Exact results

    An integer below [2^53] converts to a double without rounding, and a
    positive finite double divided by itself is exactly [1]: the
    quotient [m * 2^53 / m] is the power [2^53] with no remainder. *)

Lemma digits_bounds p :
  (2 ^ (Zpos (digits2_pos p) - 1) <= Zpos p < 2 ^ Zpos (digits2_pos p))%Z.
Proof.
  assert (Hs : digits2_pos p = Pos.size p) by (induction p; simpl; congruence).
  rewrite Hs. pose proof (Pos.size_le p) as H1. pose proof (Pos.size_gt p) as H2.
  apply Pos2Z.pos_le_pos in H1. apply Pos2Z.pos_lt_pos in H2.
  rewrite (Pos2Z.inj_xO p), Pos2Z.inj_pow in H1. rewrite Pos2Z.inj_pow in H2.
  split; [|lia].
  assert (E : (2 ^ Zpos (Pos.size p) = 2 * 2 ^ (Zpos (Pos.size p) - 1))%Z).
  { rewrite <- Z.pow_succ_r by lia. f_equal. lia. }
  lia.
Qed.

Lemma digits_eq p d :
  (1 <= d)%Z -> (2 ^ (d - 1) <= Zpos p < 2 ^ d)%Z -> Zpos (digits2_pos p) = d.
Proof.
  intros Hd Hb. pose proof (digits_bounds p) as Hb'.
  assert (L1 : Z.log2 (Zpos p) = (d - 1)%Z)
    by (apply Z.log2_unique; [lia|]; unfold Z.succ; replace (d - 1 + 1)%Z with d by lia; lia).
  assert (L2 : Z.log2 (Zpos p) = (Zpos (digits2_pos p) - 1)%Z)
    by (apply Z.log2_unique; [lia|]; unfold Z.succ;
        replace (Zpos (digits2_pos p) - 1 + 1)%Z with (Zpos (digits2_pos p)) by lia; lia).
  lia.
Qed.

Lemma shl_align_snd mx ex ez : (ez <= ex)%Z -> snd (shl_align mx ex ez) = ez.
Proof. intros H. unfold shl_align. destruct (ez - ex)%Z eqn:E; simpl; lia. Qed.

Lemma f64_of_Z_exact (p : positive) :
  (Zpos p < 2 ^ 53)%Z ->
  exists m e, f64_of_Z (Zpos p) = S754_finite false m e
    /\ (inject_Z (Zpos m) * Qpower 2 e == inject_Z (Zpos p))%Q.
Proof.
  intros Hp. pose proof (digits_bounds p) as Hd. set (d := Zpos (digits2_pos p)) in *.
  assert (Hd53 : (d <= 53)%Z).
  { destruct (Z.le_gt_cases d 53) as [|Hgt]; [done|].
    assert (2 ^ 53 <= 2 ^ (d - 1))%Z by (apply Z.pow_le_mono_r; lia). lia. }
  assert (Hd1 : (1 <= d)%Z) by lia.
  unfold f64_of_Z, binary_normalize, binary_round.
  replace (fexp prec emax (Zpos (digits2_pos p) + 0)) with (d - 53)%Z
    by (unfold fexp, emin, prec, emax; fold d; lia).
  pose proof (shl_align_value p 0 (d - 53) ltac:(lia)) as Hmz.
  pose proof (shl_align_snd p 0 (d - 53) ltac:(lia)) as Hez.
  destruct (shl_align p 0 (d - 53)) as [mz ez]. cbn [fst snd] in Hmz, Hez. subst ez.
  replace (0 - (d - 53))%Z with (53 - d)%Z in Hmz by lia.
  assert (Hdm : Zpos (digits2_pos mz) = 53%Z).
  { apply digits_eq; [lia|]. rewrite Hmz. split.
    - replace (53 - 1)%Z with ((d - 1) + (53 - d))%Z by lia. rewrite Z.pow_add_r by lia. nia.
    - replace 53%Z with (d + (53 - d))%Z at 2 by lia. rewrite Z.pow_add_r by lia.
      assert (0 < 2 ^ (53 - d))%Z by (apply Z.pow_pos_nonneg; lia). nia. }
  unfold binary_round_aux, shr_fexp, Zdigits2. rewrite Hdm.
  replace (fexp prec emax (53 + (d - 53)) - (d - 53))%Z with 0%Z by (unfold fexp, emin, prec, emax; lia).
  cbn -[Z.leb]. rewrite Hdm.
  replace (fexp prec emax (53 + (d - 53)) - (d - 53))%Z with 0%Z by (unfold fexp, emin, prec, emax; lia).
  cbn -[Z.leb]. rewrite (proj2 (Z.leb_le _ _)) by (unfold emax, prec; lia).
  exists mz, (d - 53)%Z. split; [done|].
  rewrite Hmz, inject_Z_mult, Zpower_Qpower by lia. change (inject_Z 2) with 2%Q.
  rewrite <- Qmult_assoc, <- Qpower_plus by discriminate. replace (53 - d + (d - 53))%Z with 0%Z by lia.
  simpl. ring.
Qed.

Lemma div_eucl_mul (a b : Z) : (0 < b)%Z -> Z.div_eucl (a * b) b = (a, 0%Z).
Proof.
  intros Hb. assert (E : Z.div_eucl (a * b) b = ((a * b) / b, (a * b) mod b)%Z)
    by (unfold Z.div, Z.modulo; by destruct (Z.div_eucl (a * b) b)).
  rewrite E, Z.div_mul, Z.mod_mul by lia. done.
Qed.

(** A positive finite double divided by itself is exactly [1]. *)
Lemma f64_div_self m e : f64_div (S754_finite false m e) (S754_finite false m e) = f64_of_Z 1.
Proof.
  unfold f64_div, SFdiv, SFdiv_core_binary. cbv zeta.
  replace (Z.min (fexp prec emax (Zdigits2 (Zpos m) + e - (Zdigits2 (Zpos m) + e))) (e - e))
    with (-53)%Z by (unfold fexp, emin, prec, emax; lia).
  replace (e - e - -53)%Z with 53%Z by lia.
  rewrite Z.shiftl_mul_pow2, Z.mul_comm, div_eucl_mul by lia.
  assert (Hl : new_location (Zpos m) 0 = loc_Exact) by (unfold new_location; by destruct (Z.even _)).
  rewrite Hl. vm_compute. reflexivity.
Qed.

Lemma f64_in_unit_b_spec x : f64_in_unit_b x = true -> f64_in_unit x.
Proof.
  unfold f64_in_unit_b. intros H. apply andb_prop in H as [Hv H]. split; [done|].
  destruct (f64_value x) as [q|]; [|done]. apply andb_prop in H as [H1 H2].
  apply negb_true_iff in H2. exists q. split; [done|]. split.
  - by apply Qle_bool_iff.
  - apply Qnot_le_lt. intros H. apply Qle_bool_iff in H. congruence.
Qed.
