(* ===== verification/Rounding.v ===== *)
(** * Rounding to the nearest double

    [SpecFloat]'s [binary_round_aux] shifts the exact mantissa right to
    the exponent of the format, rounds to nearest even on the round and
    sticky bits the shift leaves, and renormalises a carry.  This file
    characterises the result on a positive exact value [M * 2^e]: it is
    [m'' * 2^e'], where [e'] is the exponent of the format at that
    magnitude and [m''] is the truncation of [M / 2^(e'-e)] or one more,
    at most half a unit of [2^e'] above the exact value
    ([binary_round_aux_value]).  Its application is the product of
    [Math.random()] and a length: for a double [r] in [[0, 1)] and an
    integer [1 <= n < 2^53], [r * n] is a double in [[0, n)] whose floor
    is that of the exact product or one more ([f64_mul_unit_int]). *)

From Stdlib Require Import Floats.SpecFloat Qpower.
From S2P Require Import Prelude JsString NumFormat Double.
Local Open Scope ft_scope.

(** ** Shifting right *)

Lemma iter_pos_nat {A} (f : A -> A) p x : SpecFloat.iter_pos f p x = Nat.iter (Pos.to_nat p) f x.
Proof.
  revert x. induction p as [p IH|p IH|]; intros x; cbn [SpecFloat.iter_pos].
  - rewrite Pos2Nat.inj_xI. rewrite IH, IH, <- Nat.iter_add.
    rewrite <- Nat.iter_succ_r. f_equal. lia.
  - rewrite Pos2Nat.inj_xO, IH, IH, <- Nat.iter_add. f_equal. lia.
  - done.
Qed.

Lemma shr_1_spec m r s :
  (0 <= m)%Z -> shr_m (shr_1 (Build_shr_record m r s)) = (m / 2)%Z
  /\ shr_r (shr_1 (Build_shr_record m r s)) = Z.odd m.
Proof.
  intros Hm. destruct m as [|[p|p|]|p]; simpl; try lia; split; try done.
  - rewrite Pos2Z.inj_xI. rewrite Z.mul_comm, Z.div_add_l by lia. done.
  - rewrite Pos2Z.inj_xO. rewrite Z.mul_comm, Z.div_mul by lia. done.
Qed.

Lemma shr_iter_spec k m r s :
  (0 <= m)%Z ->
  shr_m (Nat.iter k shr_1 (Build_shr_record m r s)) = (m / 2 ^ Z.of_nat k)%Z
  /\ (0 < k -> shr_r (Nat.iter k shr_1 (Build_shr_record m r s)) = Z.odd (m / 2 ^ (Z.of_nat k - 1))).
Proof.
  intros Hm. induction k as [|k [IHm IHr]]; [simpl; split; [by rewrite Z.div_1_r | lia]|].
  rewrite Nat.iter_succ. destruct (Nat.iter k shr_1 _) as [m' r' s'] eqn:E. cbn [shr_m shr_r] in *.
  assert (Hm' : (0 <= m')%Z) by (rewrite IHm; apply Z.div_pos; [lia | apply Z.pow_pos_nonneg; lia]).
  destruct (shr_1_spec m' r' s' Hm') as [H1 H2]. rewrite H1, H2, IHm. split.
  - rewrite Z.div_div by (try apply Z.pow_pos_nonneg; lia). f_equal.
    rewrite Nat2Z.inj_succ, Z.pow_succ_r by lia. lia.
  - intros _. do 3 f_equal. lia.
Qed.

(** The round bit set means the dropped part is at least a half. *)
Lemma half_bit M s :
  (0 <= M)%Z -> (0 < s)%Z -> Z.odd (M / 2 ^ (s - 1)) = true -> (M / 2 ^ s * 2 ^ s + 2 ^ (s - 1) <= M)%Z.
Proof.
  intros HM Hs Ho. set (q := (M / 2 ^ (s - 1))%Z) in *.
  assert (Hp : (0 < 2 ^ (s - 1))%Z) by (apply Z.pow_pos_nonneg; lia).
  assert (E2 : (2 ^ s = 2 ^ (s - 1) * 2)%Z) by (rewrite Z.mul_comm, <- Z.pow_succ_r by lia; f_equal; lia).
  assert (Eq : (M / 2 ^ s = q / 2)%Z) by (subst q; rewrite E2, Z.div_div by lia; done).
  assert (Hq : q = (2 * (q / 2) + 1)%Z).
  { pose proof (Z.div2_odd q) as H. rewrite Ho, Z.div2_div in H. exact H. }
  assert (HM' : (2 ^ (s - 1) * q <= M)%Z) by (subst q; apply Z.mul_div_le; lia).
  rewrite Eq, E2. nia.
Qed.

Lemma rne_bounds mrs :
  (shr_m mrs <= round_nearest_even (shr_m mrs) (loc_of_shr_record mrs)
     <= shr_m mrs + if shr_r mrs then 1 else 0)%Z.
Proof. destruct mrs as [m [] []]; cbn; try destruct (Z.even m); lia. Qed.

(** The first stage: shifting [M] right by [p] bits and rounding to
    nearest even gives [m''] with [M / 2^p <= m''] and
    [m'' * 2^p <= M + 2^(p-1)]. *)
Lemma stage1 (M : Z) (p : positive) :
  (0 <= M)%Z ->
  let mrs := SpecFloat.iter_pos shr_1 p (Build_shr_record M false false) in
  let m'' := round_nearest_even (shr_m mrs) (loc_of_shr_record mrs) in
  (M / 2 ^ Zpos p <= m'' <= M / 2 ^ Zpos p + 1)%Z /\ (m'' * 2 ^ Zpos p <= M + 2 ^ (Zpos p - 1))%Z.
Proof.
  intros HM. cbv zeta. rewrite iter_pos_nat.
  destruct (shr_iter_spec (Pos.to_nat p) M false false HM) as [Hm Hr].
  rewrite positive_nat_Z in Hm, Hr.
  set (mrs := Nat.iter _ _ _) in *. set (m'' := round_nearest_even _ _).
  pose proof (rne_bounds mrs) as Hb. fold m'' in Hb. rewrite Hm in Hb.
  assert (Hp : (0 < 2 ^ Zpos p)%Z) by (apply Z.pow_pos_nonneg; lia).
  pose proof (Z.mul_div_le M (2 ^ Zpos p) Hp) as Hd.
  assert (E2 : (2 ^ Zpos p = 2 * 2 ^ (Zpos p - 1))%Z) by (rewrite <- Z.pow_succ_r by lia; f_equal; lia).
  destruct (shr_r mrs) eqn:Er.
  - pose proof (eq_sym (Hr ltac:(lia))) as Ho.
    pose proof (half_bit M (Zpos p) HM ltac:(lia) Ho). split; [lia | nia].
  - split; [lia|]. assert (0 <= 2 ^ (Zpos p - 1))%Z by (apply Z.pow_nonneg; lia). nia.
Qed.

Lemma digits_le (q : positive) k : (0 <= k)%Z -> (Zpos q <= 2 ^ k)%Z -> (Zpos (digits2_pos q) <= k + 1)%Z.
Proof.
  intros Hk Hq. pose proof (digits_bounds q) as [Hb _].
  destruct (Z.le_gt_cases (Zpos (digits2_pos q)) (k + 1)) as [|Hgt]; [done|].
  assert (2 ^ (k + 1) <= 2 ^ (Zpos (digits2_pos q) - 1))%Z by (apply Z.pow_le_mono_r; lia).
  rewrite Z.pow_add_r in H by lia. lia.
Qed.

(** The second stage: a rounded mantissa of at most [2^53] is renormalised
    without loss: the shift is [0], or [1] on [2^53]. *)
Definition round_final (m e : Z) : f64 :=
  let '(mrs'', e'') := shr_fexp prec emax m e loc_Exact in
  match shr_m mrs'' with
  | Z0 => S754_zero false
  | Zpos m => if Z.leb e'' (Z.sub emax prec) then S754_finite false m e'' else S754_infinity false
  | Zneg _ => S754_nan
  end.

Lemma binary_round_aux_split mx ex lx :
  binary_round_aux prec emax false mx ex lx
  = let '(mrs', e') := shr_fexp prec emax mx ex lx in
    round_final (round_nearest_even (shr_m mrs') (loc_of_shr_record mrs')) e'.
Proof. reflexivity. Qed.

Lemma stage2 (m e : Z) :
  (0 <= m <= 2 ^ 53)%Z -> (SpecFloat.emin prec emax <= e)%Z -> (e + 1 <= emax - prec)%Z ->
  exists v, f64_value (round_final m e) = Some v /\ (v == inject_Z m * Qpower 2 e)%Q.
Proof.
  intros Hm He He'. unfold round_final, shr_fexp. cbn [shr_record_of_loc].
  destruct m as [|q|q]; [| | lia].
  - cbn [Zdigits2]. remember (fexp prec emax (0 + e) - e)%Z as j eqn:Ej.
    destruct j as [|pj|pj]; [| unfold fexp, SpecFloat.emin, prec, emax in *; lia |];
      cbn; eexists; split; try reflexivity; simpl; ring.
  - cbn [Zdigits2]. pose proof (digits_le q 53 ltac:(lia) ltac:(lia)) as Hd.
    remember (fexp prec emax (Zpos (digits2_pos q) + e) - e)%Z as j eqn:Ej.
    destruct j as [|pj|pj]; cbn [shr shr_m].
    + rewrite (proj2 (Z.leb_le _ _)) by lia. eexists. split; [reflexivity|]. simpl; ring.
    + assert (Hpj : pj = 1%positive) by (unfold fexp, SpecFloat.emin, prec, emax in *; lia). subst pj.
      assert (Hq : q = 9007199254740992%positive).
      { pose proof (digits_bounds q) as [Hb _]. unfold fexp, SpecFloat.emin, prec, emax in *.
        assert (Zpos (digits2_pos q) = 54)%Z by lia. rewrite H in Hb. simpl in Hb. lia. }
      subst q. cbn. rewrite (proj2 (Z.leb_le _ _)) by lia. eexists. split; [reflexivity|].
      rewrite Qpower_plus by discriminate. simpl. ring.
    + rewrite (proj2 (Z.leb_le _ _)) by lia. eexists. split; [reflexivity|]. simpl; ring.
Qed.

(** Rounding [M * 2^e] to a double: the result is [m'' * 2^e'] with [e']
    the exponent of the format at that magnitude, [m''] between the
    truncation of [M / 2^(e'-e)] and that plus one, and at most half a
    unit of [2^e'] above [M * 2^e]. *)
Lemma binary_round_aux_value (M : positive) e :
  let e' := Z.max e (fexp prec emax (Zpos (digits2_pos M) + e)) in
  (e' + 1 <= emax - prec)%Z ->
  exists m'' v, (Zpos M / 2 ^ (e' - e) <= m'' <= Zpos M / 2 ^ (e' - e) + 1)%Z
    /\ (m'' * 2 ^ (e' - e) <= Zpos M + 2 ^ (e' - e - 1))%Z
    /\ f64_value (binary_round_aux prec emax false (Zpos M) e loc_Exact) = Some v
    /\ (v == inject_Z m'' * Qpower 2 e')%Q.
Proof.
  intros e' He'. rewrite binary_round_aux_split. unfold shr_fexp. cbn [shr_record_of_loc Zdigits2].
  pose proof (digits_bounds M) as [_ HM].
  remember (fexp prec emax (Zpos (digits2_pos M) + e) - e)%Z as s eqn:Es.
  assert (He1 : (SpecFloat.emin prec emax <= e' /\ e' = e + Z.max 0 s)%Z)
    by (subst e'; unfold fexp in *; lia).
  destruct s as [|p|p]; cbn [shr].
  1, 3: assert (Hd : (Zpos (digits2_pos M) <= 53)%Z) by (unfold fexp, prec, emax in *; lia);
    assert (HM53 : (Zpos M <= 2 ^ 53)%Z)
      by (assert (2 ^ Zpos (digits2_pos M) <= 2 ^ 53)%Z by (apply Z.pow_le_mono_r; lia); lia);
    destruct (stage2 (Zpos M) e ltac:(lia) ltac:(lia) ltac:(lia)) as (v & Hv & Heq);
    exists (Zpos M), v; replace (e' - e)%Z with 0%Z by lia; cbn [loc_of_shr_record round_nearest_even shr_m];
    rewrite Z.div_1_r; split_and!; [lia | lia | lia | exact Hv | by replace e' with e by lia].
  pose proof (stage1 (Zpos M) p ltac:(lia)) as (Hb & Hu). cbv zeta in Hb, Hu.
  set (m'' := round_nearest_even _ _) in *.
  assert (Hp53 : (Zpos M < 2 ^ Zpos p * 2 ^ 53)%Z).
  { rewrite <- Z.pow_add_r by lia.
    assert (2 ^ Zpos (digits2_pos M) <= 2 ^ (Zpos p + 53))%Z
      by (apply Z.pow_le_mono_r; [lia | unfold fexp, prec, emax in *; lia]). lia. }
  assert (Hq : (Zpos M / 2 ^ Zpos p < 2 ^ 53)%Z)
    by (apply Z.div_lt_upper_bound; [apply Z.pow_pos_nonneg; lia | lia]).
  assert (Hq0 : (0 <= Zpos M / 2 ^ Zpos p)%Z) by (apply Z.div_pos; [lia | apply Z.pow_pos_nonneg; lia]).
  destruct (stage2 m'' (e + Zpos p) ltac:(lia) ltac:(lia) ltac:(lia)) as (v & Hv & Heq).
  exists m'', v. replace (e' - e)%Z with (Zpos p) by lia. split_and!; [lia | lia | lia | exact Hv |].
  by replace e' with (e + Zpos p)%Z by lia.
Qed.

Lemma P2_Z (k : Z) : (0 <= k)%Z -> (inject_Z (2 ^ k) == Qpower 2 k)%Q.
Proof. intros Hk. rewrite Zpower_Qpower by done. reflexivity. Qed.

Lemma P2_shift (z k e : Z) : (0 <= k)%Z ->
  (inject_Z (z * 2 ^ k) * Qpower 2 e == inject_Z z * Qpower 2 (k + e))%Q.
Proof.
  intros Hk. rewrite inject_Z_mult, P2_Z, Qpower_plus by (done || discriminate). ring.
Qed.

Lemma P2_pos k : (0 < Qpower 2 k)%Q.
Proof. apply Qpower_0_lt. lra. Qed.

Lemma P2_le k l : (k <= l)%Z -> (Qpower 2 k <= Qpower 2 l)%Q.
Proof. intros H. apply Qpower_le_compat_l; [done | lra]. Qed.

Lemma tiny_lt_sq : (Qpower 2 (SpecFloat.emin prec emax - 1) < Qpower 2 (-53) * Qpower 2 (-53))%Q.
Proof. rewrite <- Qpower_plus by discriminate. apply Qpower_lt_compat_l; [unfold SpecFloat.emin, prec, emax; lia | lra]. Qed.

(** A double below [2^53] has [digits + e <= 53]. *)
Lemma digits_exp_bound (M : positive) e (n : Z) :
  (n <= 2 ^ 53)%Z -> (inject_Z (Zpos M) * Qpower 2 e < inject_Z n)%Q ->
  (Zpos (digits2_pos M) + e <= 53)%Z.
Proof.
  intros Hn Hx. pose proof (digits_bounds M) as [Hb _].
  assert (H1 : (Qpower 2 (Zpos (digits2_pos M) - 1 + e) <= inject_Z (Zpos M) * Qpower 2 e)%Q).
  { rewrite Qpower_plus by discriminate. apply Qmult_le_compat_r; [|apply Qlt_le_weak, P2_pos].
    rewrite <- P2_Z by lia. by rewrite <- Zle_Qle. }
  assert (H2 : (inject_Z n <= Qpower 2 53)%Q) by (rewrite <- P2_Z by lia; by rewrite <- Zle_Qle).
  assert (H3 : (Qpower 2 (Zpos (digits2_pos M) - 1 + e) < Qpower 2 53)%Q) by lra.
  apply Qpower_lt_compat_l_inv in H3; [lia | lra].
Qed.

(** The floor of [x] is at most any [m * 2^e'] with [e' <= 0] whose
    mantissa bounds [x / 2^e'] from below by truncation. *)
Lemma floor_le_trunc (M : positive) e e' m :
  (e < e')%Z -> (e' <= 0)%Z -> (Zpos M / 2 ^ (e' - e) <= m)%Z ->
  (inject_Z (Qfloor (inject_Z (Zpos M) * Qpower 2 e)) <= inject_Z m * Qpower 2 e')%Q.
Proof.
  intros He He' Hm. set (k := Qfloor _).
  assert (Hk : (inject_Z k <= inject_Z (Zpos M) * Qpower 2 e)%Q) by apply Qfloor_le.
  assert (HK : (k * 2 ^ (- e') * 2 ^ (e' - e) <= Zpos M)%Z).
  { rewrite Zle_Qle, !inject_Z_mult, !P2_Z by lia.
    apply (Qmult_le_r _ _ (Qpower 2 e)); [apply P2_pos|].
    rewrite <- !Qmult_assoc, <- !Qpower_plus by discriminate.
    replace (- e' + (e' - e + e))%Z with 0%Z by lia. simpl. lra. }
  assert (HK' : (k * 2 ^ (- e') <= m)%Z).
  { transitivity (Zpos M / 2 ^ (e' - e))%Z; [|done].
    apply Z.div_le_lower_bound; [apply Z.pow_pos_nonneg; lia | lia]. }
  rewrite Zle_Qle, inject_Z_mult, P2_Z in HK' by lia.
  apply (Qmult_le_r _ _ (Qpower 2 e')) in HK'; [|apply P2_pos].
  rewrite <- Qmult_assoc, <- Qpower_plus in HK' by discriminate.
  replace (- e' + e')%Z with 0%Z in HK' by lia. simpl in HK'. lra.
Qed.

(** Rounding a product [x = M * 2^e] with [x <= n (1 - 2^-53)], [n] an
    integer from [1] to [2^53]: the double is below [n], and its floor is
    the floor of [x] or one more. *)
Lemma round_unit_product (M : positive) e (n : Z) :
  (1 <= n <= 2 ^ 53)%Z ->
  (inject_Z (Zpos M) * Qpower 2 e <= inject_Z n * (1 - Qpower 2 (-53)))%Q ->
  exists v, f64_value (binary_round_aux prec emax false (Zpos M) e loc_Exact) = Some v
    /\ (0 <= v < inject_Z n)%Q
    /\ (Qfloor (inject_Z (Zpos M) * Qpower 2 e) <= Qfloor v <= Qfloor (inject_Z (Zpos M) * Qpower 2 e) + 1)%Z.
Proof.
  intros Hn Hx. set (x := (inject_Z (Zpos M) * Qpower 2 e)%Q) in *.
  pose proof (P2_pos (-53)) as Ha. set (a := Qpower 2 (-53)) in *.
  assert (Hn1 : (1 <= inject_Z n)%Q) by (change 1%Q with (inject_Z 1); rewrite <- Zle_Qle; lia).
  assert (Hxn : (x < inject_Z n)%Q) by nra.
  assert (Hx0 : (0 <= x)%Q) by (subst x; apply Qmult_le_0_compat; [change 0%Q with (inject_Z 0); rewrite <- Zle_Qle; lia | apply Qlt_le_weak, P2_pos]).
  pose proof (digits_exp_bound M e n ltac:(lia) Hxn) as Hde.
  pose proof (digits_bounds M) as [HbM _].
  destruct (binary_round_aux_value M e) as (m'' & v & Hb & Hu & Hv & Heq);
    [unfold fexp, SpecFloat.emin, prec, emax in *; lia|].
  set (e' := Z.max e (fexp prec emax (Zpos (digits2_pos M) + e))) in *.
  exists v. split; [exact Hv|].
  destruct (Z.eq_dec e' e) as [Ee|Ne].
  - (* no rounding: the value is [x] *)
    rewrite Ee, Z.sub_diag, Z.div_1_r in Hb. rewrite Ee in Heq. rewrite Ee, Z.sub_diag in Hu.
    change (2 ^ 0)%Z with 1%Z in Hu. change (2 ^ (0 - 1))%Z with 0%Z in Hu.
    replace m'' with (Zpos M) in Heq by lia. fold x in Heq.
    rewrite (Qfloor_comp _ _ Heq). split; [| lia]. split; [rewrite Heq; lra | rewrite Heq; nra].
  - assert (He' : (e < e' <= 0)%Z /\ (e' = Zpos (digits2_pos M) + e - 53 \/ e' = SpecFloat.emin prec emax)%Z)
      by (subst e'; unfold fexp, SpecFloat.emin, prec, emax in *; lia).
    (* [v <= x + 2^(e'-1)] *)
    assert (Hup : (v <= x + Qpower 2 (e' - 1))%Q).
    { rewrite Heq. subst x.
      assert (H : (inject_Z (m'' * 2 ^ (e' - e)) <= inject_Z (Zpos M + 2 ^ (e' - e - 1)))%Q)
        by (by rewrite <- Zle_Qle).
      apply (Qmult_le_r _ _ (Qpower 2 e)) in H; [|apply P2_pos].
      rewrite P2_shift in H by lia. rewrite inject_Z_plus, Qmult_plus_distr_l, P2_Z in H by lia.
      rewrite <- Qpower_plus in H by discriminate.
      by replace (e' - e + e)%Z with e' in H by lia; replace (e' - e - 1 + e)%Z with (e' - 1)%Z in H by lia. }
    assert (Hlo : (inject_Z (Qfloor x) <= v)%Q)
      by (rewrite Heq; apply (floor_le_trunc M e e' m''); lia).
    assert (Hhalf : (Qpower 2 (e' - 1) <= 1 # 2)%Q)
      by (change (1 # 2)%Q with (Qpower 2 (-1)); apply P2_le; lia).
    assert (Hm0 : (0 <= m'')%Z).
    { assert (0 < 2 ^ (e' - e))%Z by (apply Z.pow_pos_nonneg; lia).
      pose proof (Z.div_pos (Zpos M) (2 ^ (e' - e))). lia. }
    assert (Hv0 : (0 <= v)%Q).
    { rewrite Heq. apply Qmult_le_0_compat;
        [change 0%Q with (inject_Z 0); rewrite <- Zle_Qle; lia | apply Qlt_le_weak, P2_pos]. }
    assert (Hsmall : (Qpower 2 (e' - 1) <= x * a + Qpower 2 (SpecFloat.emin prec emax - 1))%Q).
    { destruct He' as [_ [Hn' | Hs']].
      - assert (Qpower 2 (e' - 1) <= x * a)%Q; [|pose proof (P2_pos (SpecFloat.emin prec emax - 1)); lra].
        subst x a. rewrite Hn'. replace (Zpos (digits2_pos M) + e - 53 - 1)%Z
          with ((Zpos (digits2_pos M) - 1) + e + -53)%Z by lia.
        rewrite !Qpower_plus by discriminate. apply Qmult_le_compat_r; [|apply Qlt_le_weak, P2_pos].
        apply Qmult_le_compat_r; [|apply Qlt_le_weak, P2_pos]. rewrite <- P2_Z by lia. by rewrite <- Zle_Qle.
      - rewrite Hs'. assert (0 <= x * a)%Q by nra. lra. }
    pose proof tiny_lt_sq. fold a in H.
    split; [split; [done | nra]|].
    pose proof (Qfloor_le x) as Hf1. pose proof (Qlt_floor x) as Hf2.
    rewrite inject_Z_plus in Hf2. change (inject_Z 1) with 1%Q in Hf2.
    split.
    + pose proof (Qfloor_resp_le _ _ Hlo) as H'. by rewrite Qfloor_Z in H'.
    + assert (Hlt : (v < inject_Z (Qfloor x + 2))%Q) by (rewrite inject_Z_plus; change (inject_Z 2) with 2%Q; lra).
      assert (Qfloor v < Qfloor x + 2)%Z; [|lia].
      rewrite Zlt_Qlt. pose proof (Qfloor_le v). lra.
Qed.

Lemma f64_valid_mantissa s m e : f64_valid (S754_finite s m e) = true -> (Zpos m < 2 ^ 53)%Z.
Proof.
  unfold f64_valid, valid_binary, bounded, canonical_mantissa. intros H.
  apply andb_prop in H as [H _]. apply Z.eqb_eq in H. pose proof (digits_bounds m) as [_ Hb].
  assert (Zpos (digits2_pos m) <= 53)%Z by (unfold fexp, SpecFloat.emin, prec, emax in H; lia).
  assert (2 ^ Zpos (digits2_pos m) <= 2 ^ 53)%Z by (apply Z.pow_le_mono_r; lia). lia.
Qed.

(** A double below [1] is at most [1 - 2^-53]. *)
Lemma unit_mantissa_le (m : positive) e :
  (Zpos m < 2 ^ 53)%Z -> (inject_Z (Zpos m) * Qpower 2 e < 1)%Q ->
  (inject_Z (Zpos m) * Qpower 2 e <= 1 - Qpower 2 (-53))%Q.
Proof.
  intros Hm Hlt. assert (Hm1 : (1 <= inject_Z (Zpos m))%Q) by (change 1%Q with (inject_Z 1); rewrite <- Zle_Qle; lia).
  destruct (Z_lt_le_dec e 0) as [He|He].
  2: { assert (1 <= Qpower 2 e)%Q by (change 1%Q with (Qpower 2 0); apply P2_le; lia). nra. }
  assert (Hk : (Zpos m < 2 ^ (- e))%Z).
  { rewrite Zlt_Qlt, P2_Z by lia. apply (Qmult_lt_r _ _ (Qpower 2 e)); [apply P2_pos|].
    rewrite <- Qpower_plus by discriminate. by replace (- e + e)%Z with 0%Z by lia. }
  destruct (Z_lt_le_dec e (-53)) as [He53|He53].
  - assert (H : (inject_Z (Zpos m) * Qpower 2 e <= Qpower 2 (-1))%Q).
    { apply Qle_trans with (Qpower 2 53 * Qpower 2 e)%Q.
      - apply Qmult_le_compat_r; [|apply Qlt_le_weak, P2_pos]. rewrite <- P2_Z by lia. rewrite <- Zle_Qle. lia.
      - rewrite <- Qpower_plus by discriminate. apply P2_le. lia. }
    assert (Qpower 2 (-53) <= Qpower 2 (-1))%Q by (apply P2_le; lia).
    change (Qpower 2 (-1)) with (1 # 2)%Q in *. lra.
  - assert (H : (inject_Z (Zpos m) <= inject_Z (2 ^ (- e)) - 1)%Q)
      by (assert (Hz : (Zpos m <= 2 ^ (- e) - 1)%Z) by lia; rewrite Zle_Qle in Hz;
          unfold Z.sub in Hz; rewrite inject_Z_plus, inject_Z_opp in Hz; exact Hz).
    rewrite P2_Z in H by lia. apply (Qmult_le_compat_r _ _ (Qpower 2 e)) in H; [|apply Qlt_le_weak, P2_pos].
    assert (Hp : (Qpower 2 (- e) * Qpower 2 e == 1)%Q)
      by (rewrite <- Qpower_plus by discriminate; by replace (- e + e)%Z with 0%Z by lia).
    change (inject_Z 1) with 1%Q in H.
    assert (Qpower 2 (-53) <= Qpower 2 e)%Q by (apply P2_le; lia). nra.
Qed.

(** [r * n] for a double [r] in [[0, 1)] and an integer [n] from [1] to
    [2^53]: a double in [[0, n)] whose floor is that of the exact product
    or one more. *)
Lemma f64_mul_unit_int (r : f64) (q : Q) (n : Z) :
  f64_valid r = true -> f64_value r = Some q -> (0 <= q < 1)%Q -> (1 <= n < 2 ^ 53)%Z ->
  exists v, f64_value (f64_mul r (f64_of_Z n)) = Some v /\ (0 <= v < inject_Z n)%Q
    /\ (Qfloor (q * inject_Z n) <= Qfloor v <= Qfloor (q * inject_Z n) + 1)%Z.
Proof.
  intros Hvalid Hr Hq Hn. destruct n as [|pn|pn]; try lia.
  destruct (f64_of_Z_exact pn ltac:(lia)) as (mn & en & -> & Hval).
  destruct r as [s|s| |s mr er]; cbn [f64_value] in Hr; try discriminate; injection Hr as <-.
  - eexists. split; [reflexivity|]. split; [split; [lra | change 0%Q with (inject_Z 0); rewrite <- Zlt_Qlt; lia]|].
    rewrite Qmult_0_l. simpl. lia.
  - assert (Hs : s = false).
    { destruct s; [|done]. exfalso. assert (0 < inject_Z (Zpos mr) * Qpower 2 er)%Q
        by (apply Qmult_lt_0_compat; [reflexivity | apply P2_pos]). lra. }
    subst s. assert (Hq' := Hq). rewrite Qmult_1_l in Hq'.
    pose proof (unit_mantissa_le mr er (f64_valid_mantissa _ _ _ Hvalid) (proj2 Hq')) as Hle.
    assert (Hx : (inject_Z (Zpos (mr * mn)) * Qpower 2 (er + en) == 1 * inject_Z (Zpos mr) * Qpower 2 er * inject_Z (Zpos pn))%Q)
      by (rewrite <- Hval, Pos2Z.inj_mul, inject_Z_mult, Qpower_plus by discriminate; ring).
    destruct (round_unit_product (mr * mn) (er + en) (Zpos pn)) as (v & Hv & Hrange & Hfl); [lia | |].
    + rewrite Hx. assert (0 < inject_Z (Zpos pn))%Q by reflexivity. nra.
    + exists v. split; [exact Hv | split; [exact Hrange|]]. by rewrite <- (Qfloor_comp _ _ Hx).
Qed.
