(* ===== verification/Environment.v ===== *)
(** * The environment interface: [performance.now()] and [Math.random()]

    The script reads two sources it does not control.  A run of the
    page is given the sequence of readings of each: [now_at k] is what
    the [k]-th call to [performance.now()] returns and [random_at k]
    what the [k]-th call to [Math.random()] returns, both doubles.
    [Environment] is that interface; [EnvironmentLaws] is what a
    browser promises of it: the
    clock is positive and never goes back, and every draw is a double
    of the format in [[0, 1)].  The theorems of [Liveness] are proved
    against these two classes; an instance is one concrete run of the
    browser. *)

From S2P Require Import Prelude Double.

Class Environment : Type := {
  now_at : nat -> f64;
  random_at : nat -> f64
}.

Class EnvironmentLaws (E : Environment) : Prop := {
  env_now_pos : forall i, f64_pos (now_at i);
  env_now_mono : forall i j, i <= j -> f64_le (now_at i) (now_at j);
  env_random_unit : forall i, f64_in_unit (random_at i)
}.

(** A run replayed from two recorded streams of readings. *)
Definition stream_env (clock : nat -> f64) (random : nat -> f64) : Environment :=
  {| now_at := clock; random_at := random |}.

Lemma stream_env_laws (clock : nat -> f64) (random : nat -> f64) :
  (forall i, f64_pos (clock i)) ->
  (forall i j, i <= j -> f64_le (clock i) (clock j)) ->
  (forall i, f64_in_unit (random i)) ->
  EnvironmentLaws (stream_env clock random).
Proof. intros Hp Hm Hr. by split. Qed.
