(* ===== verification/WordSource.v ===== *)
(** * The word source: [WORD_BANK] and [pickWords]

    [src/script.js] lines 3, 12-17 and 24-32.  The word bank is the
    template literal of lines 13-17 passed through [.trim()] and
    [.split(/\s+/)].  [pickWords] copies it and, [WORD_COUNT] times,
    draws [Math.floor(Math.random() * copy.length)] and moves the
    element at that index out of the copy with [copy.splice(idx, 1)[0]].
    When the copy is empty, [splice] removes nothing and [[0]] reads
    [undefined]; an element of the result is therefore an
    [option jsstr], [None] standing for [undefined].

    [Math.random] is a parameter of the section: any computation of the
    state monad that returns a double in [[0, 1)].  The index is computed
    as the script does: the product [Math.random() * copy.length] is
    rounded to a double ([Rounding]) before [Math.floor]; the same
    formula read exactly is [random_index_exact]. *)

From Stdlib Require Import Floats.SpecFloat.
From S2P Require Import Prelude JsString NumFormat Double Rounding.
Local Open Scope ft_scope.

(** [const WORD_COUNT = 10;] *)
Definition WORD_COUNT : nat := 10.

(** The template literal of lines 13-17, unit for unit: a newline, three
    indented lines, and the two spaces before the closing backquote. *)
Definition WORD_BANK_literal : jsstr :=
  [10%N] ++ of_string "    time person year way day thing man world life hand part child eye woman place work week case point"
  ++ [10%N] ++ of_string "    government company system program question work night water room mother area money story fact month lot"
  ++ [10%N] ++ of_string "    right study book job word business issue side kind head house service friend family school state"
  ++ [10%N] ++ of_string "  ".

(** [WORD_BANK = `...`.trim().split(/\s+/)] *)
Definition WORD_BANK : list jsstr := split_spaces (trim WORD_BANK_literal).

(** [arr.splice(start, 1)]: the array of removed elements and the array
    that remains.  A negative start counts from the end; a start past
    the end removes nothing. *)
Definition splice1 {A} (l : list A) (start : Z) : list A * list A :=
  let len := Z.of_nat (length l) in
  let actual := if (start <? 0)%Z then Z.max (len + start) 0 else Z.min start len in
  let k := Z.to_nat actual in
  (take 1 (drop k l), take k l ++ drop (S k) l).

(** [Math.floor(x)] passed as the start of [splice]: [ToIntegerOrInfinity]
    of the floor.  NaN becomes [0]; [splice] clamps [-Infinity] as it
    clamps [-len], and [Infinity] as [len]. *)
Definition floor_start (x : f64) (len : nat) : Z :=
  match x with
  | S754_nan => 0%Z
  | S754_infinity true => (- Z.of_nat len)%Z
  | S754_infinity false => Z.of_nat len
  | _ => match f64_value x with Some v => Qfloor v | None => 0%Z end
  end.

(** [Math.floor(Math.random() * copy.length)], line 28: the product is
    rounded to a double. *)
Definition random_index (r : f64) (len : nat) : Z :=
  floor_start (f64_mul r (f64_of_Z (Z.of_nat len))) len.

(** The same formula read exactly, on the value of the draw. *)
Definition random_index_exact (q : Q) (len : nat) : Z :=
  Qfloor (q * inject_Z (Z.of_nat len)).

Section PickWords.
Context {St : Type} (math_random : M St f64).

(** The body of the [for] loop of lines 27-30, run [n] more times on
    the array [copy] and the accumulator [selected]. *)
Fixpoint pick_loop (n : nat) (copy : list jsstr) (selected : list (option jsstr))
    : M St (list (option jsstr)) :=
  match n with
  | 0 => st_ret selected
  | S n' =>
      let* r := math_random in
      let '(removed, copy') := splice1 copy (random_index r (length copy)) in
      pick_loop n' copy' (selected ++ [head removed])
  end.

(** [function pickWords()] *)
Definition pickWords : M St (list (option jsstr)) :=
  pick_loop WORD_COUNT WORD_BANK [].
End PickWords.

(** A concrete random source: a stream of draws and the index of the
    next one.  It is how a run of the script is replayed with fixed
    draws. *)
Definition stream_random (rs : nat -> f64) : M nat f64 :=
  fun i => (Normal (rs i), S i).

(** ** The bank *)

Lemma WORD_BANK_length : length WORD_BANK = 51.
Proof. vm_compute. reflexivity. Qed.

Lemma WORD_COUNT_le_bank : WORD_COUNT <= length WORD_BANK.
Proof. rewrite WORD_BANK_length. unfold WORD_COUNT. lia. Qed.

Lemma WORD_BANK_words_nonempty : Forall (fun w => w <> []) WORD_BANK.
Proof. vm_compute. repeat constructor; discriminate. Qed.

Lemma WORD_BANK_no_space : Forall (fun w => SPACE ∉ w) WORD_BANK.
Proof. refine (bool_decide_unpack _ _). vm_compute. reflexivity. Qed.

Lemma WORD_BANK_ok : Forall word_ok WORD_BANK.
Proof.
  assert (H : Forall (fun w => bool_decide (w <> []) && forallb (fun c => negb (is_js_space c)) w = true)
                WORD_BANK) by (vm_compute; repeat constructor).
  eapply Forall_impl; [exact H|]. intros w Hw. apply andb_true_iff in Hw as [H1 H2].
  split; [by apply bool_decide_eq_true in H1|].
  apply Forall_forall. intros c Hc. rewrite List.forallb_forall in H2.
  specialize (H2 c (proj1 (list_elem_of_In _ _) Hc)). by destruct (is_js_space c).
Qed.

Lemma WORD_BANK_short : Forall (fun w => length w <= 10) WORD_BANK.
Proof. refine (bool_decide_unpack _ _). vm_compute. reflexivity. Qed.

(** Every code unit of the bank is one byte, so each is the [key] of a
    key press. *)
Lemma WORD_BANK_ascii : Forall (fun w => Forall (fun c => (c < 256)%N) w) WORD_BANK.
Proof. refine (bool_decide_unpack _ _). vm_compute. reflexivity. Qed.

(** ** Splice and the random index *)

Lemma floor_start_value x len v : f64_value x = Some v -> floor_start x len = Qfloor v.
Proof. destruct x as [s|s| |s m e]; cbn [f64_value floor_start]; intros H; try discriminate; by injection H as ->. Qed.

Lemma random_index_exact_range q len :
  (0 <= q < 1)%Q -> 0 < len -> (0 <= random_index_exact q len < Z.of_nat len)%Z.
Proof.
  intros [Hr0 Hr1] Hlen. unfold random_index_exact.
  assert (Hl : (0 < inject_Z (Z.of_nat len))%Q).
  { unfold Qlt. simpl. lia. }
  split.
  - assert (H0 : (0 <= q * inject_Z (Z.of_nat len))%Q) by (apply Qmult_le_0_compat; lra).
    pose proof (Qfloor_resp_le _ _ H0) as H. change (Qfloor 0) with 0%Z in H. lia.
  - pose proof (Qfloor_le (q * inject_Z (Z.of_nat len))) as H.
    assert (Hlt : (q * inject_Z (Z.of_nat len) < inject_Z (Z.of_nat len))%Q).
    { rewrite <- (Qmult_1_l (inject_Z _)) at 2. apply Qmult_lt_r; lra. }
    change (Qfloor (q * inject_Z (Z.of_nat len)) < Z.of_nat len)%Z.
    rewrite Zlt_Qlt. lra.
Qed.

(** The index of a draw in [[0, 1)] is in range, on doubles, and is the
    exact reading or one more. *)
Lemma random_index_spec r q len :
  f64_valid r = true -> f64_value r = Some q -> (0 <= q < 1)%Q -> 0 < len -> (Z.of_nat len < 2 ^ 53)%Z ->
  (0 <= random_index r len < Z.of_nat len)%Z
  /\ (random_index_exact q len <= random_index r len <= random_index_exact q len + 1)%Z.
Proof.
  intros Hv Hq Hq01 Hlen Hb.
  destruct (f64_mul_unit_int r q (Z.of_nat len) Hv Hq Hq01 ltac:(lia)) as (v & Hval & [H0 H1] & Hfl).
  unfold random_index, random_index_exact. rewrite (floor_start_value _ _ _ Hval). split; [|exact Hfl].
  split.
  - pose proof (Qfloor_resp_le _ _ H0) as H. change (Qfloor 0) with 0%Z in H. lia.
  - rewrite Zlt_Qlt. pose proof (Qfloor_le v). lra.
Qed.

Lemma random_index_range r len :
  f64_in_unit r -> 0 < len -> (Z.of_nat len < 2 ^ 53)%Z -> (0 <= random_index r len < Z.of_nat len)%Z.
Proof. intros (Hv & q & Hq & Hq01) Hlen Hb. exact (proj1 (random_index_spec r q len Hv Hq Hq01 Hlen Hb)). Qed.

Lemma splice1_in_range {A} (l : list A) (k : Z) :
  (0 <= k < Z.of_nat (length l))%Z ->
  exists x l', splice1 l k = ([x], l') /\ x :: l' ≡ₚ l.
Proof.
  intros Hk. unfold splice1.
  destruct (Z.ltb_spec k 0); [lia|].
  rewrite Z.min_l by lia.
  destruct (lookup_lt_is_Some_2 l (Z.to_nat k)) as [x Hx]; [lia|].
  exists x, (take (Z.to_nat k) l ++ drop (S (Z.to_nat k)) l). split.
  - f_equal. rewrite (drop_S _ _ _ Hx). done.
  - rewrite Permutation_middle. by rewrite take_drop_middle.
Qed.

Lemma splice1_nil {A} (k : Z) : splice1 (@nil A) k = ([], []).
Proof. unfold splice1. by rewrite !drop_nil, !take_nil. Qed.

Lemma random_index_0 r : random_index r 0 = 0%Z.
Proof. by destruct r as [[]|[]| |[] m e]. Qed.

(** [Qfloor x = k] exactly on [[k, k + 1)]. *)
Lemma Qfloor_eq_iff (x : Q) (k : Z) : Qfloor x = k <-> (inject_Z k <= x < inject_Z (k + 1))%Q.
Proof.
  rewrite inject_Z_plus. change (inject_Z 1) with 1%Q. split.
  - intros <-. pose proof (Qfloor_le x). pose proof (Qlt_floor x).
    rewrite inject_Z_plus in *. change (inject_Z 1) with 1%Q in *. lra.
  - intros [H1 H2]. pose proof (Qfloor_resp_le _ _ H1) as Hk. rewrite Qfloor_Z in Hk.
    assert (Qfloor x < k + 1)%Z; [|lia].
    rewrite Zlt_Qlt, inject_Z_plus. pose proof (Qfloor_le x). change (inject_Z 1) with 1%Q. lra.
Qed.

Lemma Qdiv_le_mul (a r c : Q) : (0 < c)%Q -> (a / c <= r <-> a <= r * c)%Q.
Proof.
  intros Hc. split; intros H.
  - apply (Qmult_le_compat_r _ _ c) in H; [|lra].
    rewrite (Qmult_comm (a / c) c), Qmult_div_r in H; [done | lra].
  - by apply Qle_shift_div_r.
Qed.

Lemma Qlt_div_mul (a r c : Q) : (0 < c)%Q -> (r < a / c <-> r * c < a)%Q.
Proof.
  intros Hc. split; intros H.
  - apply (Qmult_lt_r _ _ c) in H; [|done].
    rewrite (Qmult_comm (a / c) c), Qmult_div_r in H; [done | lra].
  - by apply Qlt_shift_div_l.
Qed.

Section PickWordsSpec.
Context {St : Type} (math_random : M St f64).

(** [Math.random()] returns a double in [[0, 1)] and never throws. *)
Hypothesis random_in_unit :
  forall s, exists r s', math_random s = (Normal r, s') /\ f64_in_unit r.

(** The loop, in general: it moves [min n (length copy)] words out of
    [copy] (a sub-multiset of it) and then pushes one [undefined] per
    draw made on the empty copy.  A JavaScript array has fewer than
    [2^32] elements, so its length is an integer a double holds. *)
Lemma pick_loop_spec n copy sel s :
  (Z.of_nat (length copy) < 2 ^ 32)%Z ->
  exists ws rest s',
    pick_loop math_random n copy sel s
      = (Normal (sel ++ map Some ws ++ replicate (n - length copy) None), s')
    /\ length ws = min n (length copy) /\ ws ++ rest ≡ₚ copy.
Proof.
  revert copy sel s. induction n as [|n IH]; intros copy sel s Hcl; cbn [pick_loop].
  - exists [], copy, s. rewrite Nat.sub_0_l. simpl. by rewrite app_nil_r.
  - destruct (random_in_unit s) as (r & s1 & Hr & Hrange).
    rewrite (st_bind_normal _ _ _ _ _ Hr).
    destruct copy as [|c cs].
    + rewrite random_index_0, splice1_nil. simpl.
      destruct (IH [] (sel ++ [None]) s1) as (ws & rest & s' & Hrun & Hlen & Hp); [simpl; lia|].
      destruct ws; [|simpl in Hlen; lia].
      exists [], [], s'. rewrite Hrun, !Nat.sub_0_r.
      split_and!; [by rewrite <- app_assoc | simpl; lia | done].
    + destruct (splice1_in_range (c :: cs) (random_index r (length (c :: cs))))
        as (x & copy' & Hsp & Hperm).
      { apply random_index_range; [done | simpl; lia | lia]. }
      rewrite Hsp. cbn [head].
      pose proof (Permutation_length Hperm) as Hl. simpl in Hl.
      destruct (IH copy' (sel ++ [Some x]) s1) as (ws & rest & s' & Hrun & Hlen & Hp); [simpl in Hcl; lia|].
      exists (x :: ws), rest, s'. rewrite Hrun, <- app_assoc. split_and!.
      * simpl. by replace (length copy') with (length cs) by lia.
      * simpl. lia.
      * simpl. by rewrite Hp.
Qed.

(** A prefix of a permutation is a sub-multiset. *)
Lemma app_perm_submseteq (ws rest copy : list jsstr) :
  ws ++ rest ≡ₚ copy -> ws ⊆+ copy.
Proof. intros Hp. rewrite <- Hp. by apply submseteq_inserts_r. Qed.

(** C8.  [pickWords()] returns [WORD_COUNT] words, none [undefined],
    taken from [WORD_BANK] without replacement: as a multiset the
    result is contained in the bank. *)
Theorem pickWords_draws_from_bank s :
  exists ws s', pickWords math_random s = (Normal (map Some ws), s')
    /\ length ws = WORD_COUNT /\ ws ⊆+ WORD_BANK.
Proof.
  destruct (pick_loop_spec WORD_COUNT WORD_BANK [] s) as (ws & rest & s' & Hrun & Hlen & Hp);
    [rewrite WORD_BANK_length; lia|].
  pose proof WORD_COUNT_le_bank as Hle.
  exists ws, s'. unfold pickWords. rewrite Hrun.
  replace (WORD_COUNT - length WORD_BANK) with 0 by lia.
  split_and!; [by rewrite app_nil_r | lia | by eapply app_perm_submseteq].
Qed.

(** C9.  The selection contract of the specification, for the loop of
    [pickWords] run [n] times on any vocabulary [V] of distinct words
    with [n <= |V|]: [n] distinct words, each a word of [V]. *)
Theorem pick_loop_distinct n (V : list jsstr) s :
  n <= length V -> (Z.of_nat (length V) < 2 ^ 32)%Z -> NoDup V ->
  exists ws s', pick_loop math_random n V [] s = (Normal (map Some ws), s')
    /\ length ws = n /\ NoDup ws /\ (forall w, w ∈ ws -> w ∈ V).
Proof.
  intros Hn HV Hnd. destruct (pick_loop_spec n V [] s HV) as (ws & rest & s' & Hrun & Hlen & Hp).
  exists ws, s'. rewrite Hrun. replace (n - length V) with 0 by lia.
  pose proof (app_perm_submseteq _ _ _ Hp) as Hsub.
  split_and!; [by rewrite app_nil_r | lia | | ].
  - apply (NoDup_app ws rest). by rewrite Hp.
  - intros w Hw. by eapply elem_of_submseteq.
Qed.

(** C10.  Asking for more words than the vocabulary holds does not fail:
    the loop returns the whole vocabulary, permuted, followed by one
    [undefined] per extra draw. *)
Theorem pick_loop_overdraw n (V : list jsstr) s :
  length V < n -> (Z.of_nat (length V) < 2 ^ 32)%Z ->
  exists ws s', pick_loop math_random n V [] s
      = (Normal (map Some ws ++ replicate (n - length V) None), s')
    /\ ws ≡ₚ V.
Proof.
  intros Hn HV. destruct (pick_loop_spec n V [] s HV) as (ws & rest & s' & Hrun & Hlen & Hp).
  exists ws, s'. split; [done|].
  rewrite <- Hp. destruct rest as [|w rest]; [by rewrite app_nil_r|].
  apply Permutation_length in Hp. rewrite length_app in Hp. simpl in Hp. lia.
Qed.
End PickWordsSpec.

(** The stream source satisfies the hypothesis of the section when every
    draw is in [[0, 1)]. *)
Lemma stream_random_in_unit (rs : nat -> f64) :
  (forall i, f64_in_unit (rs i)) ->
  forall s, exists r s', stream_random rs s = (Normal r, s') /\ f64_in_unit r.
Proof. intros H s. exists (rs s), (S s). auto. Qed.

(** Draws [31/102], [47/100] (the doubles nearest them), then [0]: the
    first takes [work] at index 15 of the bank, the second the other
    [work], at index 23 of the remaining 50 words. *)
Definition repeat_draws (i : nat) : f64 :=
  match i with
  | 0 => f64_div (f64_of_Z 31) (f64_of_Z 102)
  | 1 => f64_div (f64_of_Z 47) (f64_of_Z 100)
  | _ => f64_zero
  end.

(** The bank holds [work] twice (lines 14 and 15), so [pickWords] can
    return the same word twice: on the draws [repeat_draws] the words of
    the test are not distinct. *)
Example pickWords_can_repeat :
  (forall i, f64_in_unit (repeat_draws i)) /\
  exists ws i', pickWords (stream_random repeat_draws) 0 = (Normal ws, i') /\ ~ NoDup ws.
Proof.
  split.
  - intros [|[|i]]; apply f64_in_unit_b_spec; vm_compute; reflexivity.
  - eexists _, _. split; [vm_compute; reflexivity|].
    refine (bool_decide_unpack _ _). vm_compute. reflexivity.
Qed.

(** The exact reading is uniform: the draws that give index [k] of
    [len] are those of [[k/len, (k+1)/len)]. *)
Lemma random_index_exact_iff q (len k : nat) :
  0 < len ->
  random_index_exact q len = Z.of_nat k
  <-> (inject_Z (Z.of_nat k) / inject_Z (Z.of_nat len) <= q
       < inject_Z (Z.of_nat (S k)) / inject_Z (Z.of_nat len))%Q.
Proof.
  intros Hlen. assert (Hl : (0 < inject_Z (Z.of_nat len))%Q) by (unfold Qlt; simpl; lia).
  unfold random_index_exact. rewrite Qfloor_eq_iff, Qdiv_le_mul, Qlt_div_mul by done.
  by rewrite Nat2Z.inj_succ, <- Z.add_1_r.
Qed.

(** C24.  [Math.floor(Math.random() * copy.length)] is uniform up to the
    rounding of the product: a draw of [[k/len, (k+1)/len)] picks index
    [k], or [k + 1] when the product rounds up to it, and never an index
    past the end. *)
Theorem random_index_uniform r q (len k : nat) :
  f64_in_unit r -> f64_value r = Some q -> 0 < len -> (Z.of_nat len < 2 ^ 53)%Z ->
  (inject_Z (Z.of_nat k) / inject_Z (Z.of_nat len) <= q
     < inject_Z (Z.of_nat (S k)) / inject_Z (Z.of_nat len))%Q ->
  (random_index r len = Z.of_nat k \/ random_index r len = Z.of_nat (S k))
  /\ (0 <= random_index r len < Z.of_nat len)%Z.
Proof.
  intros (Hv & q' & Hq' & Hq01) Hq Hlen Hb Hk. rewrite Hq in Hq'. injection Hq' as <-.
  apply (random_index_exact_iff q len k Hlen) in Hk.
  destruct (random_index_spec r q len Hv Hq Hq01 Hlen Hb) as [Hr Hfl].
  rewrite Hk in Hfl. split; [lia | done].
Qed.

(** The draw [0x1.6969696969696p-1], just below [36/51], picks index
    [36] of [51]: the product rounds up to [36], while the exact reading
    of the formula gives [35]. *)
Lemma random_index_rounds_up :
  f64_in_unit (S754_finite false 6358023003346582 (-53))
  /\ random_index (S754_finite false 6358023003346582 (-53)) 51 = 36%Z
  /\ random_index_exact (inject_Z 6358023003346582 * Qpower 2 (-53)) 51 = 35%Z.
Proof.
  split; [apply f64_in_unit_b_spec; vm_compute; reflexivity|]. split; vm_compute; reflexivity.
Qed.

(** Witnesses: the theorems applied to a source that always draws [0]. *)
Definition zero_draws (_ : nat) : f64 := f64_zero.

Lemma zero_draws_in_unit : forall i, f64_in_unit (zero_draws i).
Proof. intros i. apply f64_in_unit_b_spec. reflexivity. Qed.


Lemma pickWords_draws_from_bank_witness :
  exists ws s', pickWords (stream_random zero_draws) 0 = (Normal (map Some ws), s')
    /\ length ws = WORD_COUNT /\ ws ⊆+ WORD_BANK.
Proof.
  exact (pickWords_draws_from_bank (stream_random zero_draws)
           (stream_random_in_unit _ zero_draws_in_unit) 0).
Defined.

Definition two_words : list jsstr := [of_string "cat"; of_string "dog"].

Lemma pick_loop_distinct_witness :
  2 <= length two_words /\ (Z.of_nat (length two_words) < 2 ^ 32)%Z /\ NoDup two_words /\
  exists ws s', pick_loop (stream_random zero_draws) 2 two_words [] 0 = (Normal (map Some ws), s')
    /\ length ws = 2 /\ NoDup ws /\ (forall w, w ∈ ws -> w ∈ two_words).
Proof.
  assert (Hnd : NoDup two_words) by (refine (bool_decide_unpack _ _); vm_compute; reflexivity).
  assert (H2 : (Z.of_nat (length two_words) < 2 ^ 32)%Z) by (simpl; lia).
  split_and!; [simpl; lia | exact H2 | exact Hnd |].
  apply (pick_loop_distinct _ (stream_random_in_unit _ zero_draws_in_unit)); [simpl; lia | exact H2 | exact Hnd].
Defined.

Lemma pick_loop_overdraw_witness :
  length two_words < 3 /\ (Z.of_nat (length two_words) < 2 ^ 32)%Z /\
  exists ws s', pick_loop (stream_random zero_draws) 3 two_words [] 0
      = (Normal (map Some ws ++ replicate (3 - length two_words) None), s')
    /\ ws ≡ₚ two_words.
Proof.
  assert (H2 : (Z.of_nat (length two_words) < 2 ^ 32)%Z) by (simpl; lia).
  split; [simpl; lia|]. split; [exact H2|].
  apply (pick_loop_overdraw _ (stream_random_in_unit _ zero_draws_in_unit)); [simpl; lia | exact H2].
Defined.

(** The draw of [random_index_rounds_up], in [[35/51, 36/51)], picks
    [36]. *)
Definition draw_36 : f64 := S754_finite false 6358023003346582 (-53).

Lemma random_index_uniform_witness :
  f64_in_unit draw_36 /\ f64_value draw_36 = Some (1 * inject_Z 6358023003346582 * Qpower 2 (-53))%Q
  /\ 0 < 51 /\ (Z.of_nat 51 < 2 ^ 53)%Z
  /\ (inject_Z (Z.of_nat 35) / inject_Z (Z.of_nat 51) <= 1 * inject_Z 6358023003346582 * Qpower 2 (-53)
       < inject_Z (Z.of_nat 36) / inject_Z (Z.of_nat 51))%Q
  /\ ((random_index draw_36 51 = Z.of_nat 35 \/ random_index draw_36 51 = Z.of_nat 36)
       /\ (0 <= random_index draw_36 51 < Z.of_nat 51)%Z).
Proof.
  assert (H1 : f64_in_unit draw_36) by (apply f64_in_unit_b_spec; vm_compute; reflexivity).
  assert (H2 : f64_value draw_36 = Some (1 * inject_Z 6358023003346582 * Qpower 2 (-53))%Q) by reflexivity.
  assert (H3 : 0 < 51) by lia. assert (H4 : (Z.of_nat 51 < 2 ^ 53)%Z) by lia.
  assert (H5 : (inject_Z (Z.of_nat 35) / inject_Z (Z.of_nat 51) <= 1 * inject_Z 6358023003346582 * Qpower 2 (-53)
       < inject_Z (Z.of_nat 36) / inject_Z (Z.of_nat 51))%Q) by qdecide.
  split; [exact H1|]. split; [exact H2|]. split; [exact H3|]. split; [exact H4|]. split; [exact H5|].
  exact (random_index_uniform draw_36 _ 51 35 H1 H2 H3 H4 H5).
Defined.
