(* ===== verification/Render.v ===== *)
(** * The words element: [renderWords] and [updateVisuals]

    [src/script.js] lines 34-55 and 80-95.  [wordsEl] holds one
    [span.word] per target word, each holding one [span.char] per code
    unit of the word and, except in the last word, a [span.char] for the
    separating space.  The model keeps the [.char] spans in document
    order, which is the order [querySelectorAll('.char')] returns them
    in, each with the index of the word span it belongs to, its text
    and its colour class ([pending], [correct] or [incorrect]; the
    class [char] is always present and is not recorded). *)

From S2P Require Import Prelude JsString.
Local Open Scope ft_scope.

Inductive char_class : Type :=
  | Pending
  | Correct
  | Incorrect.

#[export] Instance char_class_eq_dec : EqDecision char_class.
Proof. solve_decision. Defined.

Record char_span : Type := mk_span {
  cs_word : nat;          (** index of the enclosing [span.word] *)
  cs_text : N;            (** [textContent], one code unit *)
  cs_class : char_class   (** the colour class *)
}.

Abbreviation Spans := (list char_span).

Definition with_class (c : char_class) (sp : char_span) : char_span :=
  mk_span (cs_word sp) (cs_text sp) c.

(** ** [renderWords(words)] *)

(** The body of [words.forEach((w, wi) => ...)] for a list of [n]
    words: reading [w.length] on [undefined] throws a [TypeError];
    otherwise one pending span per code unit, then a pending space when
    [wi < words.length - 1], appended as one word span. *)
Definition render_word (n : nat) (w : option jsstr) (wi : nat) : M Spans unit :=
  match w with
  | None => st_throw TypeError
  | Some s =>
      let chars := map (fun c => mk_span wi c Pending) s in
      let sp := if decide (wi < n - 1) then [mk_span wi SPACE Pending] else [] in
      st_modify (fun spans => spans ++ chars ++ sp)
  end.

(** [wordsEl.innerHTML = '']; then the [forEach]. *)
Definition renderWords (words : list (option jsstr)) : M Spans unit :=
  st_modify (fun _ => []) >> forEach_from 0 words (render_word (length words)).

(** ** [updateVisuals(typed)] *)

(** The class of the span at [i]: [pending] when [typed[i]] is
    [undefined] (so [got] is [''] and [!got] holds), [correct] when it
    equals [targetText[i]], [incorrect] otherwise ([expected] is [''] past
    the end of the target, which no typed unit equals). *)
Definition classify (target typed : jsstr) (i : nat) : char_class :=
  match typed !! i with
  | None => Pending
  | Some g => if decide (target !! i = Some g) then Correct else Incorrect
  end.

(** The [for] loop over the [chars.length] spans: remove the three
    colour classes of [chars[i]] and add the one [classify] chooses. *)
Definition updateVisuals (target typed : jsstr) : M Spans unit :=
  let* spans := st_get in
  for_upto (length spans) 0
    (fun i => st_modify (alter (with_class (classify target typed i)) i)).

(** The reference: every span recoloured by its index. *)
Definition paint (target typed : jsstr) (spans : Spans) : Spans :=
  imap (fun i sp => with_class (classify target typed i) sp) spans.

(** The spans a list of words renders to, word [i] first. *)
Fixpoint rendered_from (i n : nat) (ws : list jsstr) : Spans :=
  match ws with
  | [] => []
  | w :: ws' =>
      map (fun c => mk_span i c Pending) w
      ++ (if decide (i < n - 1) then [mk_span i SPACE Pending] else [])
      ++ rendered_from (S i) n ws'
  end.

(** ** Rendering *)

Lemma word_spans_text i w : map cs_text (map (fun c => mk_span i c Pending) w) = w.
Proof. rewrite map_map. apply map_id. Qed.

Lemma word_spans_pending i w : Forall (fun sp => cs_class sp = Pending) (map (fun c => mk_span i c Pending) w).
Proof. apply Forall_map, Forall_true. done. Qed.

Section RenderLemmas.
Context (n : nat).

Lemma render_loop i ws acc :
  forEach_from i (map Some ws) (render_word n) acc = (Normal tt, acc ++ rendered_from i n ws).
Proof.
  revert i acc. induction ws as [|w ws IH]; intros i acc; simpl.
  - by rewrite app_nil_r.
  - unfold st_bind, st_modify. rewrite IH. by rewrite <- !app_assoc.
Qed.

Lemma render_loop_undefined i pre post acc :
  forEach_from i (map Some pre ++ None :: post) (render_word n) acc
    = (Thrown TypeError, acc ++ rendered_from i n pre).
Proof.
  revert i acc. induction pre as [|w pre IH]; intros i acc; simpl.
  - by rewrite app_nil_r.
  - unfold st_bind, st_modify. rewrite IH. by rewrite <- !app_assoc.
Qed.

(** The texts of the spans of words [i ..] when more words follow them:
    every word is followed by a space. *)
Lemma rendered_from_text_before i pre :
  i + length pre < n ->
  map cs_text (rendered_from i n pre) = mjoin (map (fun w => w ++ [SPACE]) pre).
Proof.
  revert i. induction pre as [|w pre IH]; intros i Hi; simpl in *; [done|].
  rewrite decide_True by lia. rewrite !map_app, word_spans_text.
  rewrite IH by lia. by rewrite <- app_assoc.
Qed.
End RenderLemmas.

Lemma rendered_from_text i ws :
  map cs_text (rendered_from i (i + length ws) ws) = join [SPACE] ws.
Proof.
  revert i. induction ws as [|w ws IH]; intros i; [done|].
  cbn [rendered_from length]. rewrite !map_app, word_spans_text.
  destruct ws as [|w' ws].
  - rewrite decide_False by (simpl; lia). simpl. by rewrite !app_nil_r.
  - rewrite decide_True by (simpl; lia).
    replace (i + S (length (w' :: ws))) with (S i + length (w' :: ws)) by lia.
    rewrite IH. done.
Qed.

Lemma rendered_from_pending i n ws :
  Forall (fun sp => cs_class sp = Pending) (rendered_from i n ws).
Proof.
  revert i. induction ws as [|w ws IH]; intros i; simpl; [done|].
  repeat apply Forall_app_2; [apply word_spans_pending | case_decide | apply IH];
    repeat constructor.
Qed.

Lemma renderWords_some ws spans0 :
  renderWords (map Some ws) spans0 = (Normal tt, rendered_from 0 (length ws) ws).
Proof. unfold renderWords, st_bind, st_modify. rewrite length_map. apply render_loop. Qed.

(** C11.  [renderWords] on words that are all defined succeeds, and the
    [.char] spans it leaves read, in document order, exactly
    [words.join(' ')], all [pending]. *)
Theorem renderWords_shows_text ws spans0 :
  exists spans, renderWords (map Some ws) spans0 = (Normal tt, spans)
    /\ map cs_text spans = join [SPACE] ws
    /\ Forall (fun sp => cs_class sp = Pending) spans.
Proof.
  exists (rendered_from 0 (length ws) ws). split_and!.
  - apply renderWords_some.
  - apply (rendered_from_text 0).
  - apply rendered_from_pending.
Qed.

(** C12.  When a word is [undefined], [renderWords] throws a [TypeError]
    at it, leaving the spans of the words before it, each followed by
    its space. *)
Theorem renderWords_undefined pre post spans0 :
  exists spans,
    renderWords (map Some pre ++ None :: post) spans0 = (Thrown TypeError, spans)
    /\ map cs_text spans = mjoin (map (fun w => w ++ [SPACE]) pre).
Proof.
  exists (rendered_from 0 (length (map Some pre ++ None :: post)) pre). split.
  - unfold renderWords, st_bind, st_modify. apply render_loop_undefined.
  - apply rendered_from_text_before. rewrite length_app, length_map. simpl. lia.
Qed.

(** ** Recolouring *)

(** [n] iterations of "recolour span [i] with [g i]" from index [k]
    recolour exactly the spans [k .. k + n - 1]. *)
Lemma for_alter_lookup (g : nat -> char_span -> char_span) n k (l : Spans) :
  exists l', for_upto n k (fun i => st_modify (alter (g i) i)) l = (Normal tt, l')
    /\ forall j, l' !! j = if decide (k <= j < k + n) then g j <$> l !! j else l !! j.
Proof.
  revert k l. induction n as [|n IH]; intros k l; simpl.
  - exists l. split; [done|]. intros j. by rewrite decide_False by lia.
  - destruct (IH (S k) (alter (g k) k l)) as (l' & Hrun & Hl').
    exists l'. split; [done|]. intros j. rewrite Hl'.
    destruct (decide (j = k)) as [->|Hne].
    + rewrite decide_False, decide_True by lia. apply list_lookup_alter_eq.
    + rewrite list_lookup_alter_ne by done.
      destruct (decide (S k <= j < S k + n)), (decide (k <= j < k + S n)); done || lia.
Qed.

Lemma updateVisuals_run target typed spans :
  updateVisuals target typed spans = (Normal tt, paint target typed spans).
Proof.
  unfold updateVisuals, st_bind, st_get.
  destruct (for_alter_lookup (fun i => with_class (classify target typed i))
              (length spans) 0 spans) as (l' & -> & Hl').
  do 2 f_equal. apply list_eq. intros j. unfold paint. rewrite Hl', list_lookup_imap.
  case_decide; [done|]. rewrite lookup_ge_None_2; [done | lia].
Qed.

(** [classify] read as the three cases of lines 87-93. *)
Lemma classify_pending target typed i : classify target typed i = Pending <-> length typed <= i.
Proof.
  unfold classify. rewrite <- lookup_ge_None.
  destruct (typed !! i); [case_decide|]; split; done.
Qed.

Lemma classify_correct target typed i :
  classify target typed i = Correct <-> exists g, typed !! i = Some g /\ target !! i = Some g.
Proof.
  unfold classify. destruct (typed !! i) as [g|]; [case_decide as H|]; split.
  - intros _. by exists g.
  - done.
  - done.
  - intros (g' & [= <-] & Hg). done.
  - done.
  - by intros (? & ? & _).
Qed.

(** Position [S i] of two strings is position [i] of their tails. *)
Lemma classify_cons t ts typed i :
  classify (t :: ts) typed (S i) = classify ts (tail typed) i.
Proof. unfold classify. by destruct typed. Qed.

(** C13.  [updateVisuals(typed)] returns and recolours every [.char]
    span in place, keeping its word and its text: span [i] is [pending]
    exactly when [typed] has no unit at [i], [correct] exactly when
    [typed[i]] is defined and equals [targetText[i]], and [incorrect]
    otherwise. *)
Theorem updateVisuals_colours target typed spans :
  exists spans', updateVisuals target typed spans = (Normal tt, spans')
    /\ length spans' = length spans
    /\ forall i sp, spans !! i = Some sp ->
         exists c, spans' !! i = Some (mk_span (cs_word sp) (cs_text sp) c)
           /\ (c = Pending <-> length typed <= i)
           /\ (c = Correct <-> exists g, typed !! i = Some g /\ target !! i = Some g).
Proof.
  exists (paint target typed spans). split_and!; [apply updateVisuals_run | apply length_imap |].
  intros i sp Hi. exists (classify target typed i). split_and!.
  - unfold paint. by rewrite list_lookup_imap, Hi.
  - apply classify_pending.
  - apply classify_correct.
Qed.

Lemma paint_text target typed spans : map cs_text (paint target typed spans) = map cs_text spans.
Proof.
  apply list_eq. intros j. unfold paint. rewrite !list_lookup_fmap, list_lookup_imap.
  by destruct (spans !! j).
Qed.

Lemma paint_length target typed spans : length (paint target typed spans) = length spans.
Proof. apply length_imap. Qed.

(** The class [updateVisuals] gives the span at [i]. *)
Lemma paint_class target typed spans i sp :
  spans !! i = Some sp -> cs_class <$> paint target typed spans !! i = Some (classify target typed i).
Proof. intros H. unfold paint. by rewrite list_lookup_imap, H. Qed.

Lemma renderWords_undefined_witness :
  exists spans,
    renderWords (map Some [of_string "cat"] ++ None :: []) [] = (Thrown TypeError, spans)
    /\ map cs_text spans = mjoin (map (fun w => w ++ [SPACE]) [of_string "cat"]).
Proof. exact (renderWords_undefined [of_string "cat"] [] []). Defined.
