(* ===== verification/Scorer.v ===== *)
(** * The scorer: [countCorrectChars] and the arithmetic of [finishTest]

    [src/script.js] lines 71-78 and 100-110.  [countCorrectChars]
    counts the positions below [min(typed.length, targetText.length)]
    where the typed unit equals the target unit.  [finishTest] computes
    the elapsed seconds from [startTime] (a Number or [null], which the
    subtraction turns into [0]), the words per minute from the constant
    [WORD_COUNT], and the accuracy, then shows them with [toFixed(2)],
    [Math.round] and [toFixed(1) + '%'].  [score64] does this on binary64
    doubles, as the script does.  The display functions of [NumFormat]
    act on the exact value of each double, so the only roundings are
    those of the arithmetic; where a decimal time has no exact double
    the shown digits are those of the double ([time_text64_1005]). *)

From S2P Require Import Prelude JsString NumFormat Double Rounding WordSource.
Local Open Scope ft_scope.

(** The [for] loop of lines 74-76 from index [i], [n] iterations left,
    with the counter [correct]. *)
Fixpoint count_loop (target typed : jsstr) (i n correct : nat) : nat :=
  match n with
  | 0 => correct
  | S n' =>
      count_loop target typed (S i) n'
        (if decide (typed !! i = target !! i) then S correct else correct)
  end.

(** [function countCorrectChars(typed)] *)
Definition countCorrectChars (target typed : jsstr) : nat :=
  count_loop target typed 0 (min (length typed) (length target)) 0.

(** The reference: the number of equal pairs of the two strings zipped. *)
Definition equal_pairs (target typed : jsstr) : nat :=
  length (filter (fun p : N * N => p.1 = p.2) (zip typed target)).

(** ** Lines 100-110

    Every operation on binary64 doubles ([Double]), as the script
    computes them. *)

(** [startTime] in the subtraction of line 101: [null] is [+0]. *)
Definition start_number64 (startTime : option f64) : f64 :=
  match startTime with
  | None => f64_zero
  | Some t => t
  end.

(** Line 105: [(correctChars / typed.length) * 100], or [0]. *)
Definition accuracy64 (correctChars len : nat) : f64 :=
  if decide (0 < len)
  then f64_mul (f64_div (f64_of_Z (Z.of_nat correctChars)) (f64_of_Z (Z.of_nat len))) (f64_of_Z 100)
  else f64_zero.

Record Result64 : Type := mk_result64 {
  elapsedSec64 : f64;
  wpm64 : f64;
  accuracy64_of : f64
}.

(** Lines 101-105 on doubles. *)
Definition score64 (target typed : jsstr) (startTime : option f64) (endTime : f64) : Result64 :=
  let elapsedSec := f64_div (f64_sub endTime (start_number64 startTime)) (f64_of_Z 1000) in
  let minutes := f64_div elapsedSec (f64_of_Z 60) in
  let wpm := if f64_lt f64_zero minutes then f64_div (f64_of_Z (Z.of_nat WORD_COUNT)) minutes else f64_zero in
  mk_result64 elapsedSec wpm (accuracy64 (countCorrectChars target typed) (length typed)).

(** Lines 108-110 on the doubles. *)
Definition time_text64 (r : Result64) : jsstr := toFixed64 2 (elapsedSec64 r).
Definition wpm_text64 (r : Result64) : jsstr := round_text64 (wpm64 r).
Definition acc_text64 (r : Result64) : jsstr := toFixed64 1 (accuracy64_of r) ++ of_string "%".

(** ** Counting *)

Lemma count_loop_filter target typed i n c :
  i + n <= length (zip typed target) ->
  count_loop target typed i n c
    = c + length (filter (fun p : N * N => p.1 = p.2) (take n (drop i (zip typed target)))).
Proof.
  revert i c. induction n as [|n IH]; intros i c Hn; simpl; [lia|].
  rewrite length_zip in Hn.
  destruct (lookup_lt_is_Some_2 typed i) as [a Ha]; [lia|].
  destruct (lookup_lt_is_Some_2 target i) as [b Hb]; [lia|].
  assert (Hz : zip typed target !! i = Some (a, b)).
  { by apply lookup_zip_Some. }
  rewrite (drop_S _ _ _ Hz). simpl. rewrite filter_cons, Ha, Hb.
  rewrite IH by (rewrite length_zip; lia). simpl.
  destruct (decide (a = b)) as [->|Hne].
  - rewrite decide_True by done. simpl. lia.
  - rewrite decide_False by congruence. done.
Qed.

Lemma count_equal_pairs target typed :
  countCorrectChars target typed = equal_pairs target typed.
Proof.
  unfold countCorrectChars, equal_pairs.
  rewrite count_loop_filter by (rewrite length_zip; lia).
  rewrite drop_0, take_ge by (rewrite length_zip; lia). done.
Qed.

(** C15.  The loop of [countCorrectChars] computes the reference count:
    the number of equal pairs in [typed] zipped with [targetText]. *)
Theorem countCorrectChars_equal_pairs target typed :
  countCorrectChars target typed = equal_pairs target typed.
Proof. exact (count_equal_pairs target typed). Qed.

Lemma countCorrectChars_le target typed :
  countCorrectChars target typed <= min (length typed) (length target).
Proof.
  rewrite count_equal_pairs. unfold equal_pairs.
  rewrite <- length_zip. apply length_filter.
Qed.

Lemma countCorrectChars_self t : countCorrectChars t t = length t.
Proof.
  rewrite count_equal_pairs. unfold equal_pairs.
  induction t as [|c t IH]; [done|]. simpl. rewrite filter_cons, decide_True by done.
  simpl. by rewrite IH.
Qed.

(** [Math.round] of a non-negative Number below [10^20] printed by
    [ToString]: the digits of the nearest natural number. *)
Lemma round_text_digits (x : Q) :
  (0 <= x < inject_Z (10 ^ 20))%Q ->
  int_to_string (Math_round x) = digits (Z.to_N (Math_round x))
  /\ (0 <= Math_round x)%Z
  /\ (inject_Z (Math_round x) - (1 # 2) <= x < inject_Z (Math_round x) + (1 # 2))%Q.
Proof.
  intros [H0 H1]. unfold Math_round.
  assert (Hz0 : (0 <= Qfloor (x + (1 # 2)))%Z) by (apply Qfloor_nonneg; lra).
  assert (Hz1 : (Qfloor (x + (1 # 2)) < 10 ^ 20 + 1)%Z).
  { rewrite Zlt_Qlt, inject_Z_plus. pose proof (Qfloor_le (x + (1 # 2))).
    change (inject_Z 1) with 1%Q. lra. }
  split; [|split; [done | apply floor_half_nearest]].
  unfold int_to_string. rewrite (proj2 (Z.ltb_ge _ _)), Z.abs_eq by lia.
  rewrite (proj2 (N.ltb_lt _ _)); [done|].
  change (10 ^ 21)%N with (Z.to_N (10 ^ 21)). lia.
Qed.

(** ** The doubles *)

(** A perfect score on doubles: [l / l] is exactly [1] and [1 * 100] is
    exactly [100], for every length [l] below [2^53] (the integers a
    double holds exactly). *)
Lemma accuracy64_self (l : nat) :
  0 < l -> (Z.of_nat l < 2 ^ 53)%Z -> accuracy64 l l = f64_of_Z 100.
Proof.
  intros Hl Hb. unfold accuracy64. rewrite decide_True by done.
  destruct l as [|l]; [lia|]. change (Z.of_nat (S l)) with (Zpos (Pos.of_succ_nat l)) in *.
  destruct (f64_of_Z_exact _ Hb) as (m & e & -> & _). rewrite f64_div_self. vm_compute. reflexivity.
Qed.

Lemma score64_exact_text target st et :
  0 < length target -> (Z.of_nat (length target) < 2 ^ 53)%Z ->
  acc_text64 (score64 target target st et) = of_string "100.0%".
Proof.
  intros Hl Hb. unfold acc_text64, score64. cbn [accuracy64_of].
  rewrite countCorrectChars_self, accuracy64_self by done. vm_compute. reflexivity.
Qed.

Lemma f64_pos_1000 : f64_pos (f64_of_Z 1000).
Proof. eexists _, _. vm_compute. reflexivity. Qed.

Lemma f64_pos_60 : f64_pos (f64_of_Z 60).
Proof. eexists _, _. vm_compute. reflexivity. Qed.

Lemma f64_pos_WORD_COUNT : f64_pos (f64_of_Z (Z.of_nat WORD_COUNT)).
Proof. eexists _, _. vm_compute. reflexivity. Qed.

(** From a positive start not after a positive end, the elapsed time
    and the rate are not negative (nor NaN). *)
Lemma score64_nonneg target typed s e :
  f64_pos s -> f64_pos e -> f64_le s e ->
  f64_nonneg (elapsedSec64 (score64 target typed (Some s) e))
  /\ f64_nonneg (wpm64 (score64 target typed (Some s) e)).
Proof.
  intros Hs He Hle. unfold score64. cbn [elapsedSec64 wpm64 start_number64]. split.
  - apply f64_div_nonneg_pos; [by apply f64_sub_nonneg | apply f64_pos_1000].
  - destruct (f64_lt f64_zero _) eqn:E; [|done].
    by apply f64_div_pos_nonneg; [apply f64_pos_WORD_COUNT|].
Qed.

(** A double that is not negative has a value that is not negative. *)
Lemma f64_nonneg_value x q : f64_nonneg x -> f64_value x = Some q -> (0 <= q)%Q.
Proof.
  destruct x as [s|s| |s m e]; cbn; intros Hx Hq; try discriminate.
  - injection Hq as <-. apply Qle_refl.
  - subst s. injection Hq as <-. rewrite Qmult_1_l.
    apply Qmult_le_0_compat; [unfold Qle; simpl; lia | apply Qlt_le_weak, P2_pos].
Qed.

(** C25.  The rate is shown as the decimal digits of a natural number,
    no sign and no exponent, within half a word per minute of the double
    [wpm] the script computes, halves rounded up, whenever the start
    reading is positive and not after the end reading and the rate is a
    finite double below [10^20]. *)
Theorem wpm_text64_nearest target typed s e q :
  f64_pos s -> f64_pos e -> f64_le s e ->
  f64_value (wpm64 (score64 target typed (Some s) e)) = Some q -> (q < inject_Z (10 ^ 20))%Q ->
  exists n : N, wpm_text64 (score64 target typed (Some s) e) = digits n
    /\ (inject_Z (Z.of_N n) - (1 # 2) <= q < inject_Z (Z.of_N n) + (1 # 2))%Q.
Proof.
  intros Hs He Hle Hq Hb.
  destruct (score64_nonneg target typed s e Hs He Hle) as [_ Hn].
  pose proof (f64_nonneg_value _ _ Hn Hq) as H0.
  destruct (round_text_digits q (conj H0 Hb)) as (Ht & Hz & Hr).
  exists (Z.to_N (Math_round q)). unfold wpm_text64, round_text64. rewrite Hq, Z2N.id by done.
  by split.
Qed.

(** C28.  On doubles the degenerate cases are zero too: with nothing
    typed the accuracy is shown as [0.0%], and a finish at the reading
    of the start shows a rate of [0], for any positive reading. *)
Theorem score64_degenerate target typed t0 :
  f64_pos t0 ->
  acc_text64 (score64 target [] (Some t0) t0) = of_string "0.0%"
  /\ wpm_text64 (score64 target typed (Some t0) t0) = of_string "0".
Proof.
  intros Ht. split.
  - unfold acc_text64, score64. cbn [accuracy64_of length].
    unfold accuracy64. rewrite decide_False by lia. reflexivity.
  - unfold wpm_text64, score64. cbn [wpm64 start_number64]. rewrite (f64_sub_self t0 Ht).
    vm_compute. reflexivity.
Qed.

(** An elapsed time of [1005] ms is shown as [1.00], not [1.01]: the
    double nearest [1.005] lies below it and [toFixed(2)] rounds that
    double. *)
Example time_text64_1005 :
  time_text64 (score64 (of_string "cat") (of_string "cat") (Some (f64_of_Z 1000)) (f64_of_Z 2005))
    = of_string "1.00".
Proof. vm_compute. reflexivity. Qed.

(** The scenario of the specification, with this program's constant
    [WORD_COUNT = 10]: target [cat dog bat], typed [cat dig bat], two
    seconds: [2.00] s, [300] words per minute and [90.9%]. *)
Example score64_scenario :
  let r := score64 (of_string "cat dog bat") (of_string "cat dig bat") (Some (f64_of_Z 1000)) (f64_of_Z 3000) in
  time_text64 r = of_string "2.00" /\ wpm_text64 r = of_string "300" /\ acc_text64 r = of_string "90.9%".
Proof. vm_compute. split_and!; reflexivity. Qed.

(** C29.  On doubles too, typing the target exactly scores an accuracy
    of exactly [100], shown as [100.0%], whatever the times, for every
    target of length from [1] to [2^53 - 1]: the division of line 105
    rounds nothing. *)
Theorem score64_exact target st et :
  0 < length target -> (Z.of_nat (length target) < 2 ^ 53)%Z ->
  accuracy64_of (score64 target target st et) = f64_of_Z 100
  /\ acc_text64 (score64 target target st et) = of_string "100.0%".
Proof.
  intros Hl Hb. split; [|exact (score64_exact_text target st et Hl Hb)].
  cbn [score64 accuracy64_of]. rewrite countCorrectChars_self. exact (accuracy64_self _ Hl Hb).
Qed.

Lemma score64_degenerate_witness :
  f64_pos (f64_of_Z 1000)
  /\ acc_text64 (score64 (of_string "cat") [] (Some (f64_of_Z 1000)) (f64_of_Z 1000)) = of_string "0.0%"
  /\ wpm_text64 (score64 (of_string "cat") (of_string "c") (Some (f64_of_Z 1000)) (f64_of_Z 1000))
       = of_string "0".
Proof. split; [exact f64_pos_1000 | exact (score64_degenerate _ _ _ f64_pos_1000)]. Defined.

Lemma score64_exact_witness :
  0 < length (of_string "cat dog bat") /\ (Z.of_nat (length (of_string "cat dog bat")) < 2 ^ 53)%Z
  /\ accuracy64_of (score64 (of_string "cat dog bat") (of_string "cat dog bat") None (f64_of_Z 3000))
       = f64_of_Z 100
  /\ acc_text64 (score64 (of_string "cat dog bat") (of_string "cat dog bat") None (f64_of_Z 3000))
       = of_string "100.0%".
Proof.
  assert (H1 : 0 < length (of_string "cat dog bat")) by (simpl; lia).
  assert (H2 : (Z.of_nat (length (of_string "cat dog bat")) < 2 ^ 53)%Z) by (simpl; lia).
  split; [exact H1 | split; [exact H2 | exact (score64_exact _ None (f64_of_Z 3000) H1 H2)]].
Defined.

Lemma wpm_text64_nearest_witness :
  f64_pos (f64_of_Z 1000) /\ f64_pos (f64_of_Z 3000) /\ f64_le (f64_of_Z 1000) (f64_of_Z 3000)
  /\ f64_value (wpm64 (score64 (of_string "cat") (of_string "cat") (Some (f64_of_Z 1000)) (f64_of_Z 3000)))
       = Some (5277655813324800 # 17592186044416)%Q
  /\ ((5277655813324800 # 17592186044416) < inject_Z (10 ^ 20))%Q
  /\ exists n : N,
    wpm_text64 (score64 (of_string "cat") (of_string "cat") (Some (f64_of_Z 1000)) (f64_of_Z 3000)) = digits n
    /\ (inject_Z (Z.of_N n) - (1 # 2) <= (5277655813324800 # 17592186044416) < inject_Z (Z.of_N n) + (1 # 2))%Q.
Proof.
  assert (H1 : f64_pos (f64_of_Z 1000)) by exact f64_pos_1000.
  assert (H2 : f64_pos (f64_of_Z 3000)) by (eexists _, _; vm_compute; reflexivity).
  assert (H3 : f64_le (f64_of_Z 1000) (f64_of_Z 3000)) by (vm_compute; discriminate).
  assert (H4 : f64_value (wpm64 (score64 (of_string "cat") (of_string "cat") (Some (f64_of_Z 1000))
                 (f64_of_Z 3000))) = Some (5277655813324800 # 17592186044416)%Q) by (vm_compute; reflexivity).
  assert (H5 : ((5277655813324800 # 17592186044416) < inject_Z (10 ^ 20))%Q) by (vm_compute; reflexivity).
  split_and!; [exact H1 | exact H2 | exact H3 | exact H4 | exact H5 |].
  exact (wpm_text64_nearest _ _ _ _ _ H1 H2 H3 H4 H5).
Defined.
