(* ===== verification/Session.v ===== *)
(** * The session controller: the closure's state and its handlers

    [src/script.js] lines 19-22 (the four [let] variables), 57-69
    ([startNewTest]), 97-111 ([finishTest]), 113-145 (the listeners and
    the initial call).  The world is the closure's variables, the parts
    of the DOM the script writes, and the positions reached in the two
    external sources, [performance.now()] and [Math.random()], which are
    the section's parameters [clock] and [random]: the [k]-th call
    returns [clock k] (resp. [random k]).  Clock readings, draws and
    [startTime] are doubles ([Double]); [finishTest] computes with
    [score64], lines 101-105 on doubles, and [pickWords] rounds each
    product [Math.random() * copy.length] to a double.

    An event is what the browser delivers to one listener: an [input]
    event after it has set [input.value], a [keydown], a [paste] (its
    listener [onPaste] calls [preventDefault]) or a click on the restart
    button.  How the browser turns a key press, a paste or a drop into
    these events, and what it does when a paste is not cancelled, is
    [Browser].  [startNewTest_on] is [startNewTest] on a [Page] whose
    lookups may have returned [null] (each use of a missing element
    throws, [need]); the handlers run on [full_page], where every
    element is found, and [Page] (the file) runs the load on any page.
    A handler that throws stops there; the
    writes it made stay, and the next event runs on them. *)

From S2P Require Import Prelude JsString NumFormat Double WordSource Render Scorer.
Local Open Scope ft_scope.

(** The four variables of lines 19-22. *)
Record Session : Type := mk_session {
  targetWords : list (option jsstr);
  targetText : jsstr;
  startTime : option f64;   (** [null] or a Number *)
  ended : bool
}.

(** What the script writes in the page. *)
Record Dom : Type := mk_dom {
  words_el : Spans;         (** the [.char] spans of [#words] *)
  input_value : jsstr;      (** [input.value] *)
  stats_hidden : bool;      (** [stats.hidden] *)
  time_el : jsstr;          (** [timeEl.textContent] *)
  wpm_el : jsstr;           (** [wpmEl.textContent] *)
  acc_el : jsstr;           (** [accEl.textContent] *)
  input_focused : bool      (** set by [input.focus()] *)
}.

Record World : Type := mk_world {
  w_sess : Session;
  w_dom : Dom;
  w_clock : nat;            (** calls made to [performance.now()] *)
  w_rand : nat              (** calls made to [Math.random()] *)
}.

(** ** Assignments *)

Definition upd_sess (f : Session -> Session) (w : World) : World :=
  mk_world (f (w_sess w)) (w_dom w) (w_clock w) (w_rand w).
Definition upd_dom (f : Dom -> Dom) (w : World) : World :=
  mk_world (w_sess w) (f (w_dom w)) (w_clock w) (w_rand w).

Definition set_targetWords v s := mk_session v (targetText s) (startTime s) (ended s).
Definition set_targetText v s := mk_session (targetWords s) v (startTime s) (ended s).
Definition set_startTime v s := mk_session (targetWords s) (targetText s) v (ended s).
Definition set_ended v s := mk_session (targetWords s) (targetText s) (startTime s) v.

Definition set_words_el v d :=
  mk_dom v (input_value d) (stats_hidden d) (time_el d) (wpm_el d) (acc_el d) (input_focused d).
Definition set_input_value v d :=
  mk_dom (words_el d) v (stats_hidden d) (time_el d) (wpm_el d) (acc_el d) (input_focused d).
Definition set_stats_hidden v d :=
  mk_dom (words_el d) (input_value d) v (time_el d) (wpm_el d) (acc_el d) (input_focused d).
Definition set_time_el v d :=
  mk_dom (words_el d) (input_value d) (stats_hidden d) v (wpm_el d) (acc_el d) (input_focused d).
Definition set_wpm_el v d :=
  mk_dom (words_el d) (input_value d) (stats_hidden d) (time_el d) v (acc_el d) (input_focused d).
Definition set_acc_el v d :=
  mk_dom (words_el d) (input_value d) (stats_hidden d) (time_el d) (wpm_el d) v (input_focused d).
Definition set_input_focused v d :=
  mk_dom (words_el d) (input_value d) (stats_hidden d) (time_el d) (wpm_el d) (acc_el d) v.

(** Run a computation on [wordsEl]'s spans. *)
Definition on_words {A} (m : M Spans A) : M World A :=
  focus (fun w => words_el (w_dom w)) (fun sp w => upd_dom (set_words_el sp) w) m.

(** The seven lookups of lines 4-10: [document.getElementById] returns
    the element or [null], and which it is depends on the page. *)
Record Page : Type := mk_page {
  has_words : bool;     (** [#words] *)
  has_input : bool;     (** [#input] *)
  has_restart : bool;   (** [#restart] *)
  has_stats : bool;     (** [#stats] *)
  has_time : bool;      (** [#time] *)
  has_wpm : bool;       (** [#wpm] *)
  has_acc : bool        (** [#acc] *)
}.

(** The page the script is written for: every element is found. *)
Definition full_page : Page := mk_page true true true true true true true.

(** Reading or writing a property of a looked-up element: a [TypeError]
    when the lookup returned [null]. *)
Definition need {St} (present : bool) : M St unit :=
  if present then st_ret tt else st_throw TypeError.

(** [!startTime] is false for a Number other than [0], [-0] and NaN;
    [null] is falsy. *)
Definition start_truthy (t : option f64) : bool :=
  match t with
  | None => false
  | Some x => f64_truthy x
  end.

Section Handlers.
Context (clock : nat -> f64) (random : nat -> f64).

(** [performance.now()] and [Math.random()]. *)
Definition performance_now : M World f64 :=
  fun w => (Normal (clock (w_clock w)),
            mk_world (w_sess w) (w_dom w) (S (w_clock w)) (w_rand w)).
Definition math_random : M World f64 :=
  fun w => (Normal (random (w_rand w)),
            mk_world (w_sess w) (w_dom w) (w_clock w) (S (w_rand w))).

(** [function startNewTest()], lines 57-69, on a page [p]: each use of
    an element first needs it found ([renderWords] starts with
    [wordsEl.innerHTML = ''], line 35). *)
Definition startNewTest_on (p : Page) : M World unit :=
  let* ws := pickWords math_random in
  st_modify (upd_sess (set_targetWords ws)) >>
  st_modify (upd_sess (set_targetText (join_elems [SPACE] ws))) >>
  need (has_words p) >> on_words (renderWords ws) >>
  need (has_input p) >> st_modify (upd_dom (set_input_value [])) >>
  st_modify (upd_sess (set_startTime None)) >>
  st_modify (upd_sess (set_ended false)) >>
  need (has_stats p) >> st_modify (upd_dom (set_stats_hidden true)) >>
  need (has_time p) >> st_modify (upd_dom (set_time_el (of_string "0.00"))) >>
  need (has_wpm p) >> st_modify (upd_dom (set_wpm_el (of_string "0"))) >>
  need (has_acc p) >> st_modify (upd_dom (set_acc_el (of_string "0%"))) >>
  need (has_input p) >> st_modify (upd_dom (set_input_focused true)).

(** [startNewTest] on the page the script is written for. *)
Definition startNewTest : M World unit := startNewTest_on full_page.

(** [function finishTest(typed)], lines 97-111. *)
Definition finishTest (typed : jsstr) : M World unit :=
  let* w := st_get in
  if ended (w_sess w) then st_ret tt
  else
    st_modify (upd_sess (set_ended true)) >>
    let* endTime := performance_now in
    let* w := st_get in
    let r := score64 (targetText (w_sess w)) typed (startTime (w_sess w)) endTime in
    st_modify (upd_dom (set_stats_hidden false)) >>
    st_modify (upd_dom (set_time_el (time_text64 r))) >>
    st_modify (upd_dom (set_wpm_el (wpm_text64 r))) >>
    st_modify (upd_dom (set_acc_el (acc_text64 r))).

(** [if (!startTime) startTime = performance.now();] *)
Definition stamp_start : M World unit :=
  let* w := st_get in
  if start_truthy (startTime (w_sess w)) then st_ret tt
  else let* t := performance_now in st_modify (upd_sess (set_startTime (Some t))).

(** The [input] listener, lines 116-127, run after the browser has set
    [input.value]. *)
Definition onInput : M World unit :=
  let* w := st_get in
  if ended (w_sess w) then st_ret tt
  else
    let typed := input_value (w_dom w) in
    (if decide (0 < length typed) then stamp_start else st_ret tt) >>
    on_words (updateVisuals (targetText (w_sess w)) typed) >>
    if bool_decide (typed = targetText (w_sess w)) || bool_decide (trimEnd typed = targetText (w_sess w))
    then stamp_start >> finishTest (trimEnd typed)
    else st_ret tt.

(** The [keydown] listener, lines 130-140. *)
Definition onKeydown (key : string) : M World unit :=
  if String.eqb key "Enter" then
    let* w := st_get in
    let typed := trimEnd (input_value (w_dom w)) in
    if bool_decide (0 < length typed) && negb (ended (w_sess w)) then
      if decide (typed = targetText (w_sess w)) then finishTest typed else st_ret tt
    else st_ret tt
  else st_ret tt.
End Handlers.

(** The event object a listener of a cancelable event receives, with
    the one field the script touches: [e.defaultPrevented]. *)
Record DomEvent : Type := mk_event { defaultPrevented : bool }.

(** [e.preventDefault()] on a cancelable event. *)
Definition preventDefault (e : DomEvent) : DomEvent := mk_event true.

(** The [paste] listener, line 114: [(e) => { e.preventDefault(); }].
    It returns the event object the browser inspects afterwards. *)
Definition onPaste (e : DomEvent) : M World DomEvent := st_ret (preventDefault e).

(** The events the listeners receive. *)
Inductive event : Type :=
  | EvInput (v : jsstr)        (** the value becomes [v], then [input] fires *)
  | EvKeydown (key : string)
  | EvPaste (text : jsstr)     (** the [paste] listener runs on a fresh event *)
  | EvRestart.                 (** a click on [#restart] *)

Section Events.
Context (clock : nat -> f64) (random : nat -> f64).

Definition dispatch (ev : event) : M World unit :=
  match ev with
  | EvInput v => st_modify (upd_dom (set_input_value v)) >> onInput clock
  | EvKeydown key => onKeydown clock key
  | EvPaste _ => let* _ := onPaste (mk_event false) in st_ret tt
  | EvRestart => startNewTest random
  end.

Definition step (w : World) (ev : event) : World := exec (dispatch ev) w.

(** The closure's variables as declared, over the page as loaded. *)
Definition declared (dom0 : Dom) : World := mk_world (mk_session [] [] None false) dom0 0 0.

(** Line 145: [startNewTest()] when the script runs. *)
Definition load (dom0 : Dom) : World := exec (startNewTest random) (declared dom0).

Inductive reachable : World -> Prop :=
  | reachable_load dom0 : reachable (load dom0)
  | reachable_step w ev : reachable w -> reachable (step w ev).
End Events.

(** ** What each handler does *)

(** The world [startNewTest] leaves after drawing [ws]. *)
Definition fresh (ws : list jsstr) (w : World) : World :=
  mk_world (mk_session (map Some ws) (join [SPACE] ws) None false)
    (mk_dom (rendered_from 0 (length ws) ws) [] true
       (of_string "0.00") (of_string "0") (of_string "0%") true)
    (w_clock w) (WORD_COUNT + w_rand w).

(** The world after [finishTest typed] when the test had not ended. *)
Definition finished (clock : nat -> f64) (typed : jsstr) (w : World) : World :=
  let s := w_sess w in
  let r := score64 (targetText s) typed (startTime s) (clock (w_clock w)) in
  mk_world (set_ended true s)
    (set_acc_el (acc_text64 r) (set_wpm_el (wpm_text64 r) (set_time_el (time_text64 r)
      (set_stats_hidden false (w_dom w)))))
    (S (w_clock w)) (w_rand w).

(** The world after [if (!startTime) startTime = performance.now()]. *)
Definition stamped (clock : nat -> f64) (w : World) : World :=
  if start_truthy (startTime (w_sess w)) then w
  else mk_world (set_startTime (Some (clock (w_clock w))) (w_sess w)) (w_dom w)
         (S (w_clock w)) (w_rand w).

Lemma st_bind_need_true {St B} (k : unit -> M St B) s : st_bind (need true) k s = k tt s.
Proof. reflexivity. Qed.

Lemma st_bind_need_false {St B} (k : unit -> M St B) s :
  st_bind (need false) k s = (Thrown TypeError, s).
Proof. reflexivity. Qed.

(** [startNewTest] is [startNewTest_on] the full page. *)
Lemma startNewTest_full random : startNewTest_on random full_page = startNewTest random.
Proof. unfold startNewTest. reflexivity. Qed.

Lemma on_words_renderWords ws w :
  on_words (renderWords (map Some ws)) w
    = (Normal tt, upd_dom (set_words_el (rendered_from 0 (length ws) ws)) w).
Proof. unfold on_words, focus. by rewrite renderWords_some. Qed.

Section HandlerEquations.
Context (clock : nat -> f64) (random : nat -> f64).

Lemma pick_loop_frame n copy sel w :
  snd (pick_loop (math_random random) n copy sel w)
    = mk_world (w_sess w) (w_dom w) (w_clock w) (n + w_rand w).
Proof.
  revert copy sel w. induction n as [|n IH]; intros copy sel w; [by destruct w|].
  cbn [pick_loop]. unfold st_bind at 1. cbn [math_random].
  destruct (splice1 _ _). rewrite IH. simpl. f_equal. lia.
Qed.

Lemma stamp_start_eq w : stamp_start clock w = (Normal tt, stamped clock w).
Proof. unfold stamp_start, stamped, st_bind, st_get. by destruct (start_truthy _). Qed.

Lemma finishTest_ended typed w :
  ended (w_sess w) = true -> finishTest clock typed w = (Normal tt, w).
Proof. intros H. unfold finishTest, st_bind, st_get. by rewrite H. Qed.

Lemma finishTest_eq typed w :
  ended (w_sess w) = false -> finishTest clock typed w = (Normal tt, finished clock typed w).
Proof. intros H. unfold finishTest, st_bind, st_get. rewrite H. reflexivity. Qed.
End HandlerEquations.

(** The world after the [input] listener when the test had not ended. *)
Definition input_running (clock : nat -> f64) (w : World) : World :=
  let typed := input_value (w_dom w) in
  let target := targetText (w_sess w) in
  let w1 := if decide (0 < length typed) then stamped clock w else w in
  let w2 := upd_dom (set_words_el (paint target typed (words_el (w_dom w1)))) w1 in
  if bool_decide (typed = target) || bool_decide (trimEnd typed = target)
  then finished clock (trimEnd typed) (stamped clock w2)
  else w2.

Lemma stamped_sess_ended clock w : ended (w_sess (stamped clock w)) = ended (w_sess w).
Proof. unfold stamped. by destruct (start_truthy _). Qed.

Lemma stamped_targetText clock w : targetText (w_sess (stamped clock w)) = targetText (w_sess w).
Proof. unfold stamped. by destruct (start_truthy _). Qed.

Lemma stamped_dom clock w : w_dom (stamped clock w) = w_dom w.
Proof. unfold stamped. by destruct (start_truthy _). Qed.

Section InputEquations.
Context (clock : nat -> f64).

Lemma onInput_ended w : ended (w_sess w) = true -> onInput clock w = (Normal tt, w).
Proof. intros H. unfold onInput, st_bind, st_get. by rewrite H. Qed.

Lemma onInput_running w :
  ended (w_sess w) = false -> onInput clock w = (Normal tt, input_running clock w).
Proof.
  intros H. unfold onInput, input_running. rewrite (st_bind_normal _ _ _ w w) by done.
  rewrite H. set (typed := input_value (w_dom w)). set (target := targetText (w_sess w)).
  set (w1 := if decide (0 < length typed) then stamped clock w else w).
  assert (E1 : (if decide (0 < length typed) then stamp_start clock else st_ret tt) w = (Normal tt, w1)).
  { subst w1. case_decide; [apply stamp_start_eq | done]. }
  rewrite (st_bind_normal _ _ _ _ _ E1).
  assert (Hw1 : ended (w_sess w1) = false).
  { subst w1. case_decide; [by rewrite stamped_sess_ended | done]. }
  unfold on_words, focus at 1. rewrite (st_bind_normal _ _ _ tt
    (upd_dom (set_words_el (paint target typed (words_el (w_dom w1)))) w1)).
  2: { unfold focus. by rewrite updateVisuals_run. }
  destruct (bool_decide _ || bool_decide _); [|done].
  rewrite (st_bind_normal _ _ _ _ _ (stamp_start_eq clock _)).
  apply finishTest_eq. rewrite stamped_sess_ended. exact Hw1.
Qed.
End InputEquations.


Section Restart.
Context (random : nat -> f64).
Hypothesis random_unit : forall i, f64_in_unit (random i).
Lemma math_random_in_unit w :
  exists r w', math_random random w = (Normal r, w') /\ f64_in_unit r.
Proof. eexists _, _. split; [reflexivity | apply random_unit]. Qed.
Lemma pick_loop_world n copy w :
  n <= length copy -> (Z.of_nat (length copy) < 2 ^ 32)%Z ->
  exists ws, pick_loop (math_random random) n copy [] w
      = (Normal (map Some ws), mk_world (w_sess w) (w_dom w) (w_clock w) (n + w_rand w))
    /\ length ws = n /\ ws ⊆+ copy.
Proof.
  intros Hn Hc.
  destruct (pick_loop_spec _ math_random_in_unit n copy [] w Hc) as (ws & rest & w' & Hrun & Hlen & Hp).
  pose proof (pick_loop_frame random n copy [] w) as Hf.
  rewrite Hrun in Hf. cbn [snd] in Hf. subst w'.
  exists ws. rewrite Hrun. replace (n - length copy) with 0 by lia. simpl.
  split_and!; [by rewrite app_nil_r | lia | by eapply app_perm_submseteq].
Qed.
Lemma pickWords_world w :
  exists ws, pickWords (math_random random) w
      = (Normal (map Some ws), mk_world (w_sess w) (w_dom w) (w_clock w) (WORD_COUNT + w_rand w))
    /\ length ws = WORD_COUNT /\ ws ⊆+ WORD_BANK.
Proof. apply (pick_loop_world WORD_COUNT WORD_BANK w WORD_COUNT_le_bank). rewrite WORD_BANK_length. lia. Qed.
Lemma startNewTest_run w :
  exists ws, startNewTest random w = (Normal tt, fresh ws w)
    /\ length ws = WORD_COUNT /\ ws ⊆+ WORD_BANK.
Proof.
  destruct (pickWords_world w) as (ws & Hpick & Hlen & Hsub).
  exists ws. split_and!; [|done|done].
  unfold startNewTest, startNewTest_on. rewrite (st_bind_normal _ _ _ _ _ Hpick).
  unfold st_bind, st_modify, on_words, focus, need, st_ret. cbn [full_page has_words has_input has_stats has_time has_wpm has_acc].
  cbn [fst snd upd_sess upd_dom set_targetWords set_targetText w_sess w_dom w_clock w_rand words_el].
  rewrite renderWords_some, join_elems_some. reflexivity.
Qed.
Lemma startNewTest_fresh w :
  exists ws, exec (startNewTest random) w = fresh ws w
    /\ length ws = WORD_COUNT /\ ws ⊆+ WORD_BANK.
Proof.
  destruct (startNewTest_run w) as (ws & Hrun & Hl & Hs). exists ws. unfold exec.
  rewrite Hrun. split; [reflexivity | exact (conj Hl Hs)].
Qed.
End Restart.
