(* ===== verification/SessionInv.v ===== *)
(** * The invariant of the running page

    What holds in every world the script can reach from loading the page
    through any sequence of events ([reachable]), under two facts about
    the environment: [performance.now()] is positive and [Math.random()]
    is in [[0, 1)].  The invariant [inv] ties the words element, the
    input and the stats to the session variables; its consequences are
    the session theorems: the [Enter] path never changes anything, a
    finished test always shows [100.0%], and the test ends exactly when
    the trimmed input equals the target. *)

From S2P Require Import Prelude JsString NumFormat Double WordSource Render Scorer Session.
Local Open Scope ft_scope.

(** The words of a test: [WORD_COUNT] words drawn from the bank. *)
Definition good_words (ws : list jsstr) : Prop :=
  length ws = WORD_COUNT /\ ws ⊆+ WORD_BANK.

Lemma good_words_ok ws : good_words ws -> ws <> [] /\ Forall word_ok ws.
Proof.
  intros [Hl Hs]. split.
  - intros ->. unfold WORD_COUNT in Hl. simpl in Hl. lia.
  - apply Forall_forall. intros w Hw.
    eapply Forall_forall; [exact WORD_BANK_ok|]. by eapply elem_of_submseteq.
Qed.

Lemma good_target ws :
  good_words ws -> join [SPACE] ws <> [] /\ trimEnd (join [SPACE] ws) = join [SPACE] ws.
Proof. intros H. destruct (good_words_ok ws H). by apply trimEnd_join. Qed.

(** A target of the script has at most [10 * 11] code units. *)
Lemma good_target_length ws : good_words ws -> length (join [SPACE] ws) <= 110.
Proof.
  intros [Hl Hs]. etransitivity; [apply (join_length_le ws 10)|].
  - apply Forall_forall. intros w Hw. pose proof WORD_BANK_short as H.
    rewrite Forall_forall in H. apply H. by eapply elem_of_submseteq.
  - rewrite Hl. unfold WORD_COUNT. lia.
Qed.

Record inv (w : World) : Prop := {
  inv_words : exists ws, targetWords (w_sess w) = map Some ws
    /\ targetText (w_sess w) = join [SPACE] ws /\ good_words ws;
  inv_text : map cs_text (words_el (w_dom w)) = targetText (w_sess w);
  inv_colour : ended (w_sess w) = false -> forall i sp,
    words_el (w_dom w) !! i = Some sp ->
    cs_class sp = classify (targetText (w_sess w)) (input_value (w_dom w)) i;
  inv_unmatched : ended (w_sess w) = false ->
    trimEnd (input_value (w_dom w)) <> targetText (w_sess w);
  inv_hidden : ended (w_sess w) = false -> stats_hidden (w_dom w) = true;
  inv_started : input_value (w_dom w) <> [] \/ ended (w_sess w) = true ->
    start_truthy (startTime (w_sess w)) = true;
  inv_result : ended (w_sess w) = true ->
    stats_hidden (w_dom w) = false /\ acc_el (w_dom w) = of_string "100.0%"
}.

Lemma inv_target w : inv w ->
  targetText (w_sess w) <> [] /\ trimEnd (targetText (w_sess w)) = targetText (w_sess w).
Proof. intros Hw. destruct (inv_words w Hw) as (ws & _ & -> & Hg). by apply good_target. Qed.

Lemma inv_target_length w : inv w -> 0 < length (targetText (w_sess w)) <= 110.
Proof.
  intros Hw. destruct (inv_words w Hw) as (ws & _ & -> & Hg).
  destruct (good_target ws Hg) as [Hne _]. pose proof (good_target_length ws Hg).
  split; [|done]. destruct (join [SPACE] ws); [done | simpl; lia].
Qed.

Lemma step_input clock random w v :
  step clock random w (EvInput v)
    = let w0 := upd_dom (set_input_value v) w in
      if ended (w_sess w) then w0 else input_running clock w0.
Proof.
  unfold step, exec, dispatch, st_bind, st_modify. cbn zeta.
  destruct (ended (w_sess w)) eqn:E.
  - by rewrite onInput_ended.
  - by rewrite onInput_running.
Qed.

Lemma step_paste clock random w t : step clock random w (EvPaste t) = w.
Proof. reflexivity. Qed.

Lemma step_restart clock random w : step clock random w EvRestart = exec (startNewTest random) w.
Proof. reflexivity. Qed.

Section Invariant.
Context (clock : nat -> f64) (random : nat -> f64).
Hypothesis clock_pos : forall i, f64_pos (clock i).
Hypothesis random_unit : forall i, f64_in_unit (random i).

Lemma stamped_truthy w : start_truthy (startTime (w_sess (stamped clock w))) = true.
Proof.
  unfold stamped. destruct (start_truthy (startTime (w_sess w))) eqn:E; [done|].
  cbn [start_truthy w_sess startTime set_startTime]. apply f64_pos_truthy, clock_pos.
Qed.

Lemma inv_fresh ws w : good_words ws -> inv (fresh ws w).
Proof.
  intros Hg. destruct (good_target ws Hg) as [Hne _].
  split; cbn [fresh w_sess w_dom targetWords targetText ended input_value
              stats_hidden words_el startTime acc_el].
  - by exists ws.
  - apply (rendered_from_text 0).
  - intros _ i sp Hsp. unfold classify. rewrite lookup_nil.
    pose proof (rendered_from_pending 0 (length ws) ws) as HP. rewrite Forall_forall in HP.
    apply HP. by eapply list_elem_of_lookup_2.
  - intros _. by apply not_eq_sym.
  - done.
  - by intros [?|?].
  - done.
Qed.

Lemma inv_restart w : inv (exec (startNewTest random) w).
Proof.
  destruct (startNewTest_fresh random random_unit w) as (ws & -> & Hl & Hs).
  by apply inv_fresh.
Qed.

Lemma inv_load dom0 : inv (load random dom0).
Proof. apply inv_restart. Qed.

(** The [keydown] listener changes nothing in a world of the invariant:
    the trimmed input never equals the target while the test runs. *)
Lemma keydown_unchanged w key : inv w -> step clock random w (EvKeydown key) = w.
Proof.
  intros Hw. unfold step, exec, dispatch, onKeydown.
  destruct (String.eqb key "Enter"); [|done].
  unfold st_bind, st_get. cbn [fst snd].
  destruct (ended (w_sess w)) eqn:E; [by rewrite andb_false_r|].
  destruct (bool_decide _ && _); [|done].
  rewrite decide_False; [done|]. by apply (inv_unmatched w Hw).
Qed.

Lemma stamped_targetWords w : targetWords (w_sess (stamped clock w)) = targetWords (w_sess w).
Proof. unfold stamped. by destruct (start_truthy _). Qed.

Lemma stamped_keeps_truthy w :
  start_truthy (startTime (w_sess w)) = true -> stamped clock w = w.
Proof. unfold stamped. by intros ->. Qed.

Lemma inv_input_ended w v :
  inv w -> ended (w_sess w) = true -> inv (upd_dom (set_input_value v) w).
Proof.
  intros Hw He. destruct Hw as [Hwords Htext _ _ _ Hstart Hres].
  split; cbn [upd_dom set_input_value w_sess w_dom words_el input_value stats_hidden acc_el];
    rewrite ?He; try done; [intros _; apply Hstart; by right | intros _; by apply Hres].
Qed.

(** The [input] listener on a running test whose new value [v] does not
    match: the spans are recoloured, the test keeps running. *)
Lemma inv_input_nomatch w v :
  inv w -> ended (w_sess w) = false -> trimEnd v <> targetText (w_sess w) ->
  v <> targetText (w_sess w) ->
  inv (input_running clock (upd_dom (set_input_value v) w)).
Proof.
  intros Hw He Hm1 Hm2. unfold input_running.
  cbn [upd_dom set_input_value w_sess w_dom input_value].
  rewrite bool_decide_false by done. rewrite bool_decide_false by done. cbn [orb].
  set (w1 := if decide (0 < length v) then _ else _).
  assert (Hd1 : w_dom w1 = set_input_value v (w_dom w)).
  { subst w1. case_decide; [apply stamped_dom | done]. }
  assert (Hs1 : targetText (w_sess w1) = targetText (w_sess w) /\ targetWords (w_sess w1) = targetWords (w_sess w)
                /\ ended (w_sess w1) = ended (w_sess w)).
  { subst w1. case_decide; [|done]. by rewrite stamped_targetText, stamped_targetWords, stamped_sess_ended. }
  destruct Hs1 as (HT & HW & HE).
  destruct Hw as [Hwords Htext Hcol Hun Hhid Hstart Hres].
  split; cbn [upd_dom set_words_el w_sess w_dom words_el input_value stats_hidden acc_el];
    rewrite ?Hd1, ?HT, ?HW, ?HE; cbn [set_input_value words_el input_value stats_hidden].
  - done.
  - by rewrite paint_text.
  - intros _ i sp Hsp.
    destruct (paint (targetText (w_sess w)) v (words_el (w_dom w)) !! i) eqn:Hl; [|done].
    injection Hsp as <-. destruct (words_el (w_dom w) !! i) as [sp0|] eqn:Hl0.
    + pose proof (paint_class (targetText (w_sess w)) v _ _ _ Hl0) as Hc. rewrite Hl in Hc. by injection Hc.
    + unfold paint in Hl. rewrite list_lookup_imap, Hl0 in Hl. done.
  - by intros _.
  - intros _. by apply Hhid.
  - intros [Hv|Hc]; [|by rewrite He in Hc].
    subst w1. rewrite decide_True; [apply stamped_truthy|]. destruct v; [done | simpl; lia].
  - by rewrite He.
Qed.

(** The [input] listener on a running test whose new value matches
    once trimmed: the test finishes and shows an accuracy of 100%. *)
Lemma inv_input_match w v :
  inv w -> ended (w_sess w) = false -> trimEnd v = targetText (w_sess w) ->
  inv (input_running clock (upd_dom (set_input_value v) w)).
Proof.
  intros Hw He Hm. destruct (inv_target w Hw) as [Hne _]. pose proof (inv_target_length w Hw) as HL.
  unfold input_running.
  cbn [upd_dom set_input_value w_sess w_dom input_value].
  rewrite (bool_decide_true (trimEnd v = _)) by done. rewrite orb_true_r.
  set (w1 := if decide (0 < length v) then _ else _).
  assert (Hd1 : w_dom w1 = set_input_value v (w_dom w)).
  { subst w1. case_decide; [apply stamped_dom | done]. }
  assert (Hs1 : targetText (w_sess w1) = targetText (w_sess w)
                /\ targetWords (w_sess w1) = targetWords (w_sess w)).
  { subst w1. case_decide; [|done]. by rewrite stamped_targetText, stamped_targetWords. }
  destruct Hs1 as (HT & HW).
  set (w2 := upd_dom _ w1).
  destruct Hw as [Hwords Htext _ _ _ _ _].
  split; unfold finished; cbn [set_ended set_acc_el set_wpm_el set_time_el set_stats_hidden
    w_sess w_dom words_el input_value stats_hidden acc_el ended targetWords targetText startTime];
    rewrite ?stamped_targetWords, ?stamped_targetText, ?stamped_dom; subst w2;
    cbn [upd_dom set_words_el w_sess w_dom words_el input_value stats_hidden acc_el];
    rewrite ?HT, ?HW, ?Hd1; cbn [set_input_value words_el].
  - done.
  - by rewrite paint_text.
  - done.
  - done.
  - done.
  - intros _. apply stamped_truthy.
  - intros _. split; [done|]. rewrite Hm. apply score64_exact_text; lia.
Qed.

Lemma inv_step w ev : inv w -> inv (step clock random w ev).
Proof.
  intros Hw. destruct ev as [v|key|t|].
  - rewrite step_input. cbn zeta. destruct (ended (w_sess w)) eqn:He.
    + by apply inv_input_ended.
    + destruct (decide (trimEnd v = targetText (w_sess w))) as [Hm|Hm].
      * by apply inv_input_match.
      * apply inv_input_nomatch; [done..|]. intros ->.
        apply Hm. apply (inv_target w Hw).
  - by rewrite keydown_unchanged.
  - done.
  - apply inv_restart.
Qed.

Lemma inv_reachable w : reachable clock random w -> inv w.
Proof.
  induction 1 as [dom0 | w ev _ IH].
  - apply inv_load.
  - by apply inv_step.
Qed.

(** C1.  The invariant holds in every world the page can reach: the
    words shown are the target's, the colours follow the input while
    the test runs, the trimmed input differs from the target while it
    runs, and a finished test shows its stats with [100.0%]. *)
Theorem reachable_inv w : reachable clock random w -> inv w.
Proof. exact (inv_reachable w). Qed.
End Invariant.

(** ** Consequences *)

Lemma input_running_ended clock w :
  ended (w_sess w) = false ->
  ended (w_sess (input_running clock w))
    = bool_decide (input_value (w_dom w) = targetText (w_sess w))
      || bool_decide (trimEnd (input_value (w_dom w)) = targetText (w_sess w)).
Proof.
  intros He. unfold input_running.
  destruct (bool_decide _ || bool_decide _); [done|].
  cbn [upd_dom w_sess]. case_decide; [by rewrite stamped_sess_ended | done].
Qed.

(** Spans coloured by [classify], one per target unit: those shown
    [correct] are as many as the equal pairs of the two strings. *)
Lemma correct_spans_equal_pairs target typed (spans : Spans) :
  length spans = length target ->
  (forall i sp, spans !! i = Some sp -> cs_class sp = classify target typed i) ->
  length (filter (fun sp => cs_class sp = Correct) spans) = equal_pairs target typed.
Proof.
  unfold equal_pairs. revert typed spans.
  induction target as [|t ts IH]; intros typed [|sp sps] Hl Hc; simpl in Hl; try lia.
  - by destruct typed.
  - pose proof (Hc 0 sp eq_refl) as H0.
    assert (Hs : forall i sp', sps !! i = Some sp' -> cs_class sp' = classify ts (tail typed) i)
      by (intros i sp' Hi; rewrite <- (classify_cons t ts); exact (Hc (S i) sp' Hi)).
    specialize (IH (tail typed) sps ltac:(lia) Hs). rewrite filter_cons.
    destruct typed as [|g gs]; unfold classify in H0; cbn [tail zip zip_with] in H0, IH |- *;
      rewrite ?filter_cons; cbn [fst snd lookup list_lookup] in *;
      repeat case_decide; cbn [length]; (congruence || lia).
Qed.

Section Consequences.
Context (clock : nat -> f64) (random : nat -> f64).
Hypothesis clock_pos : forall i, f64_pos (clock i).
Hypothesis random_unit : forall i, f64_in_unit (random i).

(** C4.  The [keydown] listener never changes the page: in every
    reachable world, pressing any key, [Enter] included, leaves the
    world as it was.  The [Enter] completion path of lines 130-140 is
    dead code, since the [input] listener has already finished any test
    whose trimmed input equals the target. *)
Theorem keydown_never_changes w key :
  reachable clock random w -> step clock random w (EvKeydown key) = w.
Proof.
  intros Hr. apply keydown_unchanged. by apply (inv_reachable clock random clock_pos random_unit).
Qed.

(** C5.  A finished test always shows its stats with an accuracy of
    [100.0%]: [finishTest] is only called with a text equal to the
    target, so an accuracy below 100 is never displayed. *)
Theorem finished_shows_100 w :
  reachable clock random w -> ended (w_sess w) = true ->
  stats_hidden (w_dom w) = false /\ acc_el (w_dom w) = of_string "100.0%".
Proof.
  intros Hr He. by apply (inv_result w (inv_reachable clock random clock_pos random_unit w Hr)).
Qed.

(** C3.  Completion detection: on a running test, an [input] event ends
    the test exactly when the new value, stripped of trailing white
    space, equals the target text. *)
Theorem input_ends_iff w v :
  reachable clock random w -> ended (w_sess w) = false ->
  ended (w_sess (step clock random w (EvInput v))) = true <-> trimEnd v = targetText (w_sess w).
Proof.
  intros Hr He. pose proof (inv_reachable clock random clock_pos random_unit w Hr) as Hw.
  rewrite step_input. cbn zeta. rewrite He, input_running_ended by done.
  cbn [upd_dom set_input_value w_dom w_sess input_value].
  rewrite orb_true_iff, !bool_decide_eq_true. split; [|by right].
  intros [->|H]; [apply (inv_target w Hw)|done].
Qed.

(** C6.  Once ended, a test stays ended and its displayed results are
    frozen: any event but a restart leaves the session variables and
    the stats as they are. *)
Theorem ended_latches w ev :
  reachable clock random w -> ended (w_sess w) = true -> ev <> EvRestart ->
  let w' := step clock random w ev in
  w_sess w' = w_sess w /\ stats_hidden (w_dom w') = stats_hidden (w_dom w)
  /\ time_el (w_dom w') = time_el (w_dom w) /\ wpm_el (w_dom w') = wpm_el (w_dom w)
  /\ acc_el (w_dom w') = acc_el (w_dom w) /\ words_el (w_dom w') = words_el (w_dom w).
Proof.
  intros Hr He Hev. cbn zeta.
  destruct ev as [v|key|t|]; [| | |done].
  - rewrite step_input. cbn zeta. rewrite He.
    cbn [upd_dom set_input_value w_sess w_dom stats_hidden time_el wpm_el acc_el words_el].
    split_and!; reflexivity.
  - by rewrite keydown_unchanged by (exact (inv_reachable clock random clock_pos random_unit w Hr)).
  - done.
Qed.

(** C14.  While a test runs, the spans shown [correct] are exactly as
    many as [countCorrectChars] counts for the input: the colours of
    [updateVisuals] and the score of [finishTest] agree. *)
Theorem running_correct_count w :
  reachable clock random w -> ended (w_sess w) = false ->
  length (filter (fun sp => cs_class sp = Correct) (words_el (w_dom w)))
    = countCorrectChars (targetText (w_sess w)) (input_value (w_dom w)).
Proof.
  intros Hr He. pose proof (inv_reachable clock random clock_pos random_unit w Hr) as Hw.
  rewrite count_equal_pairs. apply correct_spans_equal_pairs.
  - rewrite <- (inv_text w Hw). by rewrite length_map.
  - exact (inv_colour w Hw He).
Qed.

(** C7.  A restart, in any state, starts a fresh test: ten new words of
    the bank, the words element showing them all pending, an empty
    input, [startTime] null, [ended] false, the stats hidden and reset. *)
Theorem restart_resets w :
  exists ws, step clock random w EvRestart = fresh ws w /\ good_words ws
    /\ map cs_text (words_el (w_dom (fresh ws w))) = join [SPACE] ws.
Proof.
  destruct (startNewTest_fresh random random_unit w) as (ws & Hf & Hl & Hs).
  exists ws. split_and!.
  - rewrite step_restart. exact Hf.
  - split; assumption.
  - apply (rendered_from_text 0).
Qed.
End Consequences.

(** ** A concrete page

    The clock reads the double [1000 + 500 k] milliseconds at its [k]-th
    call (from the twentieth call on it stays at [11000]), every
    draw is [0], and the page starts empty.  The first test's target is
    [time person year way day thing man world life hand]. *)
Definition demo_clock (i : nat) : f64 := f64_of_Z (Z.of_nat (1000 + 500 * Nat.min i 20)).
Definition demo_dom : Dom := mk_dom [] [] false [] [] [] false.
Definition demo_load : World := load zero_draws demo_dom.
Definition demo_target : jsstr :=
  of_string "time person year way day thing man world life hand".
Definition demo_finished : World :=
  step demo_clock zero_draws demo_load (EvInput (demo_target ++ of_string " ")).

Lemma demo_clock_table :
  Forall (fun i => f64_is_pos_value (demo_clock i) (inject_Z (Z.of_nat (1000 + 500 * i))) = true)
    (seq 0 21).
Proof. refine (bool_decide_unpack _ _). vm_compute. reflexivity. Qed.

Lemma demo_clock_spec i :
  f64_pos (demo_clock i)
  /\ exists a, f64_value (demo_clock i) = Some a /\ (a == inject_Z (Z.of_nat (1000 + 500 * Nat.min i 20)))%Q.
Proof.
  replace (demo_clock i) with (demo_clock (Nat.min i 20))
    by (unfold demo_clock; do 3 f_equal; lia).
  apply f64_is_pos_value_spec. pose proof demo_clock_table as H. rewrite Forall_forall in H.
  apply H, elem_of_seq. lia.
Qed.

Lemma demo_clock_pos : forall i, f64_pos (demo_clock i).
Proof. intros i. apply demo_clock_spec. Qed.

Lemma demo_load_reachable : reachable demo_clock zero_draws demo_load.
Proof. apply reachable_load. Qed.

Lemma demo_finished_reachable : reachable demo_clock zero_draws demo_finished.
Proof. apply reachable_step, demo_load_reachable. Qed.

Lemma demo_load_running : ended (w_sess demo_load) = false.
Proof. vm_compute. reflexivity. Qed.

Lemma demo_finished_ended : ended (w_sess demo_finished) = true.
Proof. vm_compute. reflexivity. Qed.

Lemma reachable_inv_witness : reachable demo_clock zero_draws demo_load /\ inv demo_load.
Proof.
  split; [exact demo_load_reachable|].
  exact (reachable_inv demo_clock zero_draws demo_clock_pos zero_draws_in_unit _ demo_load_reachable).
Defined.

Lemma keydown_never_changes_witness :
  reachable demo_clock zero_draws demo_load
  /\ step demo_clock zero_draws demo_load (EvKeydown "Enter") = demo_load.
Proof.
  split; [exact demo_load_reachable|].
  exact (keydown_never_changes demo_clock zero_draws demo_clock_pos zero_draws_in_unit
           demo_load "Enter" demo_load_reachable).
Defined.

Lemma finished_shows_100_witness :
  reachable demo_clock zero_draws demo_finished /\ ended (w_sess demo_finished) = true
  /\ stats_hidden (w_dom demo_finished) = false
  /\ acc_el (w_dom demo_finished) = of_string "100.0%".
Proof.
  split_and!; [exact demo_finished_reachable | exact demo_finished_ended |
    exact (proj1 (finished_shows_100 demo_clock zero_draws demo_clock_pos zero_draws_in_unit
             demo_finished demo_finished_reachable demo_finished_ended)) |
    exact (proj2 (finished_shows_100 demo_clock zero_draws demo_clock_pos zero_draws_in_unit
             demo_finished demo_finished_reachable demo_finished_ended))].
Defined.

Lemma input_ends_iff_witness :
  reachable demo_clock zero_draws demo_load /\ ended (w_sess demo_load) = false
  /\ (ended (w_sess (step demo_clock zero_draws demo_load (EvInput (demo_target ++ of_string " ")))) = true
      <-> trimEnd (demo_target ++ of_string " ") = targetText (w_sess demo_load)).
Proof.
  split_and!; [exact demo_load_reachable | exact demo_load_running |].
  exact (input_ends_iff demo_clock zero_draws demo_clock_pos zero_draws_in_unit demo_load _
           demo_load_reachable demo_load_running).
Defined.

Lemma ended_latches_witness :
  reachable demo_clock zero_draws demo_finished /\ ended (w_sess demo_finished) = true
  /\ EvInput [] <> EvRestart
  /\ (let w' := step demo_clock zero_draws demo_finished (EvInput []) in
      w_sess w' = w_sess demo_finished
      /\ stats_hidden (w_dom w') = stats_hidden (w_dom demo_finished)
      /\ time_el (w_dom w') = time_el (w_dom demo_finished)
      /\ wpm_el (w_dom w') = wpm_el (w_dom demo_finished)
      /\ acc_el (w_dom w') = acc_el (w_dom demo_finished)
      /\ words_el (w_dom w') = words_el (w_dom demo_finished)).
Proof.
  assert (Hne : EvInput [] <> EvRestart) by discriminate.
  split_and!; [exact demo_finished_reachable | exact demo_finished_ended | exact Hne |].
  exact (ended_latches demo_clock zero_draws demo_clock_pos zero_draws_in_unit demo_finished
           (EvInput []) demo_finished_reachable demo_finished_ended Hne).
Defined.

Lemma restart_resets_witness :
  (forall i, f64_pos (demo_clock i)) /\ (forall i, f64_in_unit (zero_draws i)) /\
  exists ws, step demo_clock zero_draws demo_finished EvRestart = fresh ws demo_finished
    /\ good_words ws
    /\ map cs_text (words_el (w_dom (fresh ws demo_finished))) = join [SPACE] ws.
Proof.
  split_and!; [exact demo_clock_pos | exact zero_draws_in_unit |].
  exact (restart_resets demo_clock zero_draws zero_draws_in_unit demo_finished).
Defined.

(** The demo page after typing [tine]: three of its four units correct. *)
Definition demo_typed : World := step demo_clock zero_draws demo_load (EvInput (of_string "tine")).

Lemma demo_typed_reachable : reachable demo_clock zero_draws demo_typed.
Proof. apply reachable_step, demo_load_reachable. Qed.

Lemma demo_typed_running : ended (w_sess demo_typed) = false.
Proof. vm_compute. reflexivity. Qed.

Lemma running_correct_count_witness :
  reachable demo_clock zero_draws demo_typed /\ ended (w_sess demo_typed) = false
  /\ length (filter (fun sp => cs_class sp = Correct) (words_el (w_dom demo_typed)))
       = countCorrectChars (targetText (w_sess demo_typed)) (input_value (w_dom demo_typed)).
Proof.
  split_and!; [exact demo_typed_reachable | exact demo_typed_running |].
  exact (running_correct_count demo_clock zero_draws demo_clock_pos zero_draws_in_unit
           demo_typed demo_typed_reachable demo_typed_running).
Defined.
