(* ===== verification/Refinement.v ===== *)
(** * The input tracker's contract and its refinement by the script

    The specification describes the input tracker as a machine with the
    states [NOT_STARTED], [RUNNING] and [FINISHED] over the target text
    and the typed text, and the session controller's restart.  [astep]
    states that machine as a relation: which abstract state may follow
    which on each kind of event.  [abs] reads the abstract state off a
    world of the script ([ended] and the truthiness of [startTime] give
    the phase), and [abs_step] is the refinement: every step the script
    takes from a reachable world is a step of the contract. *)

From S2P Require Import Prelude JsString NumFormat Double WordSource Render Scorer Session SessionInv.
Local Open Scope ft_scope.

Inductive phase : Type :=
  | NotStarted
  | Running
  | Finished.

#[export] Instance phase_eq_dec : EqDecision phase.
Proof. solve_decision. Defined.

Record AState : Type := mk_astate {
  a_phase : phase;
  a_target : jsstr;
  a_typed : jsstr
}.

Inductive aevent : Type :=
  | AInput (v : jsstr)     (** the typed text becomes [v] *)
  | ASubmit                (** the acknowledgement key *)
  | ARestart
  | ANop.                  (** a cancelled paste, any other key *)

(** The contract of section 4.3 of the specification. *)
Inductive astep : AState -> aevent -> AState -> Prop :=
  | astep_idle T typed :
      astep (mk_astate NotStarted T typed) (AInput []) (mk_astate NotStarted T [])
  | astep_start T typed v :
      v <> [] -> trimEnd v <> T ->
      astep (mk_astate NotStarted T typed) (AInput v) (mk_astate Running T v)
  | astep_type T typed v :
      trimEnd v <> T ->
      astep (mk_astate Running T typed) (AInput v) (mk_astate Running T v)
  | astep_finish p T typed v :
      p <> Finished -> trimEnd v = T ->
      astep (mk_astate p T typed) (AInput v) (mk_astate Finished T v)
  | astep_ignore T typed v :
      astep (mk_astate Finished T typed) (AInput v) (mk_astate Finished T v)
  | astep_submit p T typed :
      p <> Finished -> trimEnd typed = T ->
      astep (mk_astate p T typed) ASubmit (mk_astate Finished T typed)
  | astep_submit_noop a :
      a_phase a = Finished \/ trimEnd (a_typed a) <> a_target a ->
      astep a ASubmit a
  | astep_restart a T :
      T <> [] -> astep a ARestart (mk_astate NotStarted T [])
  | astep_nop a :
      astep a ANop a.

(** Runs of the contract: the abstract states a sequence of abstract
    events may pass through. *)
Inductive asteps : AState -> list aevent -> AState -> Prop :=
  | asteps_nil a : asteps a [] a
  | asteps_cons a e a' evs a'' : astep a e a' -> asteps a' evs a'' -> asteps a (e :: evs) a''.

(** The phase a world is in. *)
Definition abs_phase (w : World) : phase :=
  if ended (w_sess w) then Finished
  else if start_truthy (startTime (w_sess w)) then Running else NotStarted.

Definition abs (w : World) : AState :=
  mk_astate (abs_phase w) (targetText (w_sess w)) (input_value (w_dom w)).

Definition abs_event (ev : event) : aevent :=
  match ev with
  | EvInput v => AInput v
  | EvKeydown key => if String.eqb key "Enter" then ASubmit else ANop
  | EvPaste _ => ANop
  | EvRestart => ARestart
  end.

(** The tagged variant section 7 of the specification asks for in
    place of the two flags [ended] and [startTime]: each phase with the
    data it carries, so that [ended] without a start cannot be written. *)
Inductive session_state : Type :=
  | SNotStarted
  | SRunning (startedAt : f64)
  | SFinished (startedAt : f64).

Definition state_phase (x : session_state) : phase :=
  match x with
  | SNotStarted => NotStarted
  | SRunning _ => Running
  | SFinished _ => Finished
  end.

(** The variant the flags of a session encode, with the truthiness of
    [!startTime]; [None] for the combinations it cannot represent. *)
Definition tag_session (s : Session) : option session_state :=
  match ended s, startTime s with
  | false, None => Some SNotStarted
  | false, Some t => Some (if f64_truthy t then SRunning t else SNotStarted)
  | true, Some t => if f64_truthy t then Some (SFinished t) else None
  | true, None => None
  end.

Section Refine.
Context (clock : nat -> f64) (random : nat -> f64).
Hypothesis clock_pos : forall i, f64_pos (clock i).
Hypothesis random_unit : forall i, f64_in_unit (random i).

(** The [input] listener on a running test that does not finish it. *)
Lemma abs_input_nomatch w v :
  ended (w_sess w) = false -> v <> targetText (w_sess w) -> trimEnd v <> targetText (w_sess w) ->
  abs (input_running clock (upd_dom (set_input_value v) w))
    = mk_astate (if decide (0 < length v) then Running else abs_phase w)
        (targetText (w_sess w)) v.
Proof.
  intros He Hm1 Hm2. unfold input_running, abs, abs_phase.
  cbn [upd_dom set_input_value w_sess w_dom input_value].
  rewrite !bool_decide_false by done. cbn [orb upd_dom w_sess w_dom set_words_el input_value].
  case_decide.
  - rewrite stamped_sess_ended, stamped_targetText, stamped_dom, (stamped_truthy clock clock_pos).
    cbn [upd_dom w_sess w_dom set_input_value input_value]. by rewrite He.
  - cbn [upd_dom w_sess w_dom set_input_value input_value]. by rewrite He.
Qed.

(** The [input] listener on a running test that finishes it. *)
Lemma abs_input_match w v :
  ended (w_sess w) = false -> trimEnd v = targetText (w_sess w) ->
  abs (input_running clock (upd_dom (set_input_value v) w))
    = mk_astate Finished (targetText (w_sess w)) v.
Proof.
  intros He Hm. unfold input_running, abs, abs_phase.
  cbn [upd_dom set_input_value w_sess w_dom input_value].
  rewrite (bool_decide_true (trimEnd v = _)) by done. rewrite orb_true_r.
  unfold finished. cbn [set_ended ended w_sess w_dom set_acc_el set_wpm_el set_time_el
    set_stats_hidden input_value targetText].
  rewrite stamped_targetText, stamped_dom. cbn [upd_dom w_sess w_dom set_words_el input_value].
  case_decide; [by rewrite stamped_targetText, stamped_dom | done].
Qed.

Lemma abs_input w v :
  inv w -> astep (abs w) (AInput v) (abs (step clock random w (EvInput v))).
Proof.
  intros Hw. destruct (inv_target w Hw) as [_ HtT].
  rewrite step_input. cbn zeta. destruct (ended (w_sess w)) eqn:He.
  - unfold abs, abs_phase. rewrite He. cbn [upd_dom w_sess w_dom set_input_value input_value].
    rewrite He. apply astep_ignore.
  - destruct (decide (trimEnd v = targetText (w_sess w))) as [Hm|Hm].
    + rewrite abs_input_match by done. unfold abs, abs_phase. rewrite He.
      apply astep_finish; [by destruct (start_truthy _) | done].
    + assert (Hm1 : v <> targetText (w_sess w)) by (intros ->; by apply Hm).
      rewrite abs_input_nomatch by done. unfold abs_phase. rewrite He. unfold abs, abs_phase. rewrite He.
      destruct (start_truthy (startTime (w_sess w))) eqn:Hs; case_decide as Hl.
      * by apply astep_type.
      * by apply astep_type.
      * apply astep_start; [intros ->; simpl in Hl; lia | done].
      * destruct v; [apply astep_idle | simpl in Hl; lia].
Qed.

Lemma abs_step_reachable w ev :
  reachable clock random w -> astep (abs w) (abs_event ev) (abs (step clock random w ev)).
Proof.
  intros Hr. pose proof (inv_reachable clock random clock_pos random_unit w Hr) as Hw.
  destruct ev as [v|key|t|]; cbn [abs_event].
  - by apply abs_input.
  - rewrite (keydown_unchanged clock random w key Hw).
    destruct (String.eqb key "Enter"); [|apply astep_nop].
    apply astep_submit_noop. unfold abs, abs_phase. cbn [a_phase a_typed a_target].
    destruct (ended (w_sess w)) eqn:He; [by left | right]. by apply (inv_unmatched w Hw).
  - apply astep_nop.
  - rewrite step_restart. destruct (startNewTest_fresh random random_unit w) as (ws & -> & Hl & Hs).
    unfold abs, abs_phase, fresh. cbn [w_sess w_dom ended startTime start_truthy targetText input_value].
    apply astep_restart. by apply good_target.
Qed.

(** C2.  Refinement: from every reachable world, each event the script
    handles moves the abstract state by a step of the contract. *)
Theorem abs_step w ev :
  reachable clock random w -> astep (abs w) (abs_event ev) (abs (step clock random w ev)).
Proof. exact (abs_step_reachable w ev). Qed.

(** A sequence of events from a reachable world is a run of the
    contract. *)
Lemma abs_steps_reachable w evs :
  reachable clock random w ->
  asteps (abs w) (map abs_event evs) (abs (fold_left (step clock random) evs w)).
Proof.
  revert w. induction evs as [|ev evs IH]; intros w Hr; [constructor|].
  cbn [map fold_left]. econstructor; [by apply abs_step_reachable|].
  apply IH. by apply reachable_step.
Qed.

(** C18.  The page starts a test in [NOT_STARTED] with nothing typed. *)
Theorem abs_load dom0 :
  a_phase (abs (load random dom0)) = NotStarted /\ a_typed (abs (load random dom0)) = []
  /\ a_target (abs (load random dom0)) <> [].
Proof.
  unfold load. destruct (startNewTest_fresh random random_unit (declared dom0)) as (ws & -> & Hl & Hs).
  unfold abs, abs_phase, fresh. cbn. split_and!; [done | done | by apply good_target].
Qed.
End Refine.

Lemma abs_step_witness :
  reachable demo_clock zero_draws demo_load
  /\ astep (abs demo_load) (abs_event (EvInput (of_string "t")))
       (abs (step demo_clock zero_draws demo_load (EvInput (of_string "t")))).
Proof.
  split; [exact demo_load_reachable|].
  exact (abs_step demo_clock zero_draws demo_clock_pos zero_draws_in_unit demo_load _ demo_load_reachable).
Defined.

Lemma abs_load_witness :
  (forall i, f64_in_unit (zero_draws i)) /\
  a_phase (abs (load zero_draws demo_dom)) = NotStarted /\ a_typed (abs (load zero_draws demo_dom)) = []
  /\ a_target (abs (load zero_draws demo_dom)) <> [].
Proof.
  split; [exact zero_draws_in_unit|]. exact (abs_load zero_draws zero_draws_in_unit demo_dom).
Defined.
