(* ===== verification/Timing.v ===== *)
(** * Clock readings and the stats a finish shows

    [startTime] is only ever [null] or an earlier reading of the clock,
    and the end time of [finishTest] is a later one.  With a clock that
    never goes back ([performance.now()] is monotonic), the finish that an
    [input] event triggers shows the texts of [score64] on those two
    readings: an elapsed time and a rate that are neither negative nor
    NaN, and [100.0%].  The flags [ended] and [startTime] always encode
    a value of the tagged variant of [Refinement]. *)

From S2P Require Import Prelude JsString NumFormat Double WordSource Render Scorer Session SessionInv Refinement.
Local Open Scope ft_scope.

(** [startTime], when set, is a reading the clock has already given. *)
Definition start_read (clock : nat -> f64) (w : World) : Prop :=
  forall t, startTime (w_sess w) = Some t -> exists j, j < w_clock w /\ t = clock j.

Section Readings.
Context (clock : nat -> f64).

Lemma start_read_stamped w : start_read clock w -> start_read clock (stamped clock w).
Proof.
  intros H t. unfold stamped. destruct (start_truthy _).
  - apply H.
  - cbn [w_sess set_startTime startTime w_clock]. intros [= <-]. exists (w_clock w). split; [lia | done].
Qed.

Lemma start_read_finished typed w : start_read clock w -> start_read clock (finished clock typed w).
Proof.
  intros H t Ht. unfold finished in Ht. cbn [w_sess set_ended startTime] in Ht.
  destruct (H t Ht) as (j & Hj & ->). exists j. unfold finished. cbn [w_clock]. split; [lia | done].
Qed.

Lemma start_read_upd_dom f w : start_read clock w -> start_read clock (upd_dom f w).
Proof. done. Qed.

Lemma start_read_input_running w : start_read clock w -> start_read clock (input_running clock w).
Proof.
  intros H. unfold input_running.
  assert (H1 : start_read clock (if decide (0 < length (input_value (w_dom w)))
                                 then stamped clock w else w))
    by (case_decide; [by apply start_read_stamped | done]).
  destruct (bool_decide _ || bool_decide _).
  - by apply start_read_finished, start_read_stamped, start_read_upd_dom.
  - by apply start_read_upd_dom.
Qed.

Lemma start_read_fresh ws w : start_read clock (fresh ws w).
Proof. done. Qed.
End Readings.

Section Timing.
Context (clock : nat -> f64) (random : nat -> f64).
Hypothesis clock_pos : forall i, f64_pos (clock i).
Hypothesis random_unit : forall i, f64_in_unit (random i).

Lemma start_read_step w ev :
  inv w -> start_read clock w -> start_read clock (step clock random w ev).
Proof.
  intros Hw H. destruct ev as [v|key|t|].
  - rewrite step_input. cbn zeta. destruct (ended (w_sess w)).
    + by apply start_read_upd_dom.
    + by apply start_read_input_running, start_read_upd_dom.
  - by rewrite keydown_unchanged.
  - done.
  - rewrite step_restart. destruct (startNewTest_fresh random random_unit w) as (ws & -> & _).
    apply start_read_fresh.
Qed.

Lemma reachable_start_read w : reachable clock random w -> start_read clock w.
Proof.
  induction 1 as [dom0 | w ev Hr IH].
  - unfold load. destruct (startNewTest_fresh random random_unit (declared dom0)) as (ws & -> & _).
    apply start_read_fresh.
  - apply start_read_step; [|done]. by apply (inv_reachable clock random clock_pos random_unit).
Qed.

Hypothesis clock_mono : forall i j, i <= j -> f64_le (clock i) (clock j).

(** The texts [finished] writes, read back. *)
Local Ltac finish_texts :=
  unfold finished; cbn [w_dom w_sess w_clock upd_dom set_acc_el set_wpm_el set_time_el
    set_stats_hidden set_words_el set_input_value set_startTime time_el wpm_el acc_el startTime
    targetText default];
  lazymatch goal with H : startTime (w_sess _) = _ |- _ => rewrite ?H end;
  split_and!; reflexivity.

(** The world an [input] event leaves when it completes the target of
    a running test: line 119 stamps the start when it is still [null]
    (taking reading [n]), line 124 finds it set, and [finishTest] takes
    the next reading as its end time. *)
Lemma input_finish_world w v :
  start_read clock w -> ended (w_sess w) = false -> 0 < length v ->
  trimEnd v = targetText (w_sess w) ->
  let n := w_clock w in
  let t0 := default (clock n) (startTime (w_sess w)) in
  let te := clock (match startTime (w_sess w) with Some _ => n | None => S n end) in
  let r := score64 (targetText (w_sess w)) (trimEnd v) (Some t0) te in
  let w' := step clock random w (EvInput v) in
  time_el (w_dom w') = time_text64 r /\ wpm_el (w_dom w') = wpm_text64 r
  /\ acc_el (w_dom w') = acc_text64 r.
Proof.
  intros Hs He Hv Hm. rewrite step_input. cbn zeta. rewrite He. unfold input_running.
  cbn [upd_dom set_input_value w_sess w_dom input_value].
  rewrite (bool_decide_true (trimEnd v = _)) by done. rewrite orb_true_r.
  destruct (decide (0 < length v)) as [_|]; [|lia].
  destruct (startTime (w_sess w)) as [t|] eqn:Hst.
  - destruct (Hs t Hst) as (j & _ & ->).
    assert (Ht : start_truthy (Some (clock j)) = true) by apply (f64_pos_truthy _ (clock_pos j)).
    unfold stamped. cbn [w_sess upd_dom]. rewrite Hst, Ht. cbn [w_sess upd_dom]. rewrite Hst, Ht.
    finish_texts.
  - assert (Ht : f64_truthy (clock (w_clock w)) = true) by apply (f64_pos_truthy _ (clock_pos _)).
    unfold stamped. cbn [w_sess upd_dom]. rewrite Hst. cbn [start_truthy w_sess w_clock upd_dom set_startTime startTime].
    rewrite Ht. finish_texts.
Qed.

(** C19.  The finish an [input] event triggers shows the texts of
    [score64] on the target, the trimmed value, the start time (the
    reading line 119 takes when it was still [null]) and the reading
    [finishTest] takes next: an elapsed time and a rate that are not
    negative (nor NaN), and [100.0%]. *)
Theorem finish_shows_score w v :
  reachable clock random w -> ended (w_sess w) = false -> trimEnd v = targetText (w_sess w) ->
  let n := w_clock w in
  let t0 := default (clock n) (startTime (w_sess w)) in
  let te := clock (match startTime (w_sess w) with Some _ => n | None => S n end) in
  let r := score64 (targetText (w_sess w)) (trimEnd v) (Some t0) te in
  let w' := step clock random w (EvInput v) in
  time_el (w_dom w') = time_text64 r /\ wpm_el (w_dom w') = wpm_text64 r
  /\ acc_el (w_dom w') = acc_text64 r
  /\ f64_nonneg (elapsedSec64 r) /\ f64_nonneg (wpm64 r) /\ acc_text64 r = of_string "100.0%".
Proof.
  intros Hr He Hm. pose proof (inv_reachable clock random clock_pos random_unit w Hr) as Hw.
  pose proof (reachable_start_read w Hr) as Hs. pose proof (inv_target_length w Hw) as HL.
  assert (Hv : 0 < length v) by (pose proof (trimEnd_length v); rewrite Hm in *; lia).
  destruct (input_finish_world w v Hs He Hv Hm) as (H1 & H2 & H3). cbn zeta in *.
  split_and!; [exact H1 | exact H2 | exact H3 | | |].
  1,2: destruct (startTime (w_sess w)) as [t|] eqn:Hst;
    [destruct (Hs t Hst) as (j & Hj & ->); cbn [default];
     destruct (score64_nonneg (targetText (w_sess w)) (trimEnd v) (clock j) (clock (w_clock w))
       (clock_pos j) (clock_pos _) (clock_mono j (w_clock w) ltac:(lia))); done
    |cbn [default];
     destruct (score64_nonneg (targetText (w_sess w)) (trimEnd v) (clock (w_clock w))
       (clock (S (w_clock w))) (clock_pos _) (clock_pos _) (clock_mono (w_clock w) (S (w_clock w)) ltac:(lia))); done].
  rewrite Hm. apply score64_exact_text; lia.
Qed.

(** C23.  The flags of every reachable world are well typed: they encode
    a value of the tagged variant (never [ended] without a start) whose
    phase is the one the refinement reads off, a test not started has
    an empty input, and a start time is a positive clock reading. *)
Theorem reachable_well_tagged w :
  reachable clock random w ->
  exists x, tag_session (w_sess w) = Some x /\ state_phase x = abs_phase w
    /\ (x = SNotStarted -> input_value (w_dom w) = [])
    /\ (forall t, x = SRunning t \/ x = SFinished t -> f64_pos t).
Proof.
  intros Hr. pose proof (inv_reachable clock random clock_pos random_unit w Hr) as Hw.
  pose proof (reachable_start_read w Hr) as Hs. unfold abs_phase, tag_session.
  destruct (startTime (w_sess w)) as [t|] eqn:Ht.
  - destruct (Hs t Ht) as (j & _ & ->). pose proof (clock_pos j) as Hp.
    cbn [start_truthy]. rewrite (f64_pos_truthy _ Hp).
    destruct (ended (w_sess w)); eexists; (split; [reflexivity|]); split_and!;
      done || (intros ? [[= <-]|[= <-]]; done).
  - assert (Hn : ~ (input_value (w_dom w) <> [] \/ ended (w_sess w) = true)).
    { intros H. pose proof (inv_started w Hw H) as Hst. by rewrite Ht in Hst. }
    destruct (ended (w_sess w)); [exfalso; by apply Hn; right|].
    exists SNotStarted. split_and!; [done | done | | by intros ? [? | ?]].
    intros _. destruct (input_value (w_dom w)); [done|]. exfalso. apply Hn. by left.
Qed.
End Timing.

Lemma demo_clock_mono : forall i j, i <= j -> f64_le (demo_clock i) (demo_clock j).
Proof.
  intros i j Hij. destruct (demo_clock_spec i) as (_ & a & Ha & Ea).
  destruct (demo_clock_spec j) as (_ & b & Hb & Eb). unfold f64_le. rewrite Ha, Hb, Ea, Eb.
  rewrite <- Zle_Qle. lia.
Qed.

Lemma demo_trailing_space :
  trimEnd (demo_target ++ of_string " ") = targetText (w_sess demo_load).
Proof. vm_compute. reflexivity. Qed.

Lemma finish_shows_score_witness :
  (forall i j, i <= j -> f64_le (demo_clock i) (demo_clock j))
  /\ reachable demo_clock zero_draws demo_load /\ ended (w_sess demo_load) = false
  /\ trimEnd (demo_target ++ of_string " ") = targetText (w_sess demo_load)
  /\ let n := w_clock demo_load in
     let t0 := default (demo_clock n) (startTime (w_sess demo_load)) in
     let te := demo_clock (match startTime (w_sess demo_load) with Some _ => n | None => S n end) in
     let r := score64 (targetText (w_sess demo_load)) (trimEnd (demo_target ++ of_string " ")) (Some t0) te in
     let w' := step demo_clock zero_draws demo_load (EvInput (demo_target ++ of_string " ")) in
     time_el (w_dom w') = time_text64 r /\ wpm_el (w_dom w') = wpm_text64 r
     /\ acc_el (w_dom w') = acc_text64 r
     /\ f64_nonneg (elapsedSec64 r) /\ f64_nonneg (wpm64 r) /\ acc_text64 r = of_string "100.0%".
Proof.
  split_and!; [exact demo_clock_mono | exact demo_load_reachable | exact demo_load_running
    | exact demo_trailing_space |].
  exact (finish_shows_score demo_clock zero_draws demo_clock_pos zero_draws_in_unit demo_clock_mono
           demo_load _ demo_load_reachable demo_load_running demo_trailing_space).
Defined.

Lemma reachable_well_tagged_witness :
  (forall i, f64_pos (demo_clock i)) /\ reachable demo_clock zero_draws demo_finished /\
  exists x, tag_session (w_sess demo_finished) = Some x /\ state_phase x = abs_phase demo_finished
    /\ (x = SNotStarted -> input_value (w_dom demo_finished) = [])
    /\ (forall t, x = SRunning t \/ x = SFinished t -> f64_pos t).
Proof.
  split; [exact demo_clock_pos|]. split; [exact demo_finished_reachable|].
  exact (reachable_well_tagged demo_clock zero_draws demo_clock_pos zero_draws_in_unit
           demo_finished demo_finished_reachable).
Defined.
