(* ===== verification/Liveness.v ===== *)
(** * Runs of the page: completion of the listeners and reaching a finish

    A run is a sequence of events, each handled by [step] in the order
    the browser delivers them ([run]).  Against the environment
    interface of [Environment]:
    - every listener runs to completion: [dispatch] never throws, reads
      the clock at most twice, and draws [WORD_COUNT] random numbers on a
      restart and none otherwise;
    - typing the target one code unit at a time ([keystrokes], the
      [input] events of the keystrokes of line 116) keeps the test
      running until the last unit and finishes it with [100.0%] there;
    - from any world at all, a restart followed by typing the new target
      finishes a test: the page never gets stuck. *)

From S2P Require Import Prelude JsString NumFormat Double Environment WordSource Render Scorer Session SessionInv Timing.
Local Open Scope ft_scope.

Section Runs.
Context {E : Environment}.

(** The world after the events [evs], in order. *)
Definition run (w : World) (evs : list event) : World :=
  fold_left (step now_at random_at) evs w.

(** Typing [T] one code unit at a time: the first [n] [input] events,
    after which the value is [T]'s first [n] units. *)
Definition keystrokes (T : jsstr) (n : nat) : list event :=
  map (fun i => EvInput (take i T)) (seq 1 n).

(** Some sequence of events leads from the world to one where [P] holds. *)
Inductive eventually (P : World -> Prop) : World -> Prop :=
  | eventually_now w : P w -> eventually P w
  | eventually_later w ev : eventually P (step now_at random_at w ev) -> eventually P w.
End Runs.

(** A finished test showing its stats with [100.0%]. *)
Definition finished_perfect (w : World) : Prop :=
  ended (w_sess w) = true /\ stats_hidden (w_dom w) = false /\ acc_el (w_dom w) = of_string "100.0%".

(** ** Runs *)

Section RunLemmas.
Context {E : Environment}.

Lemma run_app w evs1 evs2 : run w (evs1 ++ evs2) = run (run w evs1) evs2.
Proof. unfold run. apply fold_left_app. Qed.

Lemma run_snoc w evs ev : run w (evs ++ [ev]) = step now_at random_at (run w evs) ev.
Proof. by rewrite run_app. Qed.

Lemma keystrokes_S T n : keystrokes T (S n) = keystrokes T n ++ [EvInput (take (S n) T)].
Proof. unfold keystrokes. rewrite seq_S, map_app. simpl. by replace (1 + n) with (S n) by lia. Qed.

Lemma eventually_run (P : World -> Prop) w evs : P (run w evs) -> eventually P w.
Proof.
  revert w. induction evs as [|ev evs IH]; intros w HP; [by constructor|].
  apply (eventually_later _ _ ev). by apply IH.
Qed.

Lemma reachable_run w evs : reachable now_at random_at w -> reachable now_at random_at (run w evs).
Proof.
  revert w. induction evs as [|ev evs IH]; intros w Hr; [done|].
  apply IH. by apply reachable_step.
Qed.
End RunLemmas.

(** ** What one [input] event changes *)

Lemma input_running_targetText clock w :
  targetText (w_sess (input_running clock w)) = targetText (w_sess w).
Proof.
  unfold input_running. destruct (bool_decide _ || bool_decide _); cbn [finished w_sess set_ended targetText];
    rewrite ?stamped_targetText; cbn [upd_dom w_sess]; case_decide; by rewrite ?stamped_targetText.
Qed.

Lemma stamped_clock clock w : w_clock w <= w_clock (stamped clock w) <= S (w_clock w)
  /\ w_rand (stamped clock w) = w_rand w.
Proof. unfold stamped. destruct (start_truthy _); simpl; lia. Qed.

(** The [input] listener on a running test reads the clock at most
    twice: a stamped start is truthy, so the second stamp does nothing. *)
Lemma input_running_clock clock w :
  (forall i, f64_pos (clock i)) ->
  w_clock (input_running clock w) <= w_clock w + 2 /\ w_rand (input_running clock w) = w_rand w.
Proof.
  intros Hpos. unfold input_running.
  set (w1 := if decide (0 < length (input_value (w_dom w))) then stamped clock w else w).
  set (w2 := upd_dom _ w1).
  assert (H1 : w_clock w1 <= S (w_clock w) /\ w_rand w1 = w_rand w).
  { subst w1. case_decide; [|lia]. pose proof (stamped_clock clock w). lia. }
  destruct (bool_decide _ || bool_decide _); [|subst w2; simpl; lia].
  unfold finished. cbn [w_clock w_rand].
  destruct (decide (0 < length (input_value (w_dom w)))) as [Hl|Hl].
  - rewrite (stamped_keeps_truthy clock w2).
    + subst w2. simpl. lia.
    + subst w2 w1. cbn [upd_dom w_sess]. by apply stamped_truthy.
  - pose proof (stamped_clock clock w2). subst w2 w1. simpl in *. lia.
Qed.

(** [finishTest] returns normally, after one reading at most. *)
Lemma finishTest_completes clock typed w :
  exists w', finishTest clock typed w = (Normal tt, w')
    /\ w_clock w' <= S (w_clock w) /\ w_rand w' = w_rand w.
Proof.
  destruct (ended (w_sess w)) eqn:He.
  - exists w. rewrite finishTest_ended by done. split_and!; done || lia.
  - eexists. rewrite finishTest_eq by done. split_and!; [done | simpl; lia | done].
Qed.

(** ** Against the environment's laws *)

Section Live.
Context {E : Environment} {EL : EnvironmentLaws E}.

Lemma env_inv_step w ev : inv w -> inv (step now_at random_at w ev).
Proof. apply inv_step; [apply env_now_pos | apply env_random_unit]. Qed.

Lemma inv_run w evs : inv w -> inv (run w evs).
Proof.
  revert w. induction evs as [|ev evs IH]; intros w Hw; [done|].
  apply IH. by apply env_inv_step.
Qed.

(** An [input] event whose value differs from the target once trimmed
    keeps a running test running, on the same target. *)
Lemma step_input_nomatch w v :
  ended (w_sess w) = false -> trimEnd v <> targetText (w_sess w) -> v <> targetText (w_sess w) ->
  let w' := step now_at random_at w (EvInput v) in
  ended (w_sess w') = false /\ targetText (w_sess w') = targetText (w_sess w).
Proof.
  intros He Hm1 Hm2. cbn zeta. rewrite step_input. cbn zeta. rewrite He.
  rewrite input_running_ended, input_running_targetText by done.
  cbn [upd_dom set_input_value w_dom w_sess input_value].
  rewrite !bool_decide_false by done. done.
Qed.

Lemma step_input_match w :
  ended (w_sess w) = false ->
  ended (w_sess (step now_at random_at w (EvInput (targetText (w_sess w))))) = true.
Proof.
  intros He. rewrite step_input. cbn zeta. rewrite He, input_running_ended by done.
  cbn [upd_dom set_input_value w_dom w_sess input_value]. by rewrite bool_decide_true.
Qed.

(** Typing the first [n] units of the target, [n] below its length,
    leaves the test running on the same target. *)
Lemma typing_prefix w n :
  inv w -> ended (w_sess w) = false -> n < length (targetText (w_sess w)) ->
  ended (w_sess (run w (keystrokes (targetText (w_sess w)) n))) = false
  /\ targetText (w_sess (run w (keystrokes (targetText (w_sess w)) n))) = targetText (w_sess w).
Proof.
  intros Hw He. set (T := targetText (w_sess w)). induction n as [|n IH]; intros Hn; [done|].
  rewrite keystrokes_S, run_snoc. destruct IH as [He' HT']; [lia|].
  assert (Hlen : length (take (S n) T) = S n) by (rewrite length_take; lia).
  destruct (step_input_nomatch (run w (keystrokes T n)) (take (S n) T) He') as [H1 H2];
    rewrite ?HT'.
  - intros Heq. pose proof (trimEnd_length (take (S n) T)). rewrite Heq in *. lia.
  - intros Heq. rewrite Heq in Hlen. lia.
  - split; [exact H1 | by rewrite H2].
Qed.

(** Typing the whole target finishes the test with [100.0%]. *)
Lemma typing_complete w :
  inv w -> ended (w_sess w) = false ->
  finished_perfect (run w (keystrokes (targetText (w_sess w)) (length (targetText (w_sess w))))).
Proof.
  intros Hw He. destruct (inv_target w Hw) as [Hne _].
  set (T := targetText (w_sess w)).
  destruct (length T) as [|n] eqn:HL; [exfalso; apply Hne; by apply length_zero_iff_nil|].
  rewrite keystrokes_S, run_snoc.
  destruct (typing_prefix w n Hw He) as [He' HT']; [fold T; lia|]. fold T in He', HT'.
  set (w' := run w (keystrokes T n)) in *.
  assert (Ht : take (S n) T = targetText (w_sess w')) by (rewrite HT', take_ge; [done | lia]).
  rewrite Ht. pose proof (step_input_match w' He') as Hend.
  assert (Hinv : inv (step now_at random_at w' (EvInput (targetText (w_sess w'))))).
  { apply env_inv_step. subst w'. by apply inv_run. }
  split; [done|]. by apply (inv_result _ Hinv).
Qed.

(** C20.  From any reachable world where the test runs, typing the
    target one code unit at a time keeps the test running after every
    unit but the last, and the last unit finishes it, showing the stats
    with an accuracy of [100.0%]. *)
Theorem typing_finishes w :
  reachable now_at random_at w -> ended (w_sess w) = false ->
  (forall n, n < length (targetText (w_sess w)) ->
     ended (w_sess (run w (keystrokes (targetText (w_sess w)) n))) = false)
  /\ finished_perfect (run w (keystrokes (targetText (w_sess w)) (length (targetText (w_sess w))))).
Proof.
  intros Hr He. assert (Hw : inv w) by (apply (inv_reachable now_at random_at);
    [apply env_now_pos | apply env_random_unit | done]).
  split; [intros n Hn; by apply typing_prefix | by apply typing_complete].
Qed.

(** C21.  The page never gets stuck: from any world whatsoever, also
    one a thrown exception left half updated, some sequence of events (a
    restart, then typing the new target) finishes a test with [100.0%]. *)
Theorem restart_recovers w : eventually finished_perfect w.
Proof.
  apply (eventually_later _ _ EvRestart). rewrite step_restart.
  destruct (startNewTest_fresh random_at env_random_unit w) as (ws & -> & Hl & Hs).
  assert (Hw : inv (fresh ws w)) by (apply inv_fresh; by split).
  eapply eventually_run. by apply typing_complete.
Qed.

(** C22.  Every listener runs to completion: [dispatch] returns normally
    on every event in every world, after at most two readings of the
    clock, and with exactly [WORD_COUNT] random draws for a restart and
    none for any other event. *)
Theorem dispatch_completes w ev :
  exists w', dispatch now_at random_at ev w = (Normal tt, w')
    /\ w_clock w' <= w_clock w + 2
    /\ w_rand w' = w_rand w + match ev with EvRestart => WORD_COUNT | _ => 0 end.
Proof.
  destruct ev as [v|key|t|].
  - cbn [dispatch]. unfold st_bind at 1, st_modify at 1. cbn [fst snd].
    set (w0 := upd_dom (set_input_value v) w).
    destruct (ended (w_sess w0)) eqn:He.
    + exists w0. rewrite onInput_ended by done. split_and!; [done | simpl; lia | simpl; lia].
    + exists (input_running now_at w0). rewrite onInput_running by done.
      pose proof (input_running_clock now_at w0 env_now_pos). simpl in *. split_and!; [done | lia | lia].
  - cbn [dispatch]. unfold onKeydown. destruct (String.eqb key "Enter").
    2: { exists w. split_and!; [done | lia | lia]. }
    unfold st_bind, st_get. cbn [fst snd].
    destruct (bool_decide _ && _); [case_decide|].
    + destruct (finishTest_completes now_at (trimEnd (input_value (w_dom w))) w) as (w' & -> & H1 & H2).
      exists w'. split_and!; [done | lia | lia].
    + exists w. split_and!; [done | lia | lia].
    + exists w. split_and!; [done | lia | lia].
  - exists w. split_and!; [done | lia | lia].
  - cbn [dispatch]. destruct (startNewTest_run random_at env_random_unit w) as (ws & -> & _).
    exists (fresh ws w). cbn [fresh w_clock w_rand]. split_and!; [done | lia | lia].
Qed.
End Live.

(** ** The concrete page of [SessionInv] as an environment *)

Definition demo_env : Environment := stream_env demo_clock zero_draws.

Lemma demo_env_laws : EnvironmentLaws demo_env.
Proof. apply stream_env_laws; [exact demo_clock_pos | exact demo_clock_mono | exact zero_draws_in_unit]. Qed.

Lemma typing_finishes_witness :
  EnvironmentLaws demo_env /\ reachable demo_clock zero_draws demo_load /\ ended (w_sess demo_load) = false /\
  ((forall n, n < length (targetText (w_sess demo_load)) ->
     ended (w_sess (@run demo_env demo_load (keystrokes (targetText (w_sess demo_load)) n))) = false)
   /\ finished_perfect (@run demo_env demo_load
        (keystrokes (targetText (w_sess demo_load)) (length (targetText (w_sess demo_load)))))).
Proof.
  split; [exact demo_env_laws|]. split; [exact demo_load_reachable|]. split; [exact demo_load_running|].
  exact (@typing_finishes demo_env demo_env_laws demo_load demo_load_reachable demo_load_running).
Defined.

Lemma restart_recovers_witness :
  EnvironmentLaws demo_env /\ @eventually demo_env finished_perfect demo_finished.
Proof. split; [exact demo_env_laws | exact (@restart_recovers demo_env demo_env_laws demo_finished)]. Defined.

Lemma dispatch_completes_witness :
  EnvironmentLaws demo_env /\
  exists w', dispatch demo_clock zero_draws EvRestart demo_finished = (Normal tt, w')
    /\ w_clock w' <= w_clock demo_finished + 2
    /\ w_rand w' = w_rand demo_finished + WORD_COUNT.
Proof.
  split; [exact demo_env_laws|].
  exact (@dispatch_completes demo_env demo_env_laws demo_finished EvRestart).
Defined.
