(* ===== verification/Browser.v ===== *)
(** * The browser's side of the text field: key presses, pastes and drops

    The listeners of [Session] receive events; a user acts on the text
    field, and the browser turns each action into events, as the UI
    Events and Input Events specifications describe for a single-line
    [<input>]:
    - a key press fires [keydown]; the script's [keydown] listener
      (lines 130-140) never calls [preventDefault], so the key's default
      action follows: a key whose [key] value is one character inserts
      it at the selection, [Backspace] and [Delete] delete, every other
      key ([Enter], [Shift], the arrows) edits nothing;
    - a paste fires [paste]; the clipboard text is inserted at the
      selection only when the listener left the event uncancelled, and
      the listener of line 114 cancels it;
    - a drop of text inserts it at the selection: the script has no
      [drop] listener;
    - an edit that changes the value sets [input.value] and fires
      [input] (lines 116-127); an edit that changes nothing fires
      nothing.
    Each event is its own task: the next one runs on the world the
    previous listener left, whether it returned or threw.

    The theorems: pastes change nothing, wherever they occur in a
    sequence of actions; a drop of the target finishes a running test in
    one action, the bulk insertion the specification asks to reject;
    and every action keeps a world reachable. *)

From S2P Require Import Prelude JsString NumFormat Double Environment WordSource Render Scorer Session SessionInv Refinement Liveness.
Local Open Scope ft_scope.

(** [input.selectionStart] and [input.selectionEnd], in code units. *)
Record Selection : Type := mk_sel { sel_start : nat; sel_end : nat }.

(** A collapsed selection: the caret before unit [n]. *)
Definition caret (n : nat) : Selection := mk_sel n n.

(** The editing commands a key press, a paste or a drop performs. *)
Inductive edit : Type :=
  | InsertText (s : jsstr)   (** insertText, insertFromPaste, insertFromDrop *)
  | DeleteBackward
  | DeleteForward.

(** The selection as offsets into [v]: both at most its length, the end
    not before the start. *)
Definition clamp (v : jsstr) (sel : Selection) : nat * nat :=
  let a := Nat.min (sel_start sel) (length v) in
  (a, Nat.max a (Nat.min (sel_end sel) (length v))).

(** [v] with the units [[a, b)] replaced by [s]. *)
Definition replace_range (v : jsstr) (a b : nat) (s : jsstr) : jsstr :=
  take a v ++ s ++ drop b v.

(** The value after an edit, or [None] when the edit changes nothing. *)
Definition apply_edit (v : jsstr) (sel : Selection) (e : edit) : option jsstr :=
  let '(a, b) := clamp v sel in
  match e with
  | InsertText s => if decide (s = [] /\ a = b) then None else Some (replace_range v a b s)
  | DeleteBackward =>
      if decide (a < b) then Some (replace_range v a b [])
      else match a with 0 => None | S a' => Some (replace_range v a' a []) end
  | DeleteForward =>
      if decide (a < b) then Some (replace_range v a b [])
      else if decide (a < length v) then Some (replace_range v a (S a) []) else None
  end.

(** The default action of a key press in a single-line field. *)
Definition key_edit (key : string) : option edit :=
  match key with
  | String c EmptyString => Some (InsertText [Ascii.N_of_ascii c])
  | _ => if String.eqb key "Backspace" then Some DeleteBackward
         else if String.eqb key "Delete" then Some DeleteForward else None
  end.

(** What a user does to the page. *)
Inductive action : Type :=
  | AKey (key : string) (sel : Selection)
  | APaste (text : jsstr) (sel : Selection)
  | ADrop (text : jsstr) (sel : Selection)
  | AClickRestart.

Section Act.
Context {E : Environment}.

(** The browser applies an edit to [input.value]; when the value
    changed, [input] fires. *)
Definition edit_input (sel : Selection) (e : edit) (w : World) : World :=
  match apply_edit (input_value (w_dom w)) sel e with
  | Some v => step now_at random_at w (EvInput v)
  | None => w
  end.

(** A paste: the listener of line 114 runs on a fresh event object, and
    the clipboard text is inserted only when the event came back
    uncancelled (a listener that throws has cancelled nothing). *)
Definition paste (text : jsstr) (sel : Selection) (w : World) : World :=
  match onPaste (mk_event false) w with
  | (Normal e, w1) => if defaultPrevented e then w1 else edit_input sel (InsertText text) w1
  | (Thrown _, w1) => edit_input sel (InsertText text) w1
  end.

(** The world after an action. *)
Definition act (a : action) (w : World) : World :=
  match a with
  | AKey key sel =>
      let w1 := step now_at random_at w (EvKeydown key) in
      match key_edit key with
      | Some e => edit_input sel e w1
      | None => w1
      end
  | APaste text sel => paste text sel w
  | ADrop text sel => edit_input sel (InsertText text) w
  | AClickRestart => step now_at random_at w EvRestart
  end.

(** The world after the actions [acs], in order. *)
Definition acts (w : World) (acs : list action) : World :=
  fold_left (fun w a => act a w) acs w.

End Act.

(** ** Edits *)

(** Dropping [s] over the whole value replaces it. *)
Lemma apply_edit_replace_all (v s : jsstr) :
  s <> [] -> apply_edit v (mk_sel 0 (length v)) (InsertText s) = Some s.
Proof.
  intros Hs. unfold apply_edit, clamp. cbn [sel_start sel_end].
  rewrite Nat.min_0_l, Nat.min_id, Nat.max_0_l. rewrite decide_False by tauto.
  unfold replace_range. rewrite drop_ge by lia. by rewrite app_nil_r.
Qed.

(** ** Steps *)

Section ActLemmas.
Context {E : Environment}.

Lemma acts_app w acs1 acs2 : acts w (acs1 ++ acs2) = acts (acts w acs1) acs2.
Proof. unfold acts. apply fold_left_app. Qed.

Lemma paste_unchanged text sel w : act (APaste text sel) w = w.
Proof. reflexivity. Qed.

Lemma act_reachable a w : reachable now_at random_at w -> reachable now_at random_at (act a w).
Proof.
  intros Hr. assert (He : forall sel e w, reachable now_at random_at w ->
                           reachable now_at random_at (edit_input sel e w)).
  { intros sel e w' Hw'. unfold edit_input. destruct (apply_edit _ _ _); [by apply reachable_step | done]. }
  destruct a as [key sel|text sel|text sel|]; cbn [act].
  - destruct (key_edit key); [apply He|]; by apply reachable_step.
  - exact Hr.
  - by apply He.
  - by apply reachable_step.
Qed.

Lemma acts_reachable w acs : reachable now_at random_at w -> reachable now_at random_at (acts w acs).
Proof.
  revert w. induction acs as [|a acs IH]; intros w Hr; [done|].
  apply IH. by apply act_reachable.
Qed.

End ActLemmas.

Section Theorems.
Context {E : Environment}.

(** C30.  Pastes are ignored: removing a paste from any sequence of
    actions, at any position, gives the same world, because the [paste]
    listener of line 114 cancels the insertion. *)
Theorem pastes_ignored w acs1 text sel acs2 :
  acts w (acs1 ++ APaste text sel :: acs2) = acts w (acs1 ++ acs2).
Proof. rewrite !acts_app. reflexivity. Qed.

Context {EL : EnvironmentLaws E}.

Lemma env_reachable_inv w : reachable now_at random_at w -> inv w.
Proof. apply inv_reachable; [apply env_now_pos | apply env_random_unit]. Qed.

(** C31.  A drop is not a paste: dropping the target text over the whole
    value of a running test finishes it in one action, showing the
    stats with [100.0%]. *)
Theorem drop_finishes w :
  reachable now_at random_at w -> ended (w_sess w) = false ->
  finished_perfect (act (ADrop (targetText (w_sess w)) (mk_sel 0 (length (input_value (w_dom w))))) w).
Proof.
  intros Hr He. pose proof (env_reachable_inv w Hr) as Hw. destruct (inv_target w Hw) as [Hne _].
  cbn [act]. unfold edit_input. rewrite apply_edit_replace_all by done.
  pose proof (step_input_match w He) as Hend.
  split; [done | exact (inv_result _ (env_inv_step w _ Hw) Hend)].
Qed.

End Theorems.

Lemma drop_finishes_witness :
  EnvironmentLaws demo_env /\ reachable demo_clock zero_draws demo_load /\ ended (w_sess demo_load) = false /\
  finished_perfect (@act demo_env (ADrop (targetText (w_sess demo_load))
                      (mk_sel 0 (length (input_value (w_dom demo_load))))) demo_load).
Proof.
  split; [exact demo_env_laws|]. split; [exact demo_load_reachable|]. split; [exact demo_load_running|].
  exact (@drop_finishes demo_env demo_env_laws demo_load demo_load_reachable demo_load_running).
Defined.
