(* ===== verification/Page.v ===== *)
(** * The page: the element lookups and the load sequence

    [src/script.js] looks up seven elements by id (lines 4-10);
    [getElementById] returns [null] for an id the page lacks, and the
    script checks none of them.  When the closure runs it registers its
    four listeners, in this order: [paste] (line 114), [input] (116) and
    [keydown] (130) on [input], [click] (142) on [restartBtn]; then it
    calls [startNewTest()] (145).  Each registration and each write of
    [startNewTest] to a missing element throws a [TypeError], which
    stops the closure there: the listeners registered before it stay,
    the later ones never are, and the writes made before it stay.

    [Page] (in [Session]) records which lookups succeed; [boot] is the
    load sequence on a page, over a state of the world and the list of
    registered listeners.  The listeners themselves are modelled for the
    page the script is written for ([full_page]).  The theorems: on that
    page the load registers the four listeners in source order and
    leaves the world [load] of [Session]; on any other page it throws,
    with the listeners of the lines before the failing one registered
    and, when [#input] or [#restart] is missing, no test drawn. *)

From S2P Require Import Prelude JsString NumFormat Double Environment WordSource Render Scorer Session SessionInv.
Local Open Scope ft_scope.

(** The four [addEventListener] calls of lines 114-142. *)
Inductive listener : Type :=
  | LPaste
  | LInput
  | LKeydown
  | LClick.

#[export] Instance listener_eq_dec : EqDecision listener.
Proof. solve_decision. Defined.

(** The state of the load sequence: the world and the listeners
    registered so far, in order. *)
Record Boot : Type := mk_boot {
  b_world : World;
  b_listeners : list listener
}.

(** [el.addEventListener(type, f)] on an element that may be [null]. *)
Definition addEventListener (present : bool) (l : listener) : M Boot unit :=
  need present >> st_modify (fun b => mk_boot (b_world b) (b_listeners b ++ [l])).

(** A computation on the world, run within the load sequence. *)
Definition on_world {A} (m : M World A) : M Boot A :=
  fun b => let '(o, w) := m (b_world b) in (o, mk_boot w (b_listeners b)).

Section Boot.
Context (random : nat -> f64).

(** Lines 113-145, after the lookups of lines 4-10 found [p]. *)
Definition boot_script (p : Page) : M Boot unit :=
  addEventListener (has_input p) LPaste >>
  addEventListener (has_input p) LInput >>
  addEventListener (has_input p) LKeydown >>
  addEventListener (has_restart p) LClick >>
  on_world (startNewTest_on random p).

(** The closure run on a page: the variables as declared, no listener. *)
Definition boot (p : Page) (dom0 : Dom) : outcome unit * Boot :=
  boot_script p (mk_boot (declared dom0) []).
End Boot.

(** The six elements [startNewTest] uses were found. *)
Definition start_found (p : Page) : bool :=
  has_words p && has_input p && has_stats p && has_time p && has_wpm p && has_acc p.

(** ** Lemmas *)

Lemma start_found_missing p :
  p <> full_page -> has_restart p = true -> start_found p = false.
Proof. destruct p as [[] [] [] [] [] [] []]; cbn; intros H Hr; done || congruence. Qed.

Section BootLemmas.
Context (random : nat -> f64).
Hypothesis random_unit : forall i, f64_in_unit (random i).

(** On a page with [#input] and [#restart], the load runs [startNewTest]
    after the four registrations. *)
Lemma boot_registered p dom0 :
  has_input p = true -> has_restart p = true ->
  boot random p dom0
    = on_world (startNewTest_on random p) (mk_boot (declared dom0) [LPaste; LInput; LKeydown; LClick]).
Proof.
  intros Hi Hr. unfold boot, boot_script, addEventListener. rewrite Hi, Hr. reflexivity.
Qed.

(** One statement of [startNewTest_on], chosen by its head. *)
Ltac start_step :=
  lazymatch goal with
  | |- st_bind (st_modify _) _ _ = _ => rewrite st_bind_modify
  | |- st_bind (need true) _ _ = _ => rewrite st_bind_need_true
  | |- st_bind (need false) _ _ = _ => rewrite st_bind_need_false
  | |- st_bind (on_words (renderWords _)) _ _ = _ =>
      rewrite (st_bind_normal _ _ _ _ _ (on_words_renderWords _ _))
  end; cbv beta.

(** [startNewTest] throws on a page that lacks an element it uses. *)
Lemma startNewTest_on_missing p w :
  start_found p = false -> exists w', startNewTest_on random p w = (Thrown TypeError, w').
Proof.
  intros Hp. destruct (pickWords_world random random_unit w) as (ws & Hpick & _).
  unfold startNewTest_on. rewrite (st_bind_normal _ _ _ _ _ Hpick). cbv beta. clear Hpick.
  destruct p as [[] [] [] [] [] [] []];
    cbn [start_found has_words has_input has_restart has_stats has_time has_wpm has_acc andb] in Hp;
    try discriminate; cbn [has_words has_input has_restart has_stats has_time has_wpm has_acc];
    eexists; repeat start_step; reflexivity.
Qed.

(** On the page the script is written for, the closure registers
    its four listeners in source order, [paste], [input], [keydown] and
    [click], and its initial [startNewTest()] returns, leaving the world
    [load] from which every theorem on the session starts. *)
Lemma boot_full_page dom0 :
  boot random full_page dom0 = (Normal tt, mk_boot (load random dom0) [LPaste; LInput; LKeydown; LClick]).
Proof.
  rewrite boot_registered by reflexivity. unfold on_world. cbn [b_world b_listeners].
  destruct (startNewTest_run random random_unit (declared dom0)) as (ws & Hrun & _).
  rewrite startNewTest_full, Hrun.
  unfold load, exec. by rewrite Hrun.
Qed.

(** C32.  On a page that lacks any of the seven elements the closure
    throws a [TypeError]: without [#input] before registering anything,
    without [#restart] after the three listeners of [input], and
    otherwise in [startNewTest] after all four.  When [#input] or
    [#restart] is missing, [startNewTest] never runs: the variables keep
    their declared values and no test is drawn. *)
Theorem boot_missing p dom0 :
  p <> full_page ->
  fst (boot random p dom0) = Thrown TypeError
  /\ b_listeners (snd (boot random p dom0))
       = (if has_input p then [LPaste; LInput; LKeydown] ++ (if has_restart p then [LClick] else []) else [])
  /\ (has_input p && has_restart p = false -> b_world (snd (boot random p dom0)) = declared dom0).
Proof.
  intros Hp. destruct (has_input p) eqn:Hi; [destruct (has_restart p) eqn:Hr|].
  - rewrite boot_registered by done. unfold on_world. cbn [b_world b_listeners].
    destruct (startNewTest_on_missing p (declared dom0)) as (w' & ->); [by apply start_found_missing|].
    cbn. split_and!; [done | done | discriminate].
  - unfold boot, boot_script, addEventListener. rewrite Hi, Hr. done.
  - unfold boot, boot_script, addEventListener. rewrite Hi. done.
Qed.
End BootLemmas.

Definition no_restart_page : Page := mk_page true true false true true true true.

Lemma boot_missing_witness :
  (forall i, f64_in_unit (zero_draws i)) /\ no_restart_page <> full_page /\
  (fst (boot zero_draws no_restart_page demo_dom) = Thrown TypeError
   /\ b_listeners (snd (boot zero_draws no_restart_page demo_dom))
        = (if has_input no_restart_page
           then [LPaste; LInput; LKeydown] ++ (if has_restart no_restart_page then [LClick] else []) else [])
   /\ (has_input no_restart_page && has_restart no_restart_page = false ->
        b_world (snd (boot zero_draws no_restart_page demo_dom)) = declared demo_dom)).
Proof.
  assert (H : no_restart_page <> full_page) by discriminate.
  split; [exact zero_draws_in_unit|]. split; [exact H|].
  exact (boot_missing zero_draws zero_draws_in_unit no_restart_page demo_dom H).
Defined.
